(** * Shift Patient Care: feed health, scene probe, fall heuristic, incidents

  A shallow embedding of the monitoring core of the patient wall:

  - [VideoProbe]  : src/lib/videoProbe.ts  (attachVideoProbe)
  - [SceneProbe]  : src/lib/sceneProbe.ts  (attachSceneProbe)
  - [AIProbe]     : src/lib/aiProbe.ts     (attachAIProbe)
  - [VideoTile]   : src/components/VideoTile.tsx (withAiLock, the AI tick)
  - [App]         : src/App.tsx (sortInbox, ack, resolve, upsertIncident,
                    the onAutoIncident handler) and src/mock/incidents.ts
                    (newIncident)
  - [Dashboard]   : src/App.tsx (globalSafetyState, countBySeverity,
                    incidentsByCamera, the status maps, healthCounts)
  - [Selection]   : src/App.tsx (the effect that keeps the selection valid)
  - [AutoEmit]    : src/components/VideoTile.tsx (the effect that forwards
                    falls to the page)
  - [FocusModal]  : src/components/FocusModal.tsx (replayWindow)
  - [Urls]        : src/components/VideoTile.tsx (proxify,
                    isSameOriginOrRelative, canReadPixels)
  - [TileView]    : src/components/VideoTile.tsx (the classes of a tile) and
                    src/lib/severity.ts (severityColor)
  - [Vitals]      : src/mock/incidents.ts (rnd, clamp, makeHrSeries)

  Conventions.  JavaScript numbers that hold clock readings, counters and
  pixel channels are integers ([Z]); every other number is an exact
  rational ([Q]), so a comparison against a threshold is the comparison of
  the real values.  Closure variables of an attachment become the fields
  of a record that is threaded through the callbacks; a callback returns
  the new record together with the list of readings it delivered to its
  consumer, oldest first.  Timers and listeners are flags of that record:
  the browser runs a callback only while its flag is set.  A callback
  reads the clock once.  An asynchronous tick is cut at its [await]s: each
  piece is a function, and the record remembers where the tick stands. *)

From Stdlib Require Import ZArith QArith Qround Qabs String Ascii List Lia.
From Stdlib Require Import DecimalString Sorting.Sorted Sorting.Permutation Lqa.
From stdpp Require Import base option list strings gmap.
Import ListNotations.

#[local] Open Scope string_scope.
#[local] Open Scope list_scope.
#[local] Open Scope Z_scope.

(* ===================================================================== *)
(** * JavaScript arithmetic and formatting                                 *)
(* ===================================================================== *)

Module JS.

(** [a < b] on numbers. *)
Definition Qlt_bool (a b : Q) : bool := negb (Qle_bool b a).

Definition Math_max (a b : Q) : Q := if Qle_bool a b then b else a.
Definition Math_min (a b : Q) : Q := if Qle_bool a b then a else b.

(** [Math.round]: the nearest integer, a tie going up. *)
Definition Math_round (x : Q) : Z := Qfloor (x + (1 # 2)).

(** An integer printed in decimal, as a template literal prints it. *)
Definition show_Z (z : Z) : string := NilZero.string_of_int (Z.to_int z).

Definition two_digits (n : Z) : string :=
  if n <? 10 then "0" +:+ show_Z n else show_Z n.

(** [x.toFixed(2)] below 1e21: the sign, then the nearest multiple of
    1/100 of the magnitude (the larger one on a tie). *)
Definition toFixed2 (x : Q) : string :=
  let n := Qfloor (Qabs x * 100 + (1 # 2)) in
  (if Qlt_bool x 0 then "-" else "")
    +:+ show_Z (n / 100) +:+ "." +:+ two_digits (n mod 100).

(** Storing a number into a [Uint8ClampedArray]: round to the nearest
    integer, a tie going to the even one, then clamp to 0..255. *)
Definition toUint8Clamp (x : Q) : Z :=
  let f := Qfloor x in
  let d := (x - inject_Z f)%Q in
  let n := if Qlt_bool d (1 # 2) then f
           else if Qlt_bool (1 # 2) d then f + 1
           else if Z.even f then f else f + 1 in
  Z.max 0 (Z.min 255 n).

Definition clamp01 (x : Q) : Q := Math_max 0 (Math_min 1 x).

(** [Array.prototype.sort] with a comparator.  The sort is stable, so for
    a comparator that is a consistent ordering its result is the one of
    this insertion sort: each element goes in front of the first element
    it compares strictly below. *)
Fixpoint insert_sorted {A} (cmp : A -> A -> Q) (a : A) (l : list A) : list A :=
  match l with
  | [] => [a]
  | b :: l' => if Qlt_bool (cmp a b) 0 then a :: b :: l' else b :: insert_sorted cmp a l'
  end.

Definition Array_sort {A} (cmp : A -> A -> Q) (l : list A) : list A :=
  fold_left (fun acc a => insert_sorted cmp a acc) l [].

(** [Array.prototype.findIndex]; [None] stands for -1. *)
Fixpoint findIndex {A} (f : A -> bool) (l : list A) : option nat :=
  match l with
  | [] => None
  | a :: l' => if f a then Some 0%nat else option_map S (findIndex f l')
  end.

(** An optional property of an object: the key is missing, or it is
    there with a value that may be [undefined]. *)
Inductive optional (A : Type) := absent | present (v : option A).
Arguments absent {A}.
Arguments present {A} v.

(** Reading the property. *)
Definition read {A} (o : optional A) : option A :=
  match o with absent => None | present v => v end.

(** One optional property of [{...a, ...b}]. *)
Definition spread {A} (a b : optional A) : optional A :=
  match b with absent => a | present _ => b end.

(** One RGBA pixel of [getImageData(...).data]. *)
Record Pixel := { red : Z; green : Z; blue : Z; alpha : Z }.

(** [r * 0.2126 + g * 0.7152 + b * 0.0722]. *)
Definition luma (p : Pixel) : Q :=
  (inject_Z (red p) * 0.2126 + inject_Z (green p) * 0.7152
   + inject_Z (blue p) * 0.0722)%Q.

End JS.

(* ===================================================================== *)
(** * src/types.ts and src/lib/severity.ts                                 *)
(* ===================================================================== *)

Module Types.

Inductive Severity := none | watch | risk | critical.
Inductive IncidentType := FALL | INACTIVITY.

#[global] Instance Severity_eq_dec : EqDecision Severity.
Proof. solve_decision. Defined.
#[global] Instance IncidentType_eq_dec : EqDecision IncidentType.
Proof. solve_decision. Defined.

Record Camera := { cam_id : string; cam_name : string; streamUrl : option string }.

Definition severityRank (s : Severity) : Z :=
  match s with
  | critical => 3
  | risk => 2
  | watch => 1
  | none => 0
  end.

End Types.

(* ===================================================================== *)
(** * src/lib/videoProbe.ts                                                *)
(* ===================================================================== *)

Module VideoProbe.

Inductive StreamHealthState := ok | buffering | frozen | black | error.

#[global] Instance StreamHealthState_eq_dec : EqDecision StreamHealthState.
Proof. solve_decision. Defined.

(** What a callback reads off the video element.  [currentTime] and
    [duration] are [None] when the element reports a value that is not a
    finite number, which is what [safeNum] turns into [null]. *)
Record Video := {
  src : string;
  currentSrc : string;
  networkState : Z;
  readyState : Z;
  paused : bool;
  ended : bool;
  currentTime : option Q;
  duration : option Q;
}.

Definition safeNum (v : option Q) : option Q := v.

(** The [details] object: the snapshot, plus [ratio] on black frames and
    the error code and text on media errors. *)
Record Details := {
  snapshot : Video;
  ratio : option Q;
  mediaErrorCode : option (option Z);
  mediaErrorTextOf : option string;
}.

Record StreamHealth := {
  state : StreamHealthState;
  sinceMs : Z;
  reason : string;
  details : option Details;
}.

(** Every field optional, as in the source; [frozenSeconds] and
    [blackConsecutive] are whole numbers. *)
Record VideoProbeOptions := {
  frozenSeconds : option Z;
  enablePixelProbe : option bool;
  sampleEveryMs : option Z;
  blackLumaThreshold : option Q;
  blackRatioThreshold : option Q;
  blackConsecutive : option Z;
  debug : option bool;
  tag : option string;
}.

Definition no_options : VideoProbeOptions :=
  {| frozenSeconds := None; enablePixelProbe := None; sampleEveryMs := None;
     blackLumaThreshold := None; blackRatioThreshold := None;
     blackConsecutive := None; debug := None; tag := None |}.

Definition mediaErrorText (code : option Z) : string :=
  match default 0 code with
  | 1 => "ABORTED"
  | 2 => "NETWORK"
  | 3 => "DECODE"
  | 4 => "SRC_NOT_SUPPORTED"
  | _ => "UNKNOWN"
  end.

(** The closure of one attachment. *)
Record Probe := {
  (* destructured options *)
  o_frozenSeconds : Z;
  o_enablePixelProbe : bool;
  o_sampleEveryMs : Z;
  o_blackLumaThreshold : Q;
  o_blackRatioThreshold : Q;
  o_blackConsecutive : Z;
  (* canvas.getContext("2d") returned a context *)
  ctx : bool;
  (* mutable variables *)
  disposed : bool;
  health : StreamHealth;
  lastTime : Q;
  lastProgressAt : Z;
  blackStreak : Z;
  pixelDisabled : bool;
  (* registrations held by the browser *)
  listeners : bool;
  frozenTick_timer : bool;
  pixelTick_timer : bool;
}.

Definition set_health (h : StreamHealth) (p : Probe) : Probe :=
  {| o_frozenSeconds := o_frozenSeconds p; o_enablePixelProbe := o_enablePixelProbe p;
     o_sampleEveryMs := o_sampleEveryMs p; o_blackLumaThreshold := o_blackLumaThreshold p;
     o_blackRatioThreshold := o_blackRatioThreshold p;
     o_blackConsecutive := o_blackConsecutive p; ctx := ctx p;
     disposed := disposed p; health := h; lastTime := lastTime p;
     lastProgressAt := lastProgressAt p; blackStreak := blackStreak p;
     pixelDisabled := pixelDisabled p; listeners := listeners p;
     frozenTick_timer := frozenTick_timer p; pixelTick_timer := pixelTick_timer p |}.

Definition set_progress (t : Q) (now : Z) (p : Probe) : Probe :=
  {| o_frozenSeconds := o_frozenSeconds p; o_enablePixelProbe := o_enablePixelProbe p;
     o_sampleEveryMs := o_sampleEveryMs p; o_blackLumaThreshold := o_blackLumaThreshold p;
     o_blackRatioThreshold := o_blackRatioThreshold p;
     o_blackConsecutive := o_blackConsecutive p; ctx := ctx p;
     disposed := disposed p; health := health p; lastTime := t;
     lastProgressAt := now; blackStreak := blackStreak p;
     pixelDisabled := pixelDisabled p; listeners := listeners p;
     frozenTick_timer := frozenTick_timer p; pixelTick_timer := pixelTick_timer p |}.

Definition set_blackStreak (n : Z) (p : Probe) : Probe :=
  {| o_frozenSeconds := o_frozenSeconds p; o_enablePixelProbe := o_enablePixelProbe p;
     o_sampleEveryMs := o_sampleEveryMs p; o_blackLumaThreshold := o_blackLumaThreshold p;
     o_blackRatioThreshold := o_blackRatioThreshold p;
     o_blackConsecutive := o_blackConsecutive p; ctx := ctx p;
     disposed := disposed p; health := health p; lastTime := lastTime p;
     lastProgressAt := lastProgressAt p; blackStreak := n;
     pixelDisabled := pixelDisabled p; listeners := listeners p;
     frozenTick_timer := frozenTick_timer p; pixelTick_timer := pixelTick_timer p |}.

Definition set_pixelDisabled (b : bool) (p : Probe) : Probe :=
  {| o_frozenSeconds := o_frozenSeconds p; o_enablePixelProbe := o_enablePixelProbe p;
     o_sampleEveryMs := o_sampleEveryMs p; o_blackLumaThreshold := o_blackLumaThreshold p;
     o_blackRatioThreshold := o_blackRatioThreshold p;
     o_blackConsecutive := o_blackConsecutive p; ctx := ctx p;
     disposed := disposed p; health := health p; lastTime := lastTime p;
     lastProgressAt := lastProgressAt p; blackStreak := blackStreak p;
     pixelDisabled := b; listeners := listeners p;
     frozenTick_timer := frozenTick_timer p; pixelTick_timer := pixelTick_timer p |}.

Definition snapshotDetails (v : Video) : Details :=
  {| snapshot := v; ratio := None; mediaErrorCode := None; mediaErrorTextOf := None |}.

Definition ratioDetails (r : Q) (v : Video) : Details :=
  {| snapshot := v; ratio := Some r; mediaErrorCode := None; mediaErrorTextOf := None |}.

(** [emit]: nothing once disposed, nothing when state and reason are the
    ones already held; otherwise store the reading and call [onHealth]. *)
Definition emit (next : StreamHealth) (p : Probe) : Probe * list StreamHealth :=
  if disposed p then (p, [])
  else if bool_decide (state next = state (health p))
          && String.eqb (reason next) (reason (health p))
  then (p, [])
  else (set_health next p, [next]).

Definition onWaiting (now : Z) (v : Video) : Probe -> Probe * list StreamHealth :=
  emit {| state := buffering; sinceMs := now; reason := "waiting";
          details := Some (snapshotDetails v) |}.
Definition onStalled (now : Z) (v : Video) : Probe -> Probe * list StreamHealth :=
  emit {| state := buffering; sinceMs := now; reason := "stalled";
          details := Some (snapshotDetails v) |}.
Definition onPlaying (now : Z) (v : Video) : Probe -> Probe * list StreamHealth :=
  emit {| state := ok; sinceMs := now; reason := "playing";
          details := Some (snapshotDetails v) |}.
Definition onCanPlay (now : Z) (v : Video) : Probe -> Probe * list StreamHealth :=
  emit {| state := ok; sinceMs := now; reason := "canplay";
          details := Some (snapshotDetails v) |}.

(** [code] is [video.error?.code ?? null]. *)
Definition onError (code : option Z) (now : Z) (v : Video)
  : Probe -> Probe * list StreamHealth :=
  emit {| state := error; sinceMs := now;
          reason := "media_" +:+ mediaErrorText code;
          details := Some {| snapshot := v; ratio := None;
                             mediaErrorCode := Some code;
                             mediaErrorTextOf := Some (mediaErrorText code) |} |}.

(** The 400 ms watchdog. *)
Definition frozenTick (now : Z) (v : Video) (p : Probe) : Probe * list StreamHealth :=
  if disposed p then (p, [])
  else if paused v || ended v then (p, [])
  else match safeNum (currentTime v) with
       | None => (p, [])
       | Some t =>
           if negb (Qeq_bool t (lastTime p)) then
             let p1 := set_progress t now p in
             if bool_decide (state (health p1) = frozen)
             then emit {| state := ok; sinceMs := now; reason := "time_progress";
                          details := Some (snapshotDetails v) |} p1
             else (p1, [])
           else
             let elapsed := now - lastProgressAt p in
             if o_frozenSeconds p * 1000 <=? elapsed
             then emit {| state := frozen; sinceMs := now;
                          reason := "no_time_progress_"
                                      +:+ JS.show_Z (o_frozenSeconds p) +:+ "s";
                          details := Some (snapshotDetails v) |} p
             else (p, [])
       end.

Definition w : Z := 96.
Definition h : Z := 54.

(** The counting loop over the image data. *)
Definition blackCount (thr : Q) (img : list JS.Pixel) : Z :=
  fold_left (fun n px => if Qle_bool (JS.luma px) thr then n + 1 else n) img 0.

Definition blackRatio (thr : Q) (img : list JS.Pixel) : Q :=
  (inject_Z (blackCount thr img) / inject_Z (w * h))%Q.

(** The pixel sampler.  [frame] is what [drawImage] and [getImageData]
    give; [None] when the read throws. *)
Definition pixelTick (frame : option (list JS.Pixel)) (now : Z) (v : Video) (p : Probe)
  : Probe * list StreamHealth :=
  if disposed p then (p, [])
  else if negb (o_enablePixelProbe p) then (p, [])
  else if pixelDisabled p then (p, [])
  else if negb (ctx p) then (p, [])
  else if negb (bool_decide (state (health p) = ok)) then (p, [])
  else match frame with
       | None => (set_pixelDisabled true p, [])
       | Some img =>
           let r := blackRatio (o_blackLumaThreshold p) img in
           let '(p1, out1) :=
             if Qle_bool (o_blackRatioThreshold p) r
             then (set_blackStreak (blackStreak p + 1) p, [])
             else
               let p0 := set_blackStreak 0 p in
               if bool_decide (state (health p0) = black)
               then emit {| state := ok; sinceMs := now; reason := "black_recovered";
                            details := Some (ratioDetails r v) |} p0
               else (p0, []) in
           let '(p2, out2) :=
             if o_blackConsecutive p1 <=? blackStreak p1
             then emit {| state := black; sinceMs := now;
                          reason := "black_ratio_" +:+ JS.toFixed2 r;
                          details := Some (ratioDetails r v) |} p1
             else (p1, []) in
           (p2, out1 ++ out2)
       end.

(** [attachVideoProbe], up to its [return]: the closure once the
    listeners and both intervals are registered and the first [emit] has
    run, with what that [emit] delivered. *)
Definition attachVideoProbe (v : Video) (now : Z) (has_ctx : bool)
    (opts : VideoProbeOptions) : Probe * list StreamHealth :=
  let p0 :=
    {| o_frozenSeconds := default 8 (frozenSeconds opts);
       o_enablePixelProbe := default false (enablePixelProbe opts);
       o_sampleEveryMs := default 800 (sampleEveryMs opts);
       o_blackLumaThreshold := default 18%Q (blackLumaThreshold opts);
       o_blackRatioThreshold := default 0.92%Q (blackRatioThreshold opts);
       o_blackConsecutive := default 2 (blackConsecutive opts);
       ctx := has_ctx;
       disposed := false;
       health := {| state := ok; sinceMs := now; reason := "init"; details := None |};
       lastTime := default 0%Q (safeNum (currentTime v));
       lastProgressAt := now;
       blackStreak := 0;
       pixelDisabled := false;
       listeners := true;
       frozenTick_timer := true;
       pixelTick_timer := true |} in
  emit {| state := ok; sinceMs := now; reason := "attached";
          details := Some (snapshotDetails v) |} p0.

(** The returned detach handle. *)
Definition detach (p : Probe) : Probe :=
  {| o_frozenSeconds := o_frozenSeconds p; o_enablePixelProbe := o_enablePixelProbe p;
     o_sampleEveryMs := o_sampleEveryMs p; o_blackLumaThreshold := o_blackLumaThreshold p;
     o_blackRatioThreshold := o_blackRatioThreshold p;
     o_blackConsecutive := o_blackConsecutive p; ctx := ctx p;
     disposed := true; health := health p; lastTime := lastTime p;
     lastProgressAt := lastProgressAt p; blackStreak := blackStreak p;
     pixelDisabled := pixelDisabled p; listeners := false;
     frozenTick_timer := false; pixelTick_timer := false |}.

(** What can happen to an attachment: a media event on the element, one
    of the two intervals coming due, or the consumer calling detach. *)
Inductive Signal :=
| Waiting
| Stalled
| Playing
| CanPlay
| MediaError (code : option Z)
| FrozenTimer
| PixelTimer (frame : option (list JS.Pixel))
| Detach.

(** A signal together with the clock and the element at that moment. *)
Record Occurrence := { signal : Signal; at_ms : Z; video : Video }.

(** The browser side: a listener runs only while registered, an
    interval callback only while the interval is not cleared. *)
Definition dispatch (o : Occurrence) (p : Probe) : Probe * list StreamHealth :=
  match signal o with
  | Waiting => if listeners p then onWaiting (at_ms o) (video o) p else (p, [])
  | Stalled => if listeners p then onStalled (at_ms o) (video o) p else (p, [])
  | Playing => if listeners p then onPlaying (at_ms o) (video o) p else (p, [])
  | CanPlay => if listeners p then onCanPlay (at_ms o) (video o) p else (p, [])
  | MediaError c => if listeners p then onError c (at_ms o) (video o) p else (p, [])
  | FrozenTimer => if frozenTick_timer p then frozenTick (at_ms o) (video o) p else (p, [])
  | PixelTimer f => if pixelTick_timer p then pixelTick f (at_ms o) (video o) p else (p, [])
  | Detach => (detach p, [])
  end.

(** A whole history, with everything delivered along it. *)
Fixpoint run (os : list Occurrence) (p : Probe) : Probe * list StreamHealth :=
  match os with
  | [] => (p, [])
  | o :: rest =>
      let '(p1, out1) := dispatch o p in
      let '(p2, out2) := run rest p1 in
      (p2, out1 ++ out2)
  end.

End VideoProbe.

(* ===================================================================== *)
(** * src/lib/sceneProbe.ts                                                *)
(* ===================================================================== *)

Module SceneProbe.

Inductive PeopleBand := unknown | none | few | crowd.

#[global] Instance PeopleBand_eq_dec : EqDecision PeopleBand.
Proof. solve_decision. Defined.

Record SceneProbeResult := {
  peopleBand : PeopleBand;
  motion : Q;
  pixelsOk : bool;
}.

(** The grid dimensions are counts of cells, at least one each way. *)
Record SceneProbeOptions := {
  sampleEveryMs : option Z;
  motionThreshold : option Q;
  gridX : option positive;
  gridY : option positive;
  presenceMin : option Q;
  crowdMinCells : option Q;
}.

Definition no_options : SceneProbeOptions :=
  {| sampleEveryMs := None; motionThreshold := None; gridX := None;
     gridY := None; presenceMin := None; crowdMinCells := None |}.

Definition clamp (n a b : Q) : Q := JS.Math_max a (JS.Math_min b n).

(** The closure of one attachment. *)
Record Probe := {
  o_sampleEveryMs : Z;
  o_motionThreshold : Q;
  o_gridX : Z;
  o_gridY : Z;
  o_presenceMin : Q;
  o_crowdMinCells : Q;
  ctx : bool;
  last : option (list Z);
  pixelsOk_var : bool;
  (* the interval is registered *)
  timer : bool;
}.

Definition set_last (g : list Z) (p : Probe) : Probe :=
  {| o_sampleEveryMs := o_sampleEveryMs p; o_motionThreshold := o_motionThreshold p;
     o_gridX := o_gridX p; o_gridY := o_gridY p; o_presenceMin := o_presenceMin p;
     o_crowdMinCells := o_crowdMinCells p; ctx := ctx p; last := Some g;
     pixelsOk_var := pixelsOk_var p; timer := timer p |}.

(** The [catch] block: [pixelsOk = false] and [clearInterval(timer)]. *)
Definition stop_sampling (p : Probe) : Probe :=
  {| o_sampleEveryMs := o_sampleEveryMs p; o_motionThreshold := o_motionThreshold p;
     o_gridX := o_gridX p; o_gridY := o_gridY p; o_presenceMin := o_presenceMin p;
     o_crowdMinCells := o_crowdMinCells p; ctx := ctx p; last := last p;
     pixelsOk_var := false; timer := false |}.

Definition emitUnknown (m : Q) : SceneProbeResult :=
  {| peopleBand := unknown; motion := m; pixelsOk := false |}.

Definition w : Z := 96.
Definition h : Z := 54.
Definition total : Z := w * h.

(** The greyscale buffer: [w * h] clamped bytes, zero where the image
    data gives no pixel. *)
Definition grayscale (data : list JS.Pixel) : list Z :=
  resize (Z.to_nat total) 0 (map (fun px => JS.toUint8Clamp (JS.luma px)) data).

(** [buf[idx]] inside the buffer. *)
Definition at_index (buf : list Z) (idx : Z) : Z :=
  default 0 (buf !! Z.to_nat idx).

(** [Math.min(grid - 1, Math.floor(v / cell))] for whole numbers: a zero
    [cell] makes the quotient infinite, or not a number at [v = 0]
    ([None]). *)
Definition cellCoord (grid cell v : Z) : option Z :=
  if cell =? 0 then (if v =? 0 then None else Some (grid - 1))
  else Some (Z.min (grid - 1) (v / cell)).

Record Tally := { changed : Z; sumDiff : Z; cells : list Z }.

(** The body of the two nested loops at pixel [(x, y)]. *)
Definition visit (p : Probe) (gray lst : list Z) (cellW cellH : Z) (y x : Z)
    (a : Tally) : Tally :=
  let idx := y * w + x in
  let d := Z.abs (at_index gray idx - at_index lst idx) in
  if JS.Qlt_bool (o_motionThreshold p) (inject_Z d) then
    {| changed := changed a + 1;
       sumDiff := sumDiff a + d;
       cells :=
         match cellCoord (o_gridX p) cellW x, cellCoord (o_gridY p) cellH y with
         | Some cx, Some cy =>
             alter Z.succ (Z.to_nat (cy * o_gridX p + cx)) (cells a)
         | _, _ => cells a
         end |}
  else a.

Definition scan (p : Probe) (gray lst : list Z) (cellW cellH : Z) : Tally :=
  fold_left
    (fun a y => fold_left (fun a x => visit p gray lst cellW cellH y x a) (seqZ 0 w) a)
    (seqZ 0 h)
    {| changed := 0; sumDiff := 0;
       cells := replicate (Z.to_nat (o_gridX p * o_gridY p)) 0 |}.

Definition cellThreshold (cellW cellH : Z) : Z :=
  Z.max 5 (Qfloor (inject_Z (cellW * cellH) * 0.02)).

Definition activeCells (thr : Z) (cs : list Z) : Z :=
  Z.of_nat (length (List.filter (fun c => thr <? c) cs)).

(** The final three-way choice. *)
Definition classify (p : Probe) (presence : Q) (active : Z) : PeopleBand :=
  if JS.Qlt_bool presence (o_presenceMin p) then none
  else if Qle_bool (o_crowdMinCells p) (inject_Z active) then crowd
  else few.

(** What one sample of a readable frame reports against the previous
    greyscale buffer. *)
Definition compare_frames (p : Probe) (gray lst : list Z) : SceneProbeResult :=
  let cellW := w / o_gridX p in
  let cellH := h / o_gridY p in
  let t := scan p gray lst cellW cellH in
  let motion := clamp (inject_Z (sumDiff t) / inject_Z (total * 255)) 0 1 in
  let presence := (inject_Z (changed t) / inject_Z total)%Q in
  let active := activeCells (cellThreshold cellW cellH) (cells t) in
  {| peopleBand := classify p presence active; motion := motion; pixelsOk := true |}.

(** What the interval callback sees: the element, and the image data,
    [None] when drawing or reading throws. *)
Record Sample := {
  readyState : Z;
  videoWidth : Z;
  videoHeight : Z;
  frame : option (list JS.Pixel);
}.

Definition tick (s : Sample) (p : Probe) : Probe * list SceneProbeResult :=
  if negb (ctx p) then (p, [])
  else if readyState s <? 2 then (p, [])
  else if (videoWidth s =? 0) || (videoHeight s =? 0) then (p, [])
  else match frame s with
       | None => (stop_sampling p, [emitUnknown 0])
       | Some data =>
           let gray := grayscale data in
           match last p with
           | None =>
               (set_last gray p,
                [{| peopleBand := unknown; motion := 0; pixelsOk := true |}])
           | Some lst => (set_last gray p, [compare_frames p gray lst])
           end
       end.

Definition attachSceneProbe (has_ctx : bool) (opts : SceneProbeOptions) : Probe :=
  {| o_sampleEveryMs := default 900 (sampleEveryMs opts);
     o_motionThreshold := default 28%Q (motionThreshold opts);
     o_gridX := Z.pos (default 6%positive (gridX opts));
     o_gridY := Z.pos (default 4%positive (gridY opts));
     o_presenceMin := default 0.004%Q (presenceMin opts);
     o_crowdMinCells := default 7%Q (crowdMinCells opts);
     ctx := has_ctx;
     last := None;
     pixelsOk_var := true;
     timer := true |}.

(** The returned detach handle: [clearInterval(timer)]. *)
Definition detach (p : Probe) : Probe :=
  {| o_sampleEveryMs := o_sampleEveryMs p; o_motionThreshold := o_motionThreshold p;
     o_gridX := o_gridX p; o_gridY := o_gridY p; o_presenceMin := o_presenceMin p;
     o_crowdMinCells := o_crowdMinCells p; ctx := ctx p; last := last p;
     pixelsOk_var := pixelsOk_var p; timer := false |}.

Inductive Signal := Interval (s : Sample) | Detach.

(** The interval callback runs only while the interval is registered. *)
Definition dispatch (sg : Signal) (p : Probe) : Probe * list SceneProbeResult :=
  match sg with
  | Interval s => if timer p then tick s p else (p, [])
  | Detach => (detach p, [])
  end.

Fixpoint run (sgs : list Signal) (p : Probe) : Probe * list SceneProbeResult :=
  match sgs with
  | [] => (p, [])
  | sg :: rest =>
      let '(p1, out1) := dispatch sg p in
      let '(p2, out2) := run rest p1 in
      (p2, out1 ++ out2)
  end.

End SceneProbe.

(* ===================================================================== *)
(** * The person detector's output, as both AI ticks consume it            *)
(* ===================================================================== *)

Module Coco.

(** One detection of [model.detect]: [bbox] is [[x, y, width, height]]. *)
Record Detection := {
  class : string;
  score : option Q;
  bbox : Q * Q * Q * Q;
}.

Record Box := { x : Q; y : Q; w : Q; h : Q; box_score : Q }.

Definition area (b : Box) : Q := (w b * h b)%Q.

(** [detections.filter(person with score >= minScore).map(box)], then
    [people.sort((a, b) => b.w * b.h - a.w * a.h)]: the expression is the
    same in aiProbe.ts and in VideoTile.tsx. *)
Definition people (minScore : Q) (detections : list Detection) : list Box :=
  JS.Array_sort (fun a b => (area b - area a)%Q)
    (map (fun d => let '(bx, by_, bw, bh) := bbox d in
                   {| x := bx; y := by_; w := bw; h := bh;
                      box_score := default 0%Q (score d) |})
         (List.filter (fun d => String.eqb (class d) "person"
                                && Qle_bool minScore (default 0%Q (score d)))
                      detections)).

Definition centerY (p : Box) : Q := (y p + h p / 2)%Q.
Definition aspect (p : Box) : Q := (h p / JS.Math_max 1 (w p))%Q.

End Coco.

(* ===================================================================== *)
(** * src/lib/aiProbe.ts                                                   *)
(* ===================================================================== *)

Module AIProbe.

Inductive AIFallState := none | risk | critical.

#[global] Instance AIFallState_eq_dec : EqDecision AIFallState.
Proof. solve_decision. Defined.

Record Fall := { state : AIFallState; confidence : Q; reasons : list string }.

Record AIProbeResult := {
  personCount : Z;
  peopleBoxes : list Coco.Box;
  fall : Fall;
  ts : Z;
  ready : bool;
}.

Record AIProbeOptions := {
  everyMs : option Z;
  minScore : option Q;
  enableFall : option bool;
  debug : option bool;
  tag : option string;
}.

Definition no_options : AIProbeOptions :=
  {| everyMs := None; minScore := None; enableFall := None;
     debug := None; tag := None |}.

(** The five tracking variables of the closure. *)
Record Track := {
  lastCenterY : option Q;
  lastTs : option Z;
  lastAspect : option Q;
  postDropStillStart : option Z;
  cooldownUntil : Z;
}.

(** Where the asynchronous [tick] stands: not running, or suspended at
    [await model.detect(canvas)] with the frame height it read. *)
Inductive Phase := Idle | InFlight (vh : Z).

Record Probe := {
  o_everyMs : Z;
  o_minScore : Q;
  o_enableFall : bool;
  ctx : bool;
  disposed : bool;
  track : Track;
  phase : Phase;
  (* a [setTimeout(tick, everyMs)] is pending *)
  pending : bool;
}.

Definition update (tr : Track) (ph : Phase) (pd : bool) (p : Probe) : Probe :=
  {| o_everyMs := o_everyMs p; o_minScore := o_minScore p;
     o_enableFall := o_enableFall p; ctx := ctx p; disposed := disposed p;
     track := tr; phase := ph; pending := pd |}.

Definition dyNorm (vh : Z) (cy lcy : Q) : Q := ((cy - lcy) / inject_Z vh)%Q.
Definition drop (dn : Q) (dt : Z) : bool := JS.Qlt_bool 0.12 dn && (dt <? 1200).
Definition postureFlip (la : option Q) (asp : Q) : bool :=
  match la with
  | Some a => JS.Qlt_bool 1.05 a && JS.Qlt_bool asp 0.95
  | None => false
  end.
Definition littleMotion (dn : Q) : bool := JS.Qlt_bool (Qabs dn) 0.01.

Definition stillReason (stillAge : Z) : string :=
  "still:" +:+ JS.show_Z (JS.Math_round (inject_Z stillAge / 1000)) +:+ "s".

(** The body of [if (enableFall && people.length > 0 && now >= cooldownUntil)]
    for the largest box [p]. *)
Definition fallHeuristic (now vh : Z) (p : Coco.Box) (t : Track) : Track * Fall :=
  let cy := Coco.centerY p in
  let asp := Coco.aspect p in
  let '(fl, still, cool) :=
    match lastCenterY t, lastTs t with
    | Some lcy, Some lts =>
        let dt := Z.max 1 (now - lts) in
        let dn := dyNorm vh cy lcy in
        let dr := drop dn dt in
        let pf := postureFlip (lastAspect t) asp in
        let rs := (if dr then ["drop:" +:+ JS.toFixed2 dn] else [])
                    ++ (if pf then ["posture_flip"] else []) in
        if dr || pf then
          ({| state := risk;
              confidence := JS.clamp01 (0.65 + dn * 1.8 + (if pf then 0.15 else 0));
              reasons := rs |},
           Some now, cooldownUntil t)
        else
          match postDropStillStart t with
          | Some s0 =>
              let stillAge := now - s0 in
              if littleMotion dn && (900 <? stillAge) then
                ({| state := critical;
                    confidence :=
                      JS.clamp01 (0.78 + (inject_Z stillAge / 3000) * 0.2
                                  + (if JS.Qlt_bool asp 0.9 then 0.08 else 0));
                    reasons := rs ++ [stillReason stillAge] |},
                 None, now + 12000)
              else if 4000 <? stillAge then
                ({| state := none; confidence := 0; reasons := rs |},
                 None, cooldownUntil t)
              else
                ({| state := none; confidence := 0; reasons := rs |},
                 Some s0, cooldownUntil t)
          | None =>
              ({| state := none; confidence := 0; reasons := rs |},
               None, cooldownUntil t)
          end
    | _, _ =>
        ({| state := none; confidence := 0; reasons := [] |},
         postDropStillStart t, cooldownUntil t)
    end in
  ({| lastCenterY := Some cy; lastTs := Some now; lastAspect := Some asp;
      postDropStillStart := still; cooldownUntil := cool |}, fl).

(** What the timer callback sees at its start. *)
Record Frame := {
  videoWidth : Z;
  videoHeight : Z;
  (* [Some message] when [ctx.drawImage] throws *)
  drawImage_error : option string;
}.

Definition error_result (now : Z) (msg : string) : AIProbeResult :=
  {| personCount := 0; peopleBoxes := [];
     fall := {| state := none; confidence := 0; reasons := ["ai_error"; msg] |};
     ts := now; ready := true |}.

(** [tick] from its start to the first [await]. *)
Definition tick_begin (f : Frame) (now : Z) (p : Probe) : Probe * list AIProbeResult :=
  if disposed p then (update (track p) Idle false p, [])
  else if (videoWidth f =? 0) || (videoHeight f =? 0) || negb (ctx p) then
    (update (track p) Idle true p,
     [{| personCount := 0; peopleBoxes := [];
         fall := {| state := none; confidence := 0; reasons := ["video_not_ready"] |};
         ts := now; ready := false |}])
  else match drawImage_error f with
       | Some msg => (update (track p) Idle true p, [error_result now msg])
       | None => (update (track p) (InFlight (videoHeight f)) false p, [])
       end.

(** How [model.detect] settles. *)
Inductive Outcome := Detected (ds : list Coco.Detection) | Threw (msg : string).

(** [tick] from the [await] to its end. *)
Definition tick_resume (o : Outcome) (now : Z) (p : Probe) : Probe * list AIProbeResult :=
  match phase p with
  | Idle => (p, [])
  | InFlight vh =>
      match o with
      | Threw msg => (update (track p) Idle true p, [error_result now msg])
      | Detected ds =>
          let ppl := Coco.people (o_minScore p) ds in
          let '(tr, fl) :=
            match ppl with
            | p0 :: _ =>
                if o_enableFall p && (cooldownUntil (track p) <=? now)
                then fallHeuristic now vh p0 (track p)
                else (track p, {| state := none; confidence := 0; reasons := [] |})
            | [] => (track p, {| state := none; confidence := 0; reasons := [] |})
            end in
          (update tr Idle true p,
           [{| personCount := Z.of_nat (length ppl); peopleBoxes := ppl;
               fall := fl; ts := now; ready := true |}])
      end
  end.

(** [attachAIProbe] once the model is loaded, up to the call [tick()]. *)
Definition attachAIProbe (has_ctx : bool) (opts : AIProbeOptions) : Probe :=
  {| o_everyMs := default 650 (everyMs opts);
     o_minScore := default 0.45%Q (minScore opts);
     o_enableFall := default true (enableFall opts);
     ctx := has_ctx;
     disposed := false;
     track := {| lastCenterY := None; lastTs := None; lastAspect := None;
                 postDropStillStart := None; cooldownUntil := 0 |};
     phase := Idle;
     pending := true |}.

(** The returned handle only sets [disposed]. *)
Definition detach (p : Probe) : Probe :=
  {| o_everyMs := o_everyMs p; o_minScore := o_minScore p;
     o_enableFall := o_enableFall p; ctx := ctx p; disposed := true;
     track := track p; phase := phase p; pending := pending p |}.

Inductive Signal :=
| TimerFires (f : Frame) (now : Z)
| DetectSettles (o : Outcome) (now : Z)
| Detach.

(** The first [tick()] is the call at the end of [attachAIProbe]; it and
    every timer callback run only when one is due, and the awaited
    detection settles only while one is in flight. *)
Definition dispatch (sg : Signal) (p : Probe) : Probe * list AIProbeResult :=
  match sg with
  | TimerFires f now =>
      match phase p with
      | Idle => if pending p then tick_begin f now p else (p, [])
      | InFlight _ => (p, [])
      end
  | DetectSettles o now => tick_resume o now p
  | Detach => (detach p, [])
  end.

Fixpoint run (sgs : list Signal) (p : Probe) : Probe * list AIProbeResult :=
  match sgs with
  | [] => (p, [])
  | sg :: rest =>
      let '(p1, out1) := dispatch sg p in
      let '(p2, out2) := run rest p1 in
      (p2, out1 ++ out2)
  end.

End AIProbe.

(* ===================================================================== *)
(** * src/components/VideoTile.tsx: the AI effect and the shared slot      *)
(* ===================================================================== *)

Module VideoTile.

Inductive AIFallState := none | risk | critical.

#[global] Instance AIFallState_eq_dec : EqDecision AIFallState.
Proof. solve_decision. Defined.

Record Fall := { state : AIFallState; confidence : Q; reasons : list string }.

Record AIState := {
  ready : bool;
  personCount : Z;
  band : SceneProbe.PeopleBand;
  fall : Fall;
  motion : Q;
  ts : Z;
}.

Definition countToBand (count : Z) : SceneProbe.PeopleBand :=
  if count <=? 0 then SceneProbe.none
  else if count <=? 3 then SceneProbe.few
  else SceneProbe.crowd.

(** The argument of a [setAi] call: an updater that only clears [ready],
    one that also stamps the time, or a state that replaces every field. *)
Inductive AiUpdate := ClearReady | NotReady (now : Z) | Put (a : AIState).

Definition apply_update (u : AiUpdate) (prev : AIState) : AIState :=
  match u with
  | ClearReady =>
      {| ready := false; personCount := personCount prev; band := band prev;
         fall := fall prev; motion := motion prev; ts := ts prev |}
  | NotReady now =>
      {| ready := false; personCount := personCount prev; band := band prev;
         fall := fall prev; motion := motion prev; ts := now |}
  | Put a => a
  end.

(** A call the tick makes on the component's state setters. *)
Inductive Call := SetAi (u : AiUpdate) | SetScene (r : SceneProbe.SceneProbeResult).

(** The tracking variables of the effect's closure. *)
Record Track := {
  lastCenterY : option Q;
  lastAspect : option Q;
  lastTs : option Z;
  postDropStillStart : option Z;
  cooldownUntil : Z;
  emaMotion : Q;
}.

Definition dyNorm (outH : Z) (cy lcy : Q) : Q :=
  ((cy - lcy) / inject_Z (Z.max 1 outH))%Q.
Definition motionOf (dn : Q) : Q := JS.Math_min 1 (Qabs dn * 3).
Definition emaNext (ema m : Q) : Q :=
  JS.Math_max 0.004 (JS.Math_min 0.25 (ema * 0.92 + m * 0.08)).
Definition drop (dn : Q) (dt : Z) : bool := JS.Qlt_bool 0.12 dn && (dt <? 1400).
Definition postureFlip (la : option Q) (asp : Q) : bool :=
  match la with
  | Some a => JS.Qlt_bool 1.05 a && JS.Qlt_bool asp 0.95
  | None => false
  end.
Definition littleMotion (dn ema : Q) : bool :=
  JS.Qlt_bool (Qabs dn) (JS.Math_min 0.012 (ema * 0.9)).

Definition stillReason (stillAge : Z) : string :=
  "still:" +:+ JS.show_Z (JS.Math_round (inject_Z stillAge / 1000)) +:+ "s".

(** The branch [count > 0] for the largest box [p]: the new tracking
    variables, the fall reading and the motion of this sample. *)
Definition trackPerson (now outH : Z) (p : Coco.Box) (t : Track) : Track * Fall * Q :=
  let cy := Coco.centerY p in
  let asp := Coco.aspect p in
  let '(fl, m, ema, still, cool) :=
    match lastCenterY t, lastTs t with
    | Some lcy, Some lts =>
        let dt := Z.max 1 (now - lts) in
        let dn := dyNorm outH cy lcy in
        let m := motionOf dn in
        let ema := emaNext (emaMotion t) m in
        let dr := drop dn dt in
        let pf := postureFlip (lastAspect t) asp in
        let rs := (if dr then ["drop:" +:+ JS.toFixed2 dn] else [])
                    ++ (if pf then ["posture_flip"] else []) in
        if dr || pf then
          ({| state := risk;
              confidence := JS.clamp01 (0.62 + dn * 1.8 + (if pf then 0.18 else 0));
              reasons := rs |},
           m, ema, Some now, cooldownUntil t)
        else
          match postDropStillStart t with
          | Some s0 =>
              let stillAge := now - s0 in
              if littleMotion dn ema && (900 <? stillAge) then
                ({| state := critical;
                    confidence :=
                      JS.clamp01 (0.78 + (inject_Z stillAge / 3200) * 0.18
                                  + (if JS.Qlt_bool asp 0.9 then 0.08 else 0));
                    reasons := rs ++ [stillReason stillAge] |},
                 m, ema, None, now + 12000)
              else if 4500 <? stillAge then
                ({| state := none; confidence := 0; reasons := rs |},
                 m, ema, None, cooldownUntil t)
              else
                ({| state := none; confidence := 0; reasons := rs |},
                 m, ema, Some s0, cooldownUntil t)
          | None =>
              ({| state := none; confidence := 0; reasons := rs |},
               m, ema, None, cooldownUntil t)
          end
    | _, _ =>
        ({| state := none; confidence := 0; reasons := [] |},
         0%Q, emaMotion t, postDropStillStart t, cooldownUntil t)
    end in
  ({| lastCenterY := Some cy; lastAspect := Some asp; lastTs := Some now;
      postDropStillStart := still; cooldownUntil := cool; emaMotion := ema |},
   fl, m).

(** The branch [count = 0]: nobody visible resets the tracking. *)
Definition trackNobody (t : Track) : Track * Fall * Q :=
  ({| lastCenterY := None; lastAspect := None; lastTs := None;
      postDropStillStart := None; cooldownUntil := cooldownUntil t;
      emaMotion := JS.Math_max 0.006 (emaMotion t * 0.95) |},
   {| state := none; confidence := 0; reasons := [] |}, 0%Q).

(** Where the asynchronous [tick] of one effect stands: not running,
    suspended at [await getCocoModel()], or suspended inside
    [withAiLock] at [await fn()]; both suspensions remember [outH]. *)
Inductive Phase := Idle | AwaitModel (outH : Z) | InFlight (outH : Z).

(** One run of the AI effect: its constants, the captured
    [health.state === "ok"], and its closure variables. *)
Record Tile := {
  everyMs : Z;
  minScore : Q;
  health_ok : bool;
  ctx : bool;
  stopped : bool;
  track : Track;
  phase : Phase;
  (* a [window.setTimeout(tick, ...)] is pending *)
  pending : bool;
}.

Definition update (tr : Track) (ph : Phase) (pd : bool) (t : Tile) : Tile :=
  {| everyMs := everyMs t; minScore := minScore t; health_ok := health_ok t;
     ctx := ctx t; stopped := stopped t; track := tr; phase := ph; pending := pd |}.

(** The effect's cleanup: [stopped = true]. *)
Definition cleanup (t : Tile) : Tile :=
  {| everyMs := everyMs t; minScore := minScore t; health_ok := health_ok t;
     ctx := ctx t; stopped := true; track := track t; phase := phase t;
     pending := pending t |}.

(** What [tick] reads at its start. *)
Record Frame := {
  videoWidth : Z;
  videoHeight : Z;
  readyState : Z;
  now0 : Z;
}.

Definition unknownScene : SceneProbe.SceneProbeResult :=
  {| SceneProbe.peopleBand := SceneProbe.unknown; SceneProbe.motion := 0;
     SceneProbe.pixelsOk := true |}.

Definition outW_of (vw : Z) : Z := Z.min 360 vw.
Definition outH_of (vw vh : Z) : Z :=
  Z.max 160 (JS.Math_round (inject_Z (outW_of vw * vh) / inject_Z (Z.max 1 vw))).

(** [tick] from its start to [await getCocoModel()]. *)
Definition tick_begin (f : Frame) (t : Tile) : Tile * list Call :=
  if stopped t then (update (track t) Idle false t, [])
  else if negb (ctx t) || (videoWidth f =? 0) || (videoHeight f =? 0)
          || (readyState f <? 2) then
    (update (track t) Idle true t,
     [SetAi (NotReady (now0 f)); SetScene unknownScene])
  else if negb (health_ok t) then
    (update (track t) Idle true t,
     [SetAi (Put {| ready := true; personCount := 0; band := SceneProbe.unknown;
                    fall := {| state := none; confidence := 0;
                               reasons := ["stream_not_ok"] |};
                    motion := 0; ts := now0 f |});
      SetScene unknownScene])
  else if now0 f <? cooldownUntil (track t) then
    (update (track t) Idle true t, [])
  else
    (update (track t) (AwaitModel (outH_of (videoWidth f) (videoHeight f))) false t, []).

(** [tick] from the detections to its end. *)
Definition tick_finish (ds : list Coco.Detection) (now outH : Z) (t : Tile)
  : Tile * list Call :=
  let ppl := Coco.people (minScore t) ds in
  let count := Z.of_nat (length ppl) in
  let '(tr, fl, m) :=
    match ppl with
    | p :: _ => trackPerson now outH p (track t)
    | [] => trackNobody (track t)
    end in
  (update tr Idle true t,
   [SetAi (Put {| ready := true; personCount := count; band := countToBand count;
                  fall := fl; motion := m; ts := now |});
    SetScene {| SceneProbe.peopleBand := countToBand count;
                SceneProbe.motion := m; SceneProbe.pixelsOk := true |}]).

(** [withAiLock] up to [await fn()]: [None] is the early [return null],
    otherwise the new value of the flag, with which [fn] is called. *)
Definition withAiLock_enter (aiBusy : bool) : option bool :=
  if aiBusy then None else Some true.

(** The [finally] block of [withAiLock]. *)
Definition withAiLock_finally (aiBusy : bool) : bool := false.

(** The page: the module-level flag and every run of the effect that
    has been started, by a number of its own. *)
Record Wall := { aiBusy : bool; tiles : gmap nat Tile }.

Definition empty_wall : Wall := {| aiBusy := false; tiles := ∅ |}.

(** The constants the effect derives for a camera. *)
Record Config := {
  canReadPixels : bool;
  looksLikePatient : bool;
  isWebcam : bool;
  cfg_health_ok : bool;
  cfg_ctx : bool;
}.

(** The effect body up to the call [tick()]; [None] when pixels are not
    readable and the effect returns early. *)
Definition startEffect (c : Config) : option Tile * list Call :=
  if negb (canReadPixels c) then
    (None,
     [SetAi ClearReady;
      SetScene {| SceneProbe.peopleBand := SceneProbe.unknown; SceneProbe.motion := 0;
                  SceneProbe.pixelsOk := false |}])
  else
    (Some {| everyMs := if looksLikePatient c then 550
                        else if isWebcam c then 850 else 1800;
             minScore := if looksLikePatient c || isWebcam c then 0.38%Q else 0.45%Q;
             health_ok := cfg_health_ok c;
             ctx := cfg_ctx c;
             stopped := false;
             track := {| lastCenterY := None; lastAspect := None; lastTs := None;
                         postDropStillStart := None; cooldownUntil := 0;
                         emaMotion := 0.02 |};
             phase := Idle;
             pending := true |}, []).

(** How the body of [withAiLock]'s [fn] settles: [drawImage] or
    [model.detect] throws, or the detections arrive. *)
Inductive Outcome := Detected (ds : list Coco.Detection) | Threw.

Inductive Action :=
| Mount (id : nat) (c : Config) (f : Frame)
| TimerFires (id : nat) (f : Frame)
| ModelLoaded (id : nat)
| DetectSettles (id : nat) (o : Outcome) (now : Z)
| Cleanup (id : nat).

Definition put_tile (id : nat) (t : Tile) (busy : bool) (wl : Wall) : Wall :=
  {| aiBusy := busy; tiles := <[id := t]> (tiles wl) |}.

Definition tag_calls (id : nat) (cs : list Call) : list (nat * Call) :=
  map (fun c => (id, c)) cs.

(** One turn of the event loop.  A continuation runs only for an effect
    that is suspended where the action resumes it. *)
Definition step (a : Action) (wl : Wall) : Wall * list (nat * Call) :=
  match a with
  | Mount id c f =>
      match tiles wl !! id with
      | Some _ => (wl, [])
      | None =>
          match startEffect c with
          | (None, cs) => (wl, tag_calls id cs)
          | (Some t, cs) =>
              let '(t1, cs1) := tick_begin f t in
              (put_tile id t1 (aiBusy wl) wl, tag_calls id (cs ++ cs1))
          end
      end
  | TimerFires id f =>
      match tiles wl !! id with
      | Some t =>
          match phase t with
          | Idle =>
              if pending t then
                let '(t1, cs) := tick_begin f t in
                (put_tile id t1 (aiBusy wl) wl, tag_calls id cs)
              else (wl, [])
          | _ => (wl, [])
          end
      | None => (wl, [])
      end
  | ModelLoaded id =>
      match tiles wl !! id with
      | Some t =>
          match phase t with
          | AwaitModel outH =>
              match withAiLock_enter (aiBusy wl) with
              | None =>
                  (* detections is null: try again later *)
                  (put_tile id (update (track t) Idle true t) (aiBusy wl) wl, [])
              | Some b =>
                  (put_tile id (update (track t) (InFlight outH) false t) b wl, [])
              end
          | _ => (wl, [])
          end
      | None => (wl, [])
      end
  | DetectSettles id o now =>
      match tiles wl !! id with
      | Some t =>
          match phase t with
          | InFlight outH =>
              let b := withAiLock_finally (aiBusy wl) in
              match o with
              | Threw =>
                  (* the rejection leaves [tick]: nothing is rescheduled *)
                  (put_tile id (update (track t) Idle false t) b wl, [])
              | Detected ds =>
                  let '(t1, cs) := tick_finish ds now outH t in
                  (put_tile id t1 b wl, tag_calls id cs)
              end
          | _ => (wl, [])
          end
      | None => (wl, [])
      end
  | Cleanup id =>
      match tiles wl !! id with
      | Some t => (put_tile id (cleanup t) (aiBusy wl) wl, [])
      | None => (wl, [])
      end
  end.

Fixpoint run (acts : list Action) (wl : Wall) : Wall * list (nat * Call) :=
  match acts with
  | [] => (wl, [])
  | a :: rest =>
      let '(w1, out1) := step a wl in
      let '(w2, out2) := run rest w1 in
      (w2, out1 ++ out2)
  end.

Definition in_flight (t : Tile) : bool :=
  match phase t with InFlight _ => true | _ => false end.

End VideoTile.

(* ===================================================================== *)
(** * src/App.tsx and src/mock/incidents.ts: the incident list             *)
(* ===================================================================== *)

Module App.
Import Types.

Record Frames := { before : string; peak : string; after : string }.

Record HrSeries := { hr_start : Z; hr_peak : Z; hr_end : Z; series : list Z }.

Record Incident := {
  id : string;
  cameraId : string;
  cameraName : string;
  type : IncidentType;
  severity : Severity;
  confidence : Q;
  createdAt : Z;
  acked : bool;
  eventTimeSec : JS.optional Q;
  reasons : JS.optional (list string);
  clipUrl : JS.optional string;
  frames : JS.optional Frames;
  hr : JS.optional HrSeries;
}.

(** The comparator of [sortInbox]. *)
Definition sortInbox_cmp (a b : Incident) : Q :=
  if negb (Bool.eqb (acked a) (acked b)) then (if acked a then 1 else -1)%Q
  else
    let sr := severityRank (severity b) - severityRank (severity a) in
    if negb (sr =? 0) then inject_Z sr
    else inject_Z (createdAt b - createdAt a).

Definition sortInbox (incidents : list Incident) : list Incident :=
  JS.Array_sort sortInbox_cmp incidents.

Definition ack (i : string) (prev : list Incident) : list Incident :=
  map (fun p =>
         if String.eqb (id p) i then
           {| id := id p; cameraId := cameraId p; cameraName := cameraName p;
              type := type p; severity := severity p; confidence := confidence p;
              createdAt := createdAt p; acked := true;
              eventTimeSec := eventTimeSec p; reasons := reasons p;
              clipUrl := clipUrl p; frames := frames p; hr := hr p |}
         else p) prev.

Definition resolve (i : string) (prev : list Incident) : list Incident :=
  List.filter (fun p => negb (String.eqb (id p) i)) prev.

Definition same_key (a b : Incident) : bool :=
  String.eqb (cameraId a) (cameraId b) && bool_decide (type a = type b).

(** The object literal that replaces [copy[idx]]. *)
Definition merged (existing next : Incident) (now : Z) : Incident :=
  {| id := id next; cameraId := cameraId next; cameraName := cameraName next;
     type := type next;
     severity := if severityRank (severity existing) <? severityRank (severity next)
                 then severity next else severity existing;
     confidence := confidence next;
     createdAt := now;
     acked := false;
     eventTimeSec := JS.spread (eventTimeSec existing) (eventTimeSec next);
     reasons := JS.spread (reasons existing) (reasons next);
     clipUrl := JS.spread (clipUrl existing) (clipUrl next);
     frames := JS.spread (frames existing) (frames next);
     hr := JS.spread (hr existing) (hr next) |}.

(** The updater that [upsertIncident] hands to [setIncidents]; [now] is
    its [Date.now()]. *)
Definition upsertIncident (next : Incident) (now : Z) (prev : list Incident)
  : list Incident :=
  match JS.findIndex (fun p => same_key p next) prev with
  | Some idx =>
      match prev !! idx with
      | Some existing => <[idx := merged existing next now]> prev
      | None => prev
      end
  | None => next :: prev
  end.

(** What the tile reports to [onAutoIncident]. *)
Record Payload := {
  camera : Camera;
  p_type : IncidentType;
  p_severity : Severity;
  p_confidence : Q;
  p_eventTimeSec : option Q;
  p_reasons : list string;
}.

(** What [newIncident] draws from its environment: the hexadecimal
    digits of [Math.random()], the clock, the random vitals series. *)
Record Draws := { random_hex : string; created_ms : Z; vitals : HrSeries }.

Section WithPlaceholders.

(** [makeFrame] of lib/placeholders.ts: the data URL of an SVG
    rendering of its three arguments. *)
Variable makeFrame : string -> IncidentType -> string -> string.

Definition newIncident (c : Camera) (ty : IncidentType) (sev : Severity)
    (d : Draws) : Incident :=
  {| id := "inc-" +:+ random_hex d +:+ "-" +:+ JS.show_Z (created_ms d);
     cameraId := cam_id c;
     cameraName := cam_name c;
     type := ty;
     severity := sev;
     confidence := match sev with watch => 0.72 | risk => 0.88 | _ => 0.94 end;
     createdAt := created_ms d;
     acked := false;
     eventTimeSec := JS.absent;
     reasons := JS.absent;
     clipUrl := JS.absent;
     frames := JS.present (Some {| before := makeFrame "BEFORE" ty (cam_name c);
                                   peak := makeFrame "PEAK" ty (cam_name c);
                                   after := makeFrame "AFTER" ty (cam_name c) |});
     hr := JS.present (Some (vitals d)) |}.

(** [{...base, severity?, confidence, reasons, eventTimeSec}] as the
    handler builds it: the keys [reasons] and [eventTimeSec] are always
    written, the latter possibly with [undefined]. *)
Definition with_payload (base : Incident) (sev : Severity) (pl : Payload) : Incident :=
  {| id := id base; cameraId := cameraId base; cameraName := cameraName base;
     type := type base; severity := sev; confidence := p_confidence pl;
     createdAt := createdAt base; acked := acked base;
     eventTimeSec := JS.present (p_eventTimeSec pl);
     reasons := JS.present (Some (p_reasons pl));
     clipUrl := clipUrl base; frames := frames base; hr := hr base |}.

(** The [onAutoIncident] handler.  [incidents] is the list the handler
    closed over when it was rendered, [prev] the list the state
    updater receives. *)
Definition onAutoIncident (incidents : list Incident) (pl : Payload) (d : Draws)
    (now : Z) (prev : list Incident) : list Incident :=
  match List.find (fun i => String.eqb (cameraId i) (cam_id (camera pl))
                            && bool_decide (type i = p_type pl)) incidents with
  | Some existing =>
      upsertIncident (with_payload existing (p_severity pl) pl) now prev
  | None =>
      let created := newIncident (camera pl) (p_type pl) (p_severity pl) d in
      upsertIncident (with_payload created (severity created) pl) now prev
  end.




End WithPlaceholders.

End App.

(* ===================================================================== *)
(** * src/App.tsx: what the page derives from the incident list           *)
(* ===================================================================== *)

Module Dashboard.
Import Types App.

(** [globalSafetyState]: the [reduce] from ["none"]. *)
Definition globalSafetyState (incidents : list Incident) : Severity :=
  fold_left (fun acc it =>
               if severityRank acc <? severityRank (severity it)
               then severity it else acc)
            incidents none.

Record Counts := { n_watch : Z; n_risk : Z; n_critical : Z }.

(** [countBySeverity]: the [for ... of] loop over three counters. *)
Definition countBySeverity (incidents : list Incident) : Counts :=
  fold_left (fun c i =>
               match severity i with
               | watch => {| n_watch := n_watch c + 1; n_risk := n_risk c;
                             n_critical := n_critical c |}
               | risk => {| n_watch := n_watch c; n_risk := n_risk c + 1;
                            n_critical := n_critical c |}
               | critical => {| n_watch := n_watch c; n_risk := n_risk c;
                                n_critical := n_critical c + 1 |}
               | none => c
               end)
            incidents {| n_watch := 0; n_risk := 0; n_critical := 0 |}.


(** The [useMemo] that builds [incidentsByCamera]: an object used as a map
    from camera id to incident. *)
Definition incidentsByCamera (incidentsSorted : list Incident) : gmap string Incident :=
  fold_left (fun m i =>
               match m !! cameraId i with
               | Some existing =>
                   if severityRank (severity existing) <? severityRank (severity i)
                   then <[cameraId i := i]> m else m
               | None => <[cameraId i := i]> m
               end)
            incidentsSorted ∅.

(** The updater of [setHealthByCam] inside [onStatus]. *)
Definition setHealthByCam (cam : string) (h : VideoProbe.StreamHealth)
    (prev : gmap string VideoProbe.StreamHealth) : gmap string VideoProbe.StreamHealth :=
  match prev !! cam with
  | Some existing =>
      if bool_decide (VideoProbe.state existing = VideoProbe.state h)
      then prev else <[cam := h]> prev
  | None => <[cam := h]> prev
  end.

(** The updater of [setSceneByCam] inside [onStatus]. *)
Definition setSceneByCam (cam : string) (sc : SceneProbe.SceneProbeResult)
    (prev : gmap string SceneProbe.SceneProbeResult)
  : gmap string SceneProbe.SceneProbeResult :=
  match prev !! cam with
  | Some existing =>
      if bool_decide (SceneProbe.peopleBand existing = SceneProbe.peopleBand sc)
      then prev else <[cam := sc]> prev
  | None => <[cam := sc]> prev
  end.

Record HealthCounts := { n_buffering : Z; n_frozen : Z; n_black : Z; n_error : Z }.

(** [healthCounts]: the loop over [Object.values(healthByCam)]. *)
Definition healthCounts (values : list VideoProbe.StreamHealth) : HealthCounts :=
  fold_left (fun c h =>
               match VideoProbe.state h with
               | VideoProbe.buffering =>
                   {| n_buffering := n_buffering c + 1; n_frozen := n_frozen c;
                      n_black := n_black c; n_error := n_error c |}
               | VideoProbe.frozen =>
                   {| n_buffering := n_buffering c; n_frozen := n_frozen c + 1;
                      n_black := n_black c; n_error := n_error c |}
               | VideoProbe.black =>
                   {| n_buffering := n_buffering c; n_frozen := n_frozen c;
                      n_black := n_black c + 1; n_error := n_error c |}
               | VideoProbe.error =>
                   {| n_buffering := n_buffering c; n_frozen := n_frozen c;
                      n_black := n_black c; n_error := n_error c + 1 |}
               | VideoProbe.ok => c
               end)
            values {| n_buffering := 0; n_frozen := 0; n_black := 0; n_error := 0 |}.

End Dashboard.

(* ===================================================================== *)
(** * src/App.tsx: the selected incident                                   *)
(* ===================================================================== *)

Module Selection.
Import Types App Dashboard.


End Selection.

(* ===================================================================== *)
(** * src/components/VideoTile.tsx: forwarding falls to the page           *)
(* ===================================================================== *)

Module AutoEmit.
Import Types.

(** [lastAiEmitRef.current]. *)
Record EmitRef := { riskMs : Z; criticalMs : Z }.

Definition initial_ref : EmitRef := {| riskMs := 0; criticalMs := 0 |}.

Definition cooldownRiskMs : Z := 30000.
Definition cooldownCriticalMs : Z := 12000.

(** The object handed to [onAutoIncident]; it has no [eventTimeSec]. *)
Definition payload (cam : Camera) (sev : Severity) (f : VideoTile.Fall)
    (fallback : string) : App.Payload :=
  {| App.camera := cam; App.p_type := FALL; App.p_severity := sev;
     App.p_confidence := VideoTile.confidence f;
     App.p_eventTimeSec := None;
     App.p_reasons := match VideoTile.reasons f with
                      | [] => [fallback]
                      | rs => rs
                      end |}.

(** One run of the effect: [has_handler] is whether [onAutoIncident] was
    given, [now] its [Date.now()]. *)
Definition autoEmit (has_handler : bool) (cam : Camera) (ai : VideoTile.AIState)
    (now : Z) (ref : EmitRef) : EmitRef * list App.Payload :=
  if negb has_handler then (ref, [])
  else if negb (VideoTile.ready ai) then (ref, [])
  else if bool_decide (VideoTile.state (VideoTile.fall ai) = VideoTile.none)
  then (ref, [])
  else
    let '(ref1, out1) :=
      if bool_decide (VideoTile.state (VideoTile.fall ai) = VideoTile.risk)
         && (cooldownRiskMs <? now - riskMs ref)
      then ({| riskMs := now; criticalMs := criticalMs ref |},
            [payload cam risk (VideoTile.fall ai) "ai_fall_risk"])
      else (ref, []) in
    let '(ref2, out2) :=
      if bool_decide (VideoTile.state (VideoTile.fall ai) = VideoTile.critical)
         && (cooldownCriticalMs <? now - criticalMs ref1)
      then ({| riskMs := riskMs ref1; criticalMs := now |},
            [payload cam critical (VideoTile.fall ai) "ai_fall_critical"])
      else (ref1, []) in
    (ref2, out1 ++ out2).

(** The runs of the effect over the life of a tile, each with the state
    it sees and its clock; what is forwarded is paired with the clock. *)
Fixpoint emits (has_handler : bool) (cam : Camera) (runs : list (VideoTile.AIState * Z))
    (ref : EmitRef) : EmitRef * list (Z * App.Payload) :=
  match runs with
  | [] => (ref, [])
  | (ai, now) :: rest =>
      let '(ref1, out1) := autoEmit has_handler cam ai now ref in
      let '(ref2, out2) := emits has_handler cam rest ref1 in
      (ref2, map (fun p => (now, p)) out1 ++ out2)
  end.

End AutoEmit.

(* ===================================================================== *)
(** * src/components/FocusModal.tsx: the replay window                     *)
(* ===================================================================== *)

Module FocusModal.

Record Window := { start : Q; end_ : Q; t : Q }.

(** [replayWindow]: nothing without an incident, and nothing when its
    [eventTimeSec] is missing, undefined or 0. *)
Definition replayWindow (incident : option App.Incident) : option Window :=
  match incident with
  | None => None
  | Some i =>
      match JS.read (App.eventTimeSec i) with
      | None => None
      | Some ts =>
          if Qeq_bool ts 0 then None
          else Some {| start := JS.Math_max 0 (ts - 6); end_ := ts + 4; t := ts |}
      end
  end.

End FocusModal.

(* ===================================================================== *)
(** * src/components/VideoTile.tsx: stream URLs                            *)
(* ===================================================================== *)

Module Urls.

(** [s.startsWith(p)] and [s.slice(n)]. *)
Definition startsWith (s p : string) : bool := String.prefix p s.
Definition slice (s : string) (n : nat) : string :=
  String.substring n (String.length s - n) s.

Definition commonsPrefix : string :=
  "https://commons.wikimedia.org/wiki/Special:FilePath/".
Definition uploadPrefix : string := "https://upload.wikimedia.org/".

(** [proxify]: [None] is [undefined]; the empty string is falsy too. *)
Definition proxify (url : option string) : option string :=
  match url with
  | None => None
  | Some u =>
      if String.eqb u "" then url
      else if startsWith u commonsPrefix
      then Some ("/wm/wiki/Special:FilePath/" +:+ slice u (String.length commonsPrefix))
      else if startsWith u uploadPrefix
      then Some ("/wm-upload/" +:+ slice u (String.length uploadPrefix))
      else url
  end.

Section Origin.

(** [new URL(url, window.location.href).origin === window.location.origin];
    [None] when the constructor throws. *)
Variable same_origin : string -> option bool.

Definition isSameOriginOrRelative (url : option string) : bool :=
  match url with
  | None => false
  | Some u =>
      if String.eqb u "" then false
      else if startsWith u "/" then true
      else match same_origin u with
           | Some b => b
           | None => false
           end
  end.

(** The two [useMemo]s of the tile: [src], then [canReadPixels]. *)
Definition src (isWebcam : bool) (streamUrl : option string) : option string :=
  if isWebcam then None else proxify streamUrl.

Definition canReadPixels (isWebcam : bool) (streamUrl : option string) : bool :=
  if isWebcam then true else isSameOriginOrRelative (src isWebcam streamUrl).

End Origin.

End Urls.

(* ===================================================================== *)
(** * src/components/VideoTile.tsx: the border of a tile                   *)
(* ===================================================================== *)

Module TileView.
Import Types.

(** [severityColor] of lib/severity.ts. *)
Definition severityColor (s : Severity) : string :=
  match s with
  | watch => "amber"
  | risk | critical => "red"
  | none => "green"
  end.

Definition ai_fall_state (ai : VideoTile.AIState) : VideoTile.AIFallState :=
  VideoTile.state (VideoTile.fall ai).

Definition aiDerivedSev (incident : option App.Incident) (ai : VideoTile.AIState)
  : Severity :=
  if match incident with None => true | Some _ => false end
     && (bool_decide (ai_fall_state ai = VideoTile.critical)
         || bool_decide (ai_fall_state ai = VideoTile.risk))
  then (if bool_decide (ai_fall_state ai = VideoTile.critical) then critical else risk)
  else match incident with Some i => App.severity i | None => none end.

Definition sev (incident : option App.Incident) (ai : VideoTile.AIState) : Severity :=
  match incident with
  | Some i => App.severity i
  | None => aiDerivedSev incident ai
  end.

Definition safetyThick (s : Severity) : bool :=
  bool_decide (s = risk) || bool_decide (s = critical).

Definition safetyPulse (incident : option App.Incident) (s : Severity) : bool :=
  bool_decide (s = critical)
  && negb match incident with Some i => App.acked i | None => false end.

Definition healthThick (h : VideoProbe.StreamHealthState) (st : bool) : bool :=
  (bool_decide (h = VideoProbe.buffering) || bool_decide (h = VideoProbe.frozen)
   || bool_decide (h = VideoProbe.black) || bool_decide (h = VideoProbe.error))
  && negb st.

Definition healthColor (h : VideoProbe.StreamHealthState) : string :=
  match h with
  | VideoProbe.buffering => "amber"
  | VideoProbe.ok => ""
  | _ => "red"
  end.

Definition peopleBand (ai : VideoTile.AIState) (scene : SceneProbe.SceneProbeResult)
  : SceneProbe.PeopleBand :=
  if VideoTile.ready ai then VideoTile.band ai else SceneProbe.peopleBand scene.

Definition peopleFlag (b : SceneProbe.PeopleBand) : bool :=
  bool_decide (b = SceneProbe.none) || bool_decide (b = SceneProbe.crowd).

(** The class names of [tileClass], before they are joined. *)
Definition tileClasses (incident : option App.Incident) (ai : VideoTile.AIState)
    (health : VideoProbe.StreamHealth) (scene : SceneProbe.SceneProbeResult)
  : list string :=
  let s := sev incident ai in
  let st := safetyThick s in
  let ht := healthThick (VideoProbe.state health) st in
  let pt := peopleFlag (peopleBand ai scene) && negb st && negb ht in
  ["tile"]
    ++ (if st then ["thick"; severityColor s]
        else if ht then ["thick"; healthColor (VideoProbe.state health)]
        else if pt then ["thick"; "blue"]
        else [])
    ++ (if safetyPulse incident s then ["pulse"] else []).

Definition tileClass (incident : option App.Incident) (ai : VideoTile.AIState)
    (health : VideoProbe.StreamHealth) (scene : SceneProbe.SceneProbeResult) : string :=
  String.concat " " (tileClasses incident ai health scene).

End TileView.

(* ===================================================================== *)
(** * src/mock/incidents.ts: the vitals series                             *)
(* ===================================================================== *)

Module Vitals.

(** [rnd(min, max)] for the value [u] of [Math.random()]. *)
Definition rnd (u : Q) (min max : Z) : Z :=
  Qfloor (u * inject_Z (max - min + 1)) + min.

Definition clamp (n a b : Z) : Z := Z.max a (Z.min b n).

Definition len : nat := 18.

(** The loop of [makeHrSeries] from turn [i] on, [n] turns to go, with
    [v] the value so far; [draw i] is what [Math.random()] returns in
    turn [i]. *)
Fixpoint loop (draw : nat -> Q) (i n : nat) (v : Z) : list Z :=
  match n with
  | O => []
  | S n' =>
      let drift := if (i <? 6)%nat then rnd (draw i) (-1) 2 else rnd (draw i) (-2) 4 in
      let v' := clamp (v + drift) 45 160 in
      v' :: loop draw (S i) n' v'
  end.

(** [Math.max(...series)] of a series that is not empty. *)
Definition maximum (first : Z) (rest : list Z) : Z := fold_left Z.max rest first.

(** [makeHrSeries]; the series has [len] entries, so the spread of
    [Math.max] is never over an empty array. *)
Definition makeHrSeries (draw : nat -> Q) (base : Z) : App.HrSeries :=
  let series := loop draw 0 len base in
  {| App.hr_start := default base (head series);
     App.hr_peak := match series with
                    | first :: rest => maximum first rest
                    | [] => base
                    end;
     App.hr_end := default base (List.last (map Some series) None);
     App.series := series |}.

End Vitals.

(* ===================================================================== *)
(** * Comparisons of numbers                                               *)
(* ===================================================================== *)

Lemma Qlt_bool_iff (a b : Q) : JS.Qlt_bool a b = true <-> (a < b)%Q.
Proof.
unfold JS.Qlt_bool. rewrite negb_true_iff. split.
- intros H. apply Qnot_le_lt. intros L. apply Qle_bool_iff in L. congruence.
- intros H. destruct (Qle_bool b a) eqn:E; [|reflexivity].
  apply Qle_bool_iff in E. exfalso. exact (Qlt_not_le _ _ H E).
Qed.

Lemma Qlt_bool_false_iff (a b : Q) : JS.Qlt_bool a b = false <-> ~ (a < b)%Q.
Proof.
rewrite <- Qlt_bool_iff. destruct (JS.Qlt_bool a b); split; congruence.
Qed.

Lemma Qle_bool_false_iff (a b : Q) : Qle_bool a b = false <-> ~ (a <= b)%Q.
Proof.
rewrite <- Qle_bool_iff. destruct (Qle_bool a b); split; congruence.
Qed.

(* ===================================================================== *)
(** * Properties of the health monitor                                     *)
(* ===================================================================== *)

Section HealthMonitor.
Import VideoProbe.

(** Two readings that [emit] does not tell apart. *)
Definition same_reading (a b : StreamHealth) : Prop :=
  state a = state b /\ reason a = reason b.

(** No two neighbours of the list are the same reading. *)
Inductive no_repeat : list StreamHealth -> Prop :=
| no_repeat_nil : no_repeat []
| no_repeat_one a : no_repeat [a]
| no_repeat_cons a b l :
    ~ same_reading a b -> no_repeat (b :: l) -> no_repeat (a :: b :: l).

(** A callback took the probe from [p] to [p'] delivering [out]: the
    deliveries continue the held reading without a repeat and end on the
    reading held afterwards; nothing else that [emit] looks at moved. *)
Definition continues (p p' : Probe) (out : list StreamHealth) : Prop :=
  no_repeat (health p :: out) /\ List.last out (health p) = health p'.

Lemma continues_refl p p' :
  health p' = health p -> continues p p' [].
Proof. intros E. split; [constructor | simpl; congruence]. Qed.

(** The branch delivers nothing and leaves the held reading alone. *)
Ltac silent_branch := apply continues_refl; reflexivity.

Lemma last_cons (b a : StreamHealth) l :
  List.last (b :: l) a = List.last l b.
Proof.
  revert a b. induction l as [|c l IH]; intros a b; [reflexivity|].
  change (List.last (b :: c :: l) a) with (List.last (c :: l) a).
  rewrite IH. symmetry. apply IH.
Qed.

Lemma no_repeat_app a l1 l2 :
  no_repeat (a :: l1) -> no_repeat (List.last l1 a :: l2) -> no_repeat (a :: l1 ++ l2).
Proof.
  revert a. induction l1 as [|b l1 IH]; intros a H1 H2.
  - exact H2.
  - inversion H1; subst. rewrite last_cons in H2.
    change ((b :: l1) ++ l2) with (b :: l1 ++ l2).
    constructor; [assumption|]. apply IH; assumption.
Qed.

Lemma last_app_default (l1 l2 : list StreamHealth) a :
  List.last (l1 ++ l2) a = List.last l2 (List.last l1 a).
Proof.
  revert a. induction l1 as [|b l1 IH]; intros a; [reflexivity|].
  change ((b :: l1) ++ l2) with (b :: l1 ++ l2).
  rewrite !last_cons, IH.
  destruct l2 as [|c l2]; [reflexivity|]. rewrite !last_cons. reflexivity.
Qed.

Lemma continues_trans p p1 p2 out1 out2 :
  continues p p1 out1 -> continues p1 p2 out2 -> continues p p2 (out1 ++ out2).
Proof.
  intros [N1 L1] [N2 L2]. split.
  - apply no_repeat_app; [assumption | rewrite L1; assumption].
  - rewrite last_app_default, L1. exact L2.
Qed.

Lemma emit_continues next p :
  continues p (fst (emit next p)) (snd (emit next p)).
Proof.
  unfold emit. destruct (disposed p); [silent_branch|].
  destruct (bool_decide (state next = state (health p))
            && String.eqb (reason next) (reason (health p))) eqn:E.
  - silent_branch.
  - simpl. split; [|reflexivity]. constructor; [|constructor].
    intros [Hs Hr]. apply andb_false_iff in E as [E|E].
    + apply bool_decide_eq_false in E. congruence.
    + apply String.eqb_neq in E. congruence.
Qed.

Lemma frozenTick_continues now v p :
  continues p (fst (frozenTick now v p)) (snd (frozenTick now v p)).
Proof.
  unfold frozenTick.
  destruct (disposed p); [silent_branch|].
  destruct (paused v || ended v); [silent_branch|].
  destruct (safeNum (currentTime v)) as [t|]; [|silent_branch].
  destruct (negb (Qeq_bool t (lastTime p))).
  - match goal with |- context [bool_decide ?P] => destruct (bool_decide P) end.
    + eapply (continues_trans p (set_progress t now p) _ []).
      * silent_branch.
      * apply emit_continues.
    + silent_branch.
  - destruct (o_frozenSeconds p * 1000 <=? now - lastProgressAt p).
    + apply emit_continues.
    + silent_branch.
Qed.

Lemma pixelTick_continues f now v p :
  continues p (fst (pixelTick f now v p)) (snd (pixelTick f now v p)).
Proof.
  unfold pixelTick.
  destruct (disposed p); [silent_branch|].
  destruct (negb (o_enablePixelProbe p)); [silent_branch|].
  destruct (pixelDisabled p); [silent_branch|].
  destruct (negb (ctx p)); [silent_branch|].
  match goal with |- context [negb (bool_decide ?P)] => destruct (negb (bool_decide P)) end;
    [silent_branch|].
  destruct f as [img|]; [|silent_branch].
  set (r := blackRatio (o_blackLumaThreshold p) img).
  match goal with
  | |- context [let '(p1, out1) := ?first in _] =>
      assert (H1 : continues p (fst first) (snd first)); [|destruct first as [p1 out1]]
  end.
  { destruct (Qle_bool (o_blackRatioThreshold p) r).
    - silent_branch.
    - match goal with |- context [bool_decide ?P] => destruct (bool_decide P) end.
      + eapply (continues_trans p (set_blackStreak 0 p) _ []).
        * silent_branch.
        * apply emit_continues.
      + silent_branch. }
  simpl in H1.
  match goal with
  | |- context [let '(p2, out2) := ?second in _] =>
      assert (H2 : continues p1 (fst second) (snd second)); [|destruct second as [p2 out2]]
  end.
  { destruct (o_blackConsecutive p1 <=? blackStreak p1).
    - apply emit_continues.
    - silent_branch. }
  simpl in *. eapply continues_trans; eassumption.
Qed.

Lemma dispatch_continues o p :
  continues p (fst (dispatch o p)) (snd (dispatch o p)).
Proof.
  unfold dispatch, onWaiting, onStalled, onPlaying, onCanPlay, onError.
  destruct (signal o);
    try (destruct (listeners p); [apply emit_continues | silent_branch]).
  - destruct (frozenTick_timer p);
      [apply frozenTick_continues | silent_branch].
  - destruct (pixelTick_timer p);
      [apply pixelTick_continues | silent_branch].
  - silent_branch.
Qed.

Lemma run_continues os p :
  continues p (fst (run os p)) (snd (run os p)).
Proof.
  revert p. induction os as [|o os IH]; intros p; simpl.
  - apply continues_refl; reflexivity.
  - pose proof (dispatch_continues o p) as H1.
    destruct (dispatch o p) as [p1 out1]. simpl in H1.
    specialize (IH p1). destruct (run os p1) as [p2 out2]. simpl in *.
    eapply continues_trans; eassumption.
Qed.

Definition attached_reading (v : Video) (now : Z) : StreamHealth :=
  {| state := ok; sinceMs := now; reason := "attached";
     details := Some (snapshotDetails v) |}.

Lemma attach_delivers v now has_ctx opts :
  snd (attachVideoProbe v now has_ctx opts) = [attached_reading v now]
  /\ health (fst (attachVideoProbe v now has_ctx opts)) = attached_reading v now.
Proof. split; reflexivity. Qed.

End HealthMonitor.

Section HealthMonitorClaims.
Import VideoProbe.

(** C10: whatever the element, the clock and the options, the call
    [attachVideoProbe] itself delivers exactly one reading, state [ok]
    with reason "attached", and holds it as the current health; with no
    signal after the attach nothing else is delivered, so the baseline
    reading is there for a source that never raises an event. *)
Theorem attach_delivers_baseline v now has_ctx opts :
  let p0 := fst (attachVideoProbe v now has_ctx opts) in
  exists r,
    snd (attachVideoProbe v now has_ctx opts) = [r]
    /\ state r = ok /\ reason r = "attached" /\ sinceMs r = now
    /\ health p0 = r
    /\ snd (run [] p0) = [].
Proof.
  exists (attached_reading v now). repeat split.
Qed.

(** C4: for every attachment and every history of media events, watchdog
    ticks, pixel samples and detach calls, the readings delivered to the
    callback, from the one of the attach call on, never hold two
    neighbours with the same state and the same reason. *)
Theorem health_readings_never_repeat v now has_ctx opts os :
  let p0 := fst (attachVideoProbe v now has_ctx opts) in
  no_repeat (snd (attachVideoProbe v now has_ctx opts) ++ snd (run os p0)).
Proof.
  intros p0.
  destruct (attach_delivers v now has_ctx opts) as [E1 E2].
  rewrite E1. fold p0 in E2.
  destruct (run_continues os p0) as [N _].
  rewrite E2 in N. exact N.
Qed.

(** The sampler reaches the pixel read. *)
Definition samples (p : Probe) : Prop :=
  disposed p = false /\ o_enablePixelProbe p = true /\ pixelDisabled p = false
  /\ ctx p = true /\ state (health p) = ok.

Lemma pixelTick_skips_unless_ok f now v p :
  state (health p) <> ok -> pixelTick f now v p = (p, []).
Proof.
  intros H. unfold pixelTick.
  destruct (disposed p); [reflexivity|].
  destruct (negb (o_enablePixelProbe p)); [reflexivity|].
  destruct (pixelDisabled p); [reflexivity|].
  destruct (negb (ctx p)); [reflexivity|].
  rewrite bool_decide_eq_false_2 by assumption. reflexivity.
Qed.

Lemma pixelTick_throw now v p :
  snd (pixelTick None now v p) = []
  /\ health (fst (pixelTick None now v p)) = health p
  /\ (samples p -> pixelDisabled (fst (pixelTick None now v p)) = true).
Proof.
  unfold pixelTick, samples.
  (* a guard returned early: nothing moved, and the probe was not sampling *)
  assert (Early : forall q (S : Prop),
             ~ S ->
             snd (q, @nil StreamHealth) = []
             /\ health (fst (q, @nil StreamHealth)) = health q
             /\ (S -> pixelDisabled (fst (q, @nil StreamHealth)) = true)).
  { intros q S N. split; [|split]; [reflexivity | reflexivity | intros K; destruct (N K)]. }
  destruct (disposed p); [apply Early; intros (?&?&?&?&?); congruence|].
  destruct (o_enablePixelProbe p); simpl;
    [|apply Early; intros (?&?&?&?&?); congruence].
  destruct (pixelDisabled p); [apply Early; intros (?&?&?&?&?); congruence|].
  destruct (ctx p); simpl; [|apply Early; intros (?&?&?&?&?); congruence].
  destruct (bool_decide (state (health p) = ok)) eqn:E; simpl.
  - split; [|split]; reflexivity.
  - apply bool_decide_eq_false in E.
    apply Early. intros (?&?&?&?&?); congruence.
Qed.

Lemma pixelTick_disabled f now v p :
  pixelDisabled p = true -> pixelTick f now v p = (p, []).
Proof.
  intros H. unfold pixelTick. rewrite H.
  destruct (disposed p); [reflexivity|].
  destruct (negb (o_enablePixelProbe p)); reflexivity.
Qed.

Lemma emit_keeps_pixelDisabled next p :
  pixelDisabled (fst (emit next p)) = pixelDisabled p.
Proof.
  unfold emit. destruct (disposed p); [reflexivity|].
  match goal with |- context [if ?c then _ else _] => destruct c end; reflexivity.
Qed.

Lemma dispatch_keeps_disabled o p :
  pixelDisabled p = true -> pixelDisabled (fst (dispatch o p)) = true.
Proof.
  intros H. unfold dispatch, onWaiting, onStalled, onPlaying, onCanPlay, onError.
  destruct (signal o);
    try (destruct (listeners p); [rewrite emit_keeps_pixelDisabled|]; exact H).
  - destruct (frozenTick_timer p); [|exact H]. unfold frozenTick.
    destruct (disposed p); [exact H|].
    destruct (paused (video o) || ended (video o)); [exact H|].
    destruct (safeNum (currentTime (video o))) as [t|]; [|exact H].
    destruct (negb (Qeq_bool t (lastTime p))).
    + match goal with |- context [bool_decide ?P] => destruct (bool_decide P) end;
        [rewrite emit_keeps_pixelDisabled|]; exact H.
    + destruct (o_frozenSeconds p * 1000 <=? at_ms o - lastProgressAt p);
        [rewrite emit_keeps_pixelDisabled|]; exact H.
  - destruct (pixelTick_timer p); [|exact H].
    rewrite pixelTick_disabled by exact H. exact H.
  - exact H.
Qed.

(** The history without its pixel samples. *)
Definition is_pixel_sample (o : Occurrence) : bool :=
  match signal o with PixelTimer _ => true | _ => false end.

Definition without_pixel_samples (os : list Occurrence) : list Occurrence :=
  List.filter (fun o => negb (is_pixel_sample o)) os.

Lemma run_disabled_ignores_samples os p :
  pixelDisabled p = true -> run os p = run (without_pixel_samples os) p.
Proof.
  revert p. induction os as [|o os IH]; intros p H; [reflexivity|].
  change (without_pixel_samples (o :: os))
    with (if negb (is_pixel_sample o) then o :: without_pixel_samples os
          else without_pixel_samples os).
  destruct (is_pixel_sample o) eqn:E; simpl negb; cbv iota.
  - assert (D : dispatch o p = (p, [])).
    { unfold dispatch. unfold is_pixel_sample in E.
      destruct (signal o); try discriminate.
      destruct (pixelTick_timer p); [apply pixelTick_disabled; exact H | reflexivity]. }
    simpl. rewrite D, <- (IH p H). destruct (run os p); reflexivity.
  - simpl. destruct (dispatch o p) as [p1 out1] eqn:D.
    assert (Hk : pixelDisabled p1 = true).
    { pose proof (dispatch_keeps_disabled o p H) as K. rewrite D in K. exact K. }
    rewrite (IH p1 Hk). reflexivity.
Qed.

End HealthMonitorClaims.

(* ===================================================================== *)
(** * Properties of the scene probe                                        *)
(* ===================================================================== *)

Section SceneProbeFacts.
Import SceneProbe.

(** ** What the two loops compute, said without the loops *)

(** Every pixel position [(y, x)] of the 96 x 54 buffer, row by row. *)
Definition positions : list (Z * Z) :=
  flat_map (fun y => map (fun x => (y, x)) (seqZ 0 w)) (seqZ 0 h).

#[local] Arguments positions : simpl never.

(** The pixel at [(y, x)] differs from the previous sample by more than
    the motion threshold. *)
Definition changed_at (p : Probe) (cur prev : list Z) (yx : Z * Z) : bool :=
  let idx := fst yx * w + snd yx in
  JS.Qlt_bool (o_motionThreshold p)
    (inject_Z (Z.abs (at_index cur idx - at_index prev idx))).

Definition changed_positions (p : Probe) (cur prev : list Z) : list (Z * Z) :=
  List.filter (changed_at p cur prev) positions.

(** The changed-pixel fraction. *)
Definition changed_fraction (p : Probe) (cur prev : list Z) : Q :=
  (inject_Z (Z.of_nat (length (changed_positions p cur prev))) / inject_Z total)%Q.

(** The grid cell a position falls in. *)
Definition cell_of (p : Probe) (yx : Z * Z) : option nat :=
  match cellCoord (o_gridX p) (w / o_gridX p) (snd yx),
        cellCoord (o_gridY p) (h / o_gridY p) (fst yx) with
  | Some cx, Some cy => Some (Z.to_nat (cy * o_gridX p + cx))
  | _, _ => None
  end.

Definition in_cell (p : Probe) (c : nat) (yx : Z * Z) : bool :=
  match cell_of p yx with Some c' => Nat.eqb c' c | None => false end.

(** How many of the positions of [l] changed and fall in cell [c]. *)
Definition count_in (p : Probe) (cur prev : list Z) (c : nat) (l : list (Z * Z)) : Z :=
  Z.of_nat (length (List.filter (fun yx => changed_at p cur prev yx && in_cell p c yx) l)).

(** A cell is active when its changed pixels outnumber the per-cell
    floor; this is the number of active cells of the grid. *)
Definition active_cells (p : Probe) (cur prev : list Z) : Z :=
  Z.of_nat (length (List.filter
    (fun c => cellThreshold (w / o_gridX p) (h / o_gridY p) <? count_in p cur prev c positions)
    (seq 0 (Z.to_nat (o_gridX p * o_gridY p))))).

(** ** The loops compute them *)

Lemma fold_left_map {A B C} (f : A -> B -> A) (g : C -> B) l a :
  fold_left f (map g l) a = fold_left (fun a c => f a (g c)) l a.
Proof. revert a. induction l as [|c l IH]; intros a; simpl; [reflexivity | apply IH]. Qed.

Lemma fold_left_flat_map {A B C} (f : A -> B -> A) (g : C -> list B) l a :
  fold_left f (flat_map g l) a = fold_left (fun a c => fold_left f (g c) a) l a.
Proof.
  revert a. induction l as [|c l IH]; intros a; simpl; [reflexivity|].
  rewrite fold_left_app. apply IH.
Qed.

Lemma fold_left_pointwise {A B} (f g : A -> B -> A) l a :
  (forall a b, f a b = g a b) -> fold_left f l a = fold_left g l a.
Proof.
  intros E. revert a. induction l as [|b l IH]; intros a; simpl; [reflexivity|].
  rewrite E. apply IH.
Qed.

Definition visit_at (p : Probe) (cur prev : list Z) (a : Tally) (yx : Z * Z) : Tally :=
  visit p cur prev (w / o_gridX p) (h / o_gridY p) (fst yx) (snd yx) a.

Lemma scan_positions p cur prev :
  scan p cur prev (w / o_gridX p) (h / o_gridY p)
  = fold_left (visit_at p cur prev) positions
      {| changed := 0; sumDiff := 0;
         cells := replicate (Z.to_nat (o_gridX p * o_gridY p)) 0 |}.
Proof.
  unfold scan, positions. rewrite fold_left_flat_map.
  apply fold_left_pointwise. intros a y. rewrite fold_left_map. reflexivity.
Qed.

Lemma visit_all p cur prev l a :
  let r := fold_left (visit_at p cur prev) l a in
  changed r = changed a + Z.of_nat (length (List.filter (changed_at p cur prev) l))
  /\ length (cells r) = length (cells a)
  /\ forall c, cells r !! c = (fun n => n + count_in p cur prev c l) <$> (cells a !! c).
Proof.
  revert a. induction l as [|yx l IH]; intros a.
  - simpl. split; [lia|]. split; [reflexivity|].
    intros c. unfold count_in. simpl. destruct (cells a !! c); simpl; f_equal; lia.
  - cbn zeta. change (fold_left (visit_at p cur prev) (yx :: l) a)
      with (fold_left (visit_at p cur prev) l (visit_at p cur prev a yx)).
    destruct (IH (visit_at p cur prev a yx)) as (Hc & Hl & Hk).
    rewrite Hc, Hl. clear IH Hc Hl.
    unfold count_in in *. simpl List.filter.
    unfold visit_at, visit in *. fold (changed_at p cur prev yx) in *.
    destruct (changed_at p cur prev yx) eqn:E; simpl.
    + split; [simpl; lia|]. split.
      * destruct (cellCoord (o_gridX p) (w / o_gridX p) yx.2),
                 (cellCoord (o_gridY p) (h / o_gridY p) yx.1);
          try reflexivity. apply length_alter.
      * intros c. rewrite Hk. clear Hk. unfold in_cell, cell_of.
        destruct (cellCoord (o_gridX p) (w / o_gridX p) yx.2) as [cx|],
                 (cellCoord (o_gridY p) (h / o_gridY p) yx.1) as [cy|];
          simpl; try (destruct (cells a !! c); simpl; f_equal; lia).
        rewrite list_lookup_alter.
        destruct (decide (Z.to_nat (cy * o_gridX p + cx) = c)) as [->|Hne].
        -- rewrite Nat.eqb_refl. simpl.
           destruct (cells a !! _); simpl; f_equal; lia.
        -- apply Nat.eqb_neq in Hne. rewrite Hne. simpl.
           destruct (cells a !! c); simpl; f_equal; lia.
    + split; [lia|]. split; [reflexivity|]. intros c. rewrite Hk. reflexivity.
Qed.

Lemma filter_map_length {A B} (P : B -> bool) (f : A -> B) l :
  length (List.filter P (map f l)) = length (List.filter (fun a => P (f a)) l).
Proof.
  induction l as [|a l IH]; simpl; [reflexivity|].
  destruct (P (f a)); simpl; congruence.
Qed.

(** The tallies of the nested loops are the changed-pixel count and the
    per-cell counts. *)
Lemma scan_tallies p cur prev :
  let t := scan p cur prev (w / o_gridX p) (h / o_gridY p) in
  changed t = Z.of_nat (length (changed_positions p cur prev))
  /\ cells t = map (fun c => count_in p cur prev c positions)
                   (seq 0 (Z.to_nat (o_gridX p * o_gridY p))).
Proof.
  cbn zeta. rewrite scan_positions.
  match goal with |- context [fold_left _ _ ?a0] => set (a := a0) end.
  destruct (visit_all p cur prev positions a) as (Hc & Hl & Hk).
  split.
  { rewrite Hc. unfold changed_positions. subst a. cbn [changed].
    apply Z.add_0_l. }
  apply list_eq. intros c. rewrite Hk. subst a. cbn [cells].
  rewrite list_lookup_fmap.
  destruct (decide (c < Z.to_nat (o_gridX p * o_gridY p))%nat) as [Hlt|Hge].
  - rewrite lookup_replicate_2 by exact Hlt.
    rewrite lookup_seq_lt by exact Hlt. simpl. reflexivity.
  - rewrite (lookup_ge_None_2 (replicate _ _)) by (rewrite length_replicate; lia).
    rewrite lookup_seq_ge by lia. reflexivity.
Qed.

(** One comparison of two buffers reports the band of the three-way
    rule on the changed-pixel fraction and the number of active cells. *)
Lemma compare_frames_band p cur prev :
  peopleBand (compare_frames p cur prev)
  = classify p (changed_fraction p cur prev) (active_cells p cur prev)
  /\ pixelsOk (compare_frames p cur prev) = true.
Proof.
  split; [|reflexivity].
  unfold compare_frames. cbn zeta. simpl peopleBand.
  destruct (scan_tallies p cur prev) as [Hc Hk]. cbn zeta in Hc, Hk.
  rewrite Hc, Hk. unfold changed_fraction, active_cells, activeCells.
  rewrite filter_map_length. reflexivity.
Qed.

(** ** Active cells need changed pixels *)

Definition sumZ (l : list Z) : Z := fold_right Z.add 0 l.




Lemma sumZ_map_le {A} (f g : A -> Z) l :
  (forall a, f a <= g a) -> sumZ (map f l) <= sumZ (map g l).
Proof.
  intros H. induction l as [|a l IH]; [reflexivity|].
  cbn [map sumZ fold_right]. fold (sumZ (map f l)). fold (sumZ (map g l)).
  specialize (H a). lia.
Qed.






End SceneProbeFacts.

Section SceneProbeClaims.
Import SceneProbe.

(** The callback gets past its three guards. *)
Definition reaches_read (p : Probe) (s : Sample) : bool :=
  ctx p && negb (readyState s <? 2)
  && negb ((videoWidth s =? 0) || (videoHeight s =? 0)).


Definition first_report : SceneProbeResult :=
  {| peopleBand := unknown; motion := 0; pixelsOk := true |}.



Lemma run_stopped sgs p :
  timer p = false -> snd (run sgs p) = [].
Proof.
  revert p. induction sgs as [|sg sgs IH]; intros p H; [reflexivity|].
  simpl. destruct sg as [s|]; simpl.
  - rewrite H. specialize (IH p H). destruct (run sgs p). exact IH.
  - specialize (IH (detach p) eq_refl). destruct (run sgs (detach p)). exact IH.
Qed.


Lemma tick_reads s p :
  reaches_read p s = true ->
  tick s p =
    match frame s with
    | None => (stop_sampling p, [emitUnknown 0])
    | Some data =>
        (set_last (grayscale data) p,
         [match last p with
          | None => first_report
          | Some l => compare_frames p (grayscale data) l
          end])
    end.
Proof.
  unfold reaches_read, tick. intros H.
  destruct (ctx p); [|discriminate].
  destruct (readyState s <? 2); [discriminate|].
  destruct ((videoWidth s =? 0) || (videoHeight s =? 0)); [discriminate|].
  cbn [negb]. destruct (frame s); [|reflexivity]. destruct (last p); reflexivity.
Qed.











End SceneProbeClaims.

(* ===================================================================== *)
(** * Pixel reads that throw                                               *)
(* ===================================================================== *)

Section InstrumentationFaults.

Lemma run_keeps_disabled os p :
  VideoProbe.pixelDisabled p = true ->
  VideoProbe.pixelDisabled (fst (VideoProbe.run os p)) = true.
Proof.
  revert p. induction os as [|o os IH]; intros p H; [exact H|].
  cbn [VideoProbe.run].
  pose proof (dispatch_keeps_disabled o p H) as K.
  destruct (VideoProbe.dispatch o p) as [p1 out1]. cbn [fst] in K.
  specialize (IH p1 K). destruct (VideoProbe.run os p1). exact IH.
Qed.

(** C7: a pixel read that throws is caught in both probes.  In the
    health monitor the sample that throws delivers nothing (so no
    [error] reading), leaves the health as it was and sets the disabling
    flag; the flag then stays set through every later history, along
    which the readings delivered are exactly those of the same history
    with its pixel samples taken out.  In the scene probe the sample that
    throws delivers the single report [unknown] with motion 0 and
    [pixelsOk = false], and no later history delivers anything. *)
Theorem pixel_read_failure_is_contained
    (hp : VideoProbe.Probe) (now : Z) (v : VideoProbe.Video)
    (sp : SceneProbe.Probe) (s : SceneProbe.Sample) :
  samples hp ->
  SceneProbe.timer sp = true ->
  reaches_read sp s = true ->
  SceneProbe.frame s = None ->
  let hp' := fst (VideoProbe.pixelTick None now v hp) in
  let sp' := fst (SceneProbe.dispatch (SceneProbe.Interval s) sp) in
  (snd (VideoProbe.pixelTick None now v hp) = []
   /\ VideoProbe.health hp' = VideoProbe.health hp
   /\ VideoProbe.pixelDisabled hp' = true
   /\ (forall os,
         VideoProbe.pixelDisabled (fst (VideoProbe.run os hp')) = true
         /\ VideoProbe.run os hp' = VideoProbe.run (without_pixel_samples os) hp'))
  /\ (snd (SceneProbe.dispatch (SceneProbe.Interval s) sp)
      = [{| SceneProbe.peopleBand := SceneProbe.unknown; SceneProbe.motion := 0;
            SceneProbe.pixelsOk := false |}]
      /\ SceneProbe.timer sp' = false
      /\ (forall sgs, snd (SceneProbe.run sgs sp') = [])).
Proof.
  intros Hs Ht Hg Hf hp' sp'.
  destruct (pixelTick_throw now v hp) as (E1 & E2 & E3).
  specialize (E3 Hs). fold hp' in E2, E3.
  split.
  - split; [exact E1|]. split; [exact E2|]. split; [exact E3|].
    intros os. split.
    + apply run_keeps_disabled. exact E3.
    + apply run_disabled_ignores_samples. exact E3.
  - assert (D : SceneProbe.dispatch (SceneProbe.Interval s) sp
                = (SceneProbe.stop_sampling sp, [SceneProbe.emitUnknown 0])).
    { cbn [SceneProbe.dispatch]. rewrite Ht, (tick_reads s sp Hg), Hf. reflexivity. }
    subst sp'. rewrite D. cbn [fst snd].
    split; [reflexivity|]. split; [reflexivity|].
    intros sgs. apply run_stopped. reflexivity.
Qed.

End InstrumentationFaults.

(* ===================================================================== *)
(** * Black frames                                                         *)
(* ===================================================================== *)

Section BlackFrames.
Import VideoProbe.

Definition idle_video : Video :=
  {| src := "/streams/patient_fall.mp4"; currentSrc := "/streams/patient_fall.mp4";
     networkState := 1; readyState := 4; paused := false; ended := false;
     currentTime := Some 0%Q; duration := Some 60%Q |}.

Definition dark_frame : list JS.Pixel :=
  replicate (Z.to_nat (w * h)) {| JS.red := 0; JS.green := 0; JS.blue := 0; JS.alpha := 255 |}.

Definition bright_frame : list JS.Pixel :=
  replicate (Z.to_nat (w * h))
    {| JS.red := 255; JS.green := 255; JS.blue := 255; JS.alpha := 255 |}.

Definition pixel_options : VideoProbeOptions :=
  {| frozenSeconds := Some 8; enablePixelProbe := Some true; sampleEveryMs := None;
     blackLumaThreshold := None; blackRatioThreshold := None;
     blackConsecutive := None; debug := Some false; tag := Some "cam-01" |}.

Definition sample_at (f : list JS.Pixel) (t : Z) : Occurrence :=
  {| signal := PixelTimer (Some f); at_ms := t; video := idle_video |}.

(** The probe after two dark samples in a row. *)
Definition after_two_dark : Probe * list StreamHealth :=
  run [sample_at dark_frame 800; sample_at dark_frame 1600]
      (fst (attachVideoProbe idle_video 0 true pixel_options)).

(** The sample's ratio of dark pixels reaches the threshold. *)
Definition dark (p : Probe) (img : list JS.Pixel) : Prop :=
  (o_blackRatioThreshold p <= blackRatio (o_blackLumaThreshold p) img)%Q.

Definition dark_sample (p : Probe) (o : Occurrence) : Prop :=
  exists img, signal o = PixelTimer (Some img) /\ dark p img.

Lemma emit_keeps_blackStreak next p :
  blackStreak (fst (emit next p)) = blackStreak p.
Proof.
  unfold emit. destruct (disposed p); [reflexivity|].
  match goal with |- context [if ?c then _ else _] => destruct c end; reflexivity.
Qed.

(** A bright sample taken in state [ok] resets the streak. *)
Lemma bright_sample_resets_streak img now v p :
  samples p -> ~ dark p img ->
  blackStreak (fst (pixelTick (Some img) now v p)) = 0.
Proof.
  intros (Hd & He & Hx & Hc & Hs) Hb. unfold pixelTick.
  rewrite Hd, He, Hx, Hc. cbn [negb].
  rewrite bool_decide_eq_true_2 by exact Hs. cbn [negb].
  apply Qle_bool_false_iff in Hb. unfold dark in Hb. rewrite Hb.
  cbn [set_blackStreak health].
  rewrite bool_decide_eq_false_2 by (rewrite Hs; discriminate).
  match goal with |- context [if ?c then _ else _] => destruct c end.
  - match goal with
    | |- context [emit ?n ?q] =>
        pose proof (emit_keeps_blackStreak n q) as K; destruct (emit n q)
    end.
    cbn [fst] in *. exact K.
  - reflexivity.
Qed.

(** Dark samples in a row, as many as are still missing to
    [blackConsecutive], take the health from [ok] to [black]. *)
Lemma dark_samples_give_black os p :
  samples p -> pixelTick_timer p = true ->
  Forall (dark_sample p) os -> os <> [] ->
  blackStreak p + Z.of_nat (length os) = o_blackConsecutive p ->
  state (health (fst (run os p))) = black.
Proof.
  revert p. induction os as [|o os IH]; intros p Hs Ht Hall Hne Hlen; [congruence|].
  apply Forall_cons in Hall as [(img & Ho & Hdark) Hall].
  destruct Hs as (Hd & He & Hx & Hc & Hok).
  assert (Step : dispatch o p =
                 (let p1 := set_blackStreak (blackStreak p + 1) p in
                  if o_blackConsecutive p1 <=? blackStreak p1
                  then emit {| state := black; sinceMs := at_ms o;
                               reason := "black_ratio_"
                                 +:+ JS.toFixed2 (blackRatio (o_blackLumaThreshold p) img);
                               details := Some (ratioDetails
                                 (blackRatio (o_blackLumaThreshold p) img) (video o)) |} p1
                  else (p1, []))).
  { unfold dispatch. rewrite Ho, Ht. unfold pixelTick.
    rewrite Hd, He, Hx, Hc. cbn [negb].
    rewrite bool_decide_eq_true_2 by exact Hok. cbn [negb].
    apply Qle_bool_iff in Hdark. rewrite Hdark. cbv zeta.
    match goal with |- context [if ?c then _ else _] => destruct c end.
    - match goal with |- context [emit ?n ?q] => destruct (emit n q) end. reflexivity.
    - reflexivity. }
  cbn [run]. rewrite Step. clear Step. cbv zeta.
  cbn [set_blackStreak o_blackConsecutive blackStreak].
  destruct os as [|o' os].
  - cbn [length] in Hlen.
    replace (o_blackConsecutive p <=? blackStreak p + 1) with true
      by (symmetry; apply Z.leb_le; lia).
    unfold emit. cbn [disposed health set_blackStreak]. rewrite Hd, Hok.
    reflexivity.
  - cbn [length] in Hlen.
    replace (o_blackConsecutive p <=? blackStreak p + 1) with false
      by (symmetry; apply Z.leb_gt; lia).
    specialize (IH (set_blackStreak (blackStreak p + 1) p)).
    destruct (run (o' :: os) (set_blackStreak (blackStreak p + 1) p)) as [p2 out2].
    cbn [fst] in *. apply IH.
    + repeat split; assumption.
    + exact Ht.
    + exact Hall.
    + discriminate.
    + cbn [set_blackStreak blackStreak o_blackConsecutive length]. lia.
Qed.

(** C2: two dark samples in a row take the health to [black], with one
    reading delivered; the bright sample that follows finds the health
    other than [ok], returns at that guard, and delivers nothing: the
    health stays [black] and the streak is not reset. *)
Lemma black_is_not_left_by_a_bright_sample :
  state (health (fst after_two_dark)) = black
  /\ map state (snd after_two_dark) = [black]
  /\ blackRatio 18 bright_frame == 0
  /\ dispatch (sample_at bright_frame 2400) (fst after_two_dark)
     = (fst after_two_dark, [])
  /\ blackStreak (fst after_two_dark) = 2.
Proof.
  assert (E1 : state (health (fst after_two_dark)) = black) by (vm_compute; reflexivity).
  split; [exact E1|].
  split; [vm_compute; reflexivity|].
  split; [vm_compute; reflexivity|].
  split; [|vm_compute; reflexivity].
  unfold dispatch, sample_at. cbn [signal at_ms video].
  replace (pixelTick_timer (fst after_two_dark)) with true by (vm_compute; reflexivity).
  apply pixelTick_skips_unless_ok. rewrite E1. discriminate.
Qed.

End BlackFrames.

(* ===================================================================== *)
(** * Sorting with a comparator                                            *)
(* ===================================================================== *)

Section ArraySort.
Context {A : Type} (cmp : A -> A -> Q) (before : A -> A -> Prop).

(** The comparator decides an ordering [before] that is transitive. *)
Hypothesis cmp_neg : forall a b, JS.Qlt_bool (cmp a b) 0 = true -> before a b.
Hypothesis cmp_not_neg : forall a b, JS.Qlt_bool (cmp a b) 0 = false -> before b a.
Hypothesis before_trans : forall a b c, before a b -> before b c -> before a c.

Lemma insert_sorted_perm a l : Permutation (a :: l) (JS.insert_sorted cmp a l).
Proof.
  induction l as [|b l IH]; cbn [JS.insert_sorted]; [reflexivity|].
  destruct (JS.Qlt_bool (cmp a b) 0); [reflexivity|].
  rewrite <- IH. apply perm_swap.
Qed.

Lemma insert_sorted_strongly a l :
  StronglySorted before l -> StronglySorted before (JS.insert_sorted cmp a l).
Proof.
  induction 1 as [|b l Hs IH Hb]; cbn [JS.insert_sorted].
  - repeat constructor.
  - destruct (JS.Qlt_bool (cmp a b) 0) eqn:E.
    + constructor; [constructor; assumption|].
      constructor; [apply cmp_neg; exact E|].
      eapply Forall_impl; [exact Hb|]. intros c Hc.
      eapply before_trans; [apply cmp_neg; exact E | exact Hc].
    + constructor; [exact IH|].
      eapply Permutation_Forall; [apply insert_sorted_perm|].
      constructor; [apply cmp_not_neg; exact E | exact Hb].
Qed.

Lemma fold_insert_sorted l acc :
  StronglySorted before acc ->
  StronglySorted before (fold_left (fun acc a => JS.insert_sorted cmp a acc) l acc)
  /\ Permutation (acc ++ l) (fold_left (fun acc a => JS.insert_sorted cmp a acc) l acc).
Proof.
  revert acc. induction l as [|a l IH]; intros acc Hs; cbn [fold_left].
  - rewrite app_nil_r. split; [exact Hs | reflexivity].
  - destruct (IH (JS.insert_sorted cmp a acc) (insert_sorted_strongly a acc Hs))
      as [IH1 IH2].
    split; [exact IH1|]. rewrite <- IH2, <- insert_sorted_perm.
    symmetry. apply Permutation_middle.
Qed.

Lemma Array_sort_sorted l :
  StronglySorted before (JS.Array_sort cmp l) /\ Permutation l (JS.Array_sort cmp l).
Proof.
  unfold JS.Array_sort.
  destruct (fold_insert_sorted l [] (SSorted_nil _)) as [H1 H2].
  split; assumption.
Qed.

Lemma StronglySorted_pairs (l : list A) i j a b :
  StronglySorted before l -> (i < j)%nat ->
  l !! i = Some a -> l !! j = Some b -> before a b.
Proof.
  intros Hs. revert i j. induction Hs as [|c l Hs IH Hc]; intros i j Hij Hi Hj.
  - discriminate.
  - destruct j as [|j]; [lia|]. rewrite lookup_cons in Hj.
    destruct i as [|i].
    + rewrite lookup_cons in Hi. injection Hi as <-.
      rewrite Forall_forall in Hc. apply Hc.
      eapply list_elem_of_lookup_2. exact Hj.
    + rewrite lookup_cons in Hi. apply (IH i j); [lia | assumption | assumption].
Qed.

End ArraySort.

(* ===================================================================== *)
(** * Properties of the incident list                                      *)
(* ===================================================================== *)

Section Inbox.
Import Types App.

(** [a] may stand in front of [b] in the inbox. *)
Definition inbox_before (a b : Incident) : Prop :=
  (acked a = true -> acked b = true)
  /\ (acked a = acked b -> severityRank (severity b) <= severityRank (severity a))
  /\ (acked a = acked b -> severityRank (severity a) = severityRank (severity b) ->
      createdAt b <= createdAt a).

Lemma Qlt_bool_inject_Z z : JS.Qlt_bool (inject_Z z) 0 = (z <? 0).
Proof.
  unfold JS.Qlt_bool, Qle_bool. cbn [Qnum Qden inject_Z].
  rewrite !Z.mul_1_r. symmetry. apply Z.ltb_antisym.
Qed.

Lemma sortInbox_cmp_neg a b :
  JS.Qlt_bool (sortInbox_cmp a b) 0 = true -> inbox_before a b.
Proof.
  unfold sortInbox_cmp, inbox_before.
  destruct (acked a), (acked b); cbn [Bool.eqb negb];
    try (intros H; vm_compute in H; discriminate);
    try (intros _; repeat split; intros; congruence).
  all: destruct (severityRank (severity b) - severityRank (severity a) =? 0) eqn:E;
    cbn [negb]; rewrite Qlt_bool_inject_Z; intros H;
    apply Z.ltb_lt in H;
    [apply Z.eqb_eq in E | apply Z.eqb_neq in E];
    repeat split; intros; lia.
Qed.

Lemma sortInbox_cmp_not_neg a b :
  JS.Qlt_bool (sortInbox_cmp a b) 0 = false -> inbox_before b a.
Proof.
  unfold sortInbox_cmp, inbox_before.
  destruct (acked a), (acked b); cbn [Bool.eqb negb];
    try (intros H; vm_compute in H; discriminate);
    try (intros _; repeat split; intros; congruence).
  all: destruct (severityRank (severity b) - severityRank (severity a) =? 0) eqn:E;
    cbn [negb]; rewrite Qlt_bool_inject_Z; intros H;
    apply Z.ltb_ge in H;
    [apply Z.eqb_eq in E | apply Z.eqb_neq in E];
    repeat split; intros; lia.
Qed.

Lemma inbox_before_trans a b c :
  inbox_before a b -> inbox_before b c -> inbox_before a c.
Proof.
  unfold inbox_before. intros (A1 & A2 & A3) (B1 & B2 & B3).
  destruct (acked a), (acked b), (acked c);
    repeat split; intros; try congruence; try lia;
    try (specialize (A1 eq_refl); discriminate);
    try (specialize (B1 eq_refl); discriminate).
  all: specialize (A2 eq_refl); specialize (B2 eq_refl);
    try lia; assert (Hab : severityRank (severity a) = severityRank (severity b)) by lia;
    assert (Hbc : severityRank (severity b) = severityRank (severity c)) by lia;
    specialize (A3 eq_refl Hab); specialize (B3 eq_refl Hbc); lia.
Qed.

(** C5: [sortInbox] returns the same incidents in an order where, of any
    two, the one in front is unacknowledged if either is; with the same
    acknowledged flag it has the rank of severity that is not lower
    (none < watch < risk < critical); with the same flag and rank it was
    created no earlier.  In particular an unacknowledged watch incident
    comes in front of an acknowledged critical one. *)
Theorem sortInbox_orders_inbox (incidents : list Incident) :
  Permutation incidents (sortInbox incidents)
  /\ (forall i j a b,
        (i < j)%nat ->
        sortInbox incidents !! i = Some a -> sortInbox incidents !! j = Some b ->
        (acked a = true -> acked b = true)
        /\ (acked a = acked b ->
            severityRank (severity b) <= severityRank (severity a))
        /\ (acked a = acked b ->
            severityRank (severity a) = severityRank (severity b) ->
            createdAt b <= createdAt a))
  /\ (severityRank none < severityRank watch
      /\ severityRank watch < severityRank risk
      /\ severityRank risk < severityRank critical)
  /\ (forall x y,
        acked x = true -> severity x = critical ->
        acked y = false -> severity y = watch ->
        sortInbox [x; y] = [y; x] /\ sortInbox [y; x] = [y; x]).
Proof.
  destruct (Array_sort_sorted sortInbox_cmp inbox_before
              sortInbox_cmp_neg sortInbox_cmp_not_neg inbox_before_trans incidents)
    as [Hs Hp].
  split; [exact Hp|]. split.
  - intros i j a b Hij Hi Hj.
    exact (StronglySorted_pairs inbox_before _ i j a b Hs Hij Hi Hj).
  - split; [repeat split|].
    intros x y Hx Sx Hy Sy.
    unfold sortInbox, JS.Array_sort. cbn [fold_left JS.insert_sorted].
    unfold sortInbox_cmp. rewrite Hx, Hy. cbn [Bool.eqb negb].
    split; reflexivity.
Qed.

End Inbox.

Section IncidentUpsert.
Import Types App.
Variable makeFrame : string -> IncidentType -> string -> string.

(** What identifies an active incident. *)
Definition key (i : Incident) : string * IncidentType := (cameraId i, type i).

(** At most one incident for each camera and type. *)
Definition one_per_key (l : list Incident) : Prop := NoDup (map key l).

Lemma same_key_iff a b : same_key a b = true <-> key a = key b.
Proof.
  unfold same_key, key. rewrite andb_true_iff, String.eqb_eq, bool_decide_eq_true.
  split; [intros [-> ->]; reflexivity | intros E; injection E; auto].
Qed.

Lemma findIndex_first {A} (f : A -> bool) l i x :
  l !! i = Some x -> f x = true ->
  exists j y, JS.findIndex f l = Some j /\ (j <= i)%nat /\ l !! j = Some y /\ f y = true.
Proof.
  revert i. induction l as [|a l IH]; intros i Hi Hf; [discriminate|].
  cbn [JS.findIndex]. destruct (f a) eqn:E.
  - exists 0%nat, a. repeat split; [lia | assumption].
  - destruct i as [|i]; [rewrite lookup_cons in Hi; congruence|].
    rewrite lookup_cons in Hi.
    destruct (IH i Hi Hf) as (j & y & H1 & H2 & H3 & H4).
    exists (S j), y. rewrite H1. repeat split; [lia | assumption | assumption].
Qed.


Lemma findIndex_some {A} (f : A -> bool) l j :
  JS.findIndex f l = Some j -> exists y, l !! j = Some y /\ f y = true.
Proof.
  revert j. induction l as [|a l IH]; cbn [JS.findIndex]; intros j H; [discriminate|].
  destruct (f a) eqn:E.
  - injection H as <-. exists a. split; [reflexivity | exact E].
  - destruct (JS.findIndex f l) as [k|]; [|discriminate].
    injection H as <-. destruct (IH k eq_refl) as (y & H1 & H2).
    exists y. split; assumption.
Qed.


(** [upsertIncident] where the list already holds the key at [idx]. *)
Lemma upsertIncident_existing next now prev idx existing :
  one_per_key prev -> prev !! idx = Some existing -> key existing = key next ->
  upsertIncident next now prev = <[idx := merged existing next now]> prev.
Proof.
  intros Hu Hi Hk. unfold upsertIncident.
  destruct (findIndex_first (fun p => same_key p next) prev idx existing Hi)
    as (j & y & H1 & H2 & H3 & H4); [apply same_key_iff; exact Hk|].
  apply same_key_iff in H4.
  assert (j = idx) as ->.
  { eapply (NoDup_lookup (map key prev)); [exact Hu | |].
    - rewrite list_lookup_fmap, H3. cbn. rewrite H4. reflexivity.
    - rewrite list_lookup_fmap, Hi. cbn. rewrite Hk. reflexivity. }
  rewrite H1, Hi. reflexivity.
Qed.









End IncidentUpsert.

(* ===================================================================== *)
(** * Properties of the fall heuristic                                     *)
(* ===================================================================== *)

Section Reasons.

(** Some reason of the list starts with [tag]. *)
Definition has_reason (tag : string) (rs : list string) : Prop :=
  existsb (String.prefix tag) rs = true.

Lemma prefix_append (s t : string) : String.prefix s (s +:+ t) = true.
Proof.
  induction s as [|c s IH]; [destruct t; reflexivity|].
  change (String c s +:+ t) with (String c (s +:+ t)).
  cbn [String.prefix]. destruct (ascii_dec c c); [exact IH | congruence].
Qed.

Lemma has_reason_here tag rest rs : has_reason tag ((tag +:+ rest) :: rs).
Proof. unfold has_reason. cbn [existsb]. rewrite prefix_append. reflexivity. Qed.


End Reasons.

Section LargestBox.

Lemma area_cmp_neg (a b : Coco.Box) :
  JS.Qlt_bool (Coco.area b - Coco.area a) 0 = true -> (Coco.area b <= Coco.area a)%Q.
Proof.
  intros H. apply Qlt_bool_iff in H. apply Qlt_le_weak.
  apply (Qplus_lt_l _ _ (- Coco.area a)). rewrite Qplus_opp_r. exact H.
Qed.

Lemma area_cmp_not_neg (a b : Coco.Box) :
  JS.Qlt_bool (Coco.area b - Coco.area a) 0 = false -> (Coco.area a <= Coco.area b)%Q.
Proof.
  intros H. apply Qlt_bool_false_iff in H. apply Qnot_lt_le in H.
  apply (Qplus_le_l _ _ (- Coco.area a)). rewrite Qplus_opp_r. exact H.
Qed.


End LargestBox.

Section MathFacts.



End MathFacts.

Section VideoTileFall.
Import VideoTile.

Definition track_of (r : Track * Fall * Q) : Track := fst (fst r).
Definition fall_of (r : Track * Fall * Q) : Fall := snd (fst r).








Lemma in_tag_calls id id' c cs :
  (id, c) ∈ tag_calls id' cs -> id' = id /\ c ∈ cs.
Proof.
  unfold tag_calls. intros H. apply list_elem_of_fmap in H as (c' & E & Hin).
  injection E as -> ->. split; [reflexivity | exact Hin].
Qed.



End VideoTileFall.

Section AIProbeFall.
Import AIProbe.









End AIProbeFall.

Section FallClaim.


(** The fall states and reasons that a log of calls announces, in order. *)
Definition announced (log : list (nat * VideoTile.Call))
  : list (VideoTile.AIFallState * list string) :=
  flat_map (fun ic => match snd ic with
                      | VideoTile.SetAi (VideoTile.Put a) =>
                          [(VideoTile.state (VideoTile.fall a),
                            VideoTile.reasons (VideoTile.fall a))]
                      | _ => []
                      end) log.

(** ** A patient feed: three samples *)

Definition patient_config : VideoTile.Config :=
  {| VideoTile.canReadPixels := true; VideoTile.looksLikePatient := true;
     VideoTile.isWebcam := false; VideoTile.cfg_health_ok := true;
     VideoTile.cfg_ctx := true |}.

Definition frame_at (t : Z) : VideoTile.Frame :=
  {| VideoTile.videoWidth := 640; VideoTile.videoHeight := 360;
     VideoTile.readyState := 4; VideoTile.now0 := t |}.

Definition person (x y w h : Q) : Coco.Detection :=
  {| Coco.class := "person"; Coco.score := Some 0.9%Q; Coco.bbox := (x, y, w, h) |}.

(** Upright at the top, upright half a box lower, then lying with the
    same centre. *)
Definition standing : Coco.Detection := person 100 0 50 100.
Definition dropped : Coco.Detection := person 100 50 50 100.
Definition lying : Coco.Detection := person 50 75 100 50.

(** The wall after the first two samples and the start of the third
    tick: the second sample was a drop, at clock 700. *)
Definition before_third_sample : VideoTile.Wall * list (nat * VideoTile.Call) :=
  VideoTile.run
    [VideoTile.Mount 0 patient_config (frame_at 0);
     VideoTile.ModelLoaded 0;
     VideoTile.DetectSettles 0 (VideoTile.Detected [standing]) 100;
     VideoTile.TimerFires 0 (frame_at 650);
     VideoTile.ModelLoaded 0;
     VideoTile.DetectSettles 0 (VideoTile.Detected [dropped]) 700;
     VideoTile.TimerFires 0 (frame_at 1800);
     VideoTile.ModelLoaded 0]
    VideoTile.empty_wall.

(** A closure variable of effect [id], read off the wall. *)
Definition peek {A} (f : VideoTile.Tile -> A) (wl : VideoTile.Wall) (id : nat)
  : option A :=
  f <$> VideoTile.tiles wl !! id.





(** The same feed with the box turning between upright and lying at
    every sample while its centre stays where the drop left it: the
    motion is zero from clock 700 to clock 3050 with the stillness timer
    running all along, and no tick announces [critical], since every flip
    restarts the timer. *)
Lemma alternating_posture_never_confirms :
  announced
    (snd (VideoTile.run
            [VideoTile.DetectSettles 0 (VideoTile.Detected [lying]) 1850;
             VideoTile.TimerFires 0 (frame_at 2400);
             VideoTile.ModelLoaded 0;
             VideoTile.DetectSettles 0 (VideoTile.Detected [dropped]) 2450;
             VideoTile.TimerFires 0 (frame_at 3000);
             VideoTile.ModelLoaded 0;
             VideoTile.DetectSettles 0 (VideoTile.Detected [lying]) 3050]
            (fst before_third_sample)))
  = [(VideoTile.risk, ["posture_flip"]);
     (VideoTile.none, []);
     (VideoTile.risk, ["posture_flip"])].
Proof. vm_compute. reflexivity. Qed.


End FallClaim.

(* ===================================================================== *)
(** * The shared inference slot                                            *)
(* ===================================================================== *)

Section InferenceSlot.
Import VideoTile.

(** Effect [id] is suspended inside [withAiLock], its inference call
    running. *)
Definition flying (wl : Wall) (id : nat) : Prop :=
  exists t, tiles wl !! id = Some t /\ in_flight t = true.

Definition slot_invariant (wl : Wall) : Prop :=
  (forall i j, flying wl i -> flying wl j -> i = j)
  /\ (aiBusy wl = true <-> exists i, flying wl i).

Lemma flying_put id t b wl j :
  flying (put_tile id t b wl) j
  <-> (j = id /\ in_flight t = true) \/ (j <> id /\ flying wl j).
Proof.
  unfold flying. cbn [put_tile tiles]. split.
  - intros (t' & Hl & Hf). destruct (decide (j = id)) as [->|Hne].
    + rewrite lookup_insert_eq in Hl. injection Hl as <-. left. split; [reflexivity | exact Hf].
    + rewrite lookup_insert_ne in Hl by congruence. right. split; [exact Hne|].
      exists t'. split; assumption.
  - intros [[-> Hf] | [Hne (t' & Hl & Hf)]].
    + exists t. split; [apply lookup_insert_eq | exact Hf].
    + exists t'. split; [rewrite lookup_insert_ne by congruence; exact Hl | exact Hf].
Qed.

Lemma tick_begin_not_flying f t : in_flight (fst (tick_begin f t)) = false.
Proof.
  unfold tick_begin.
  destruct (stopped t); [reflexivity|].
  destruct (negb (ctx t) || (videoWidth f =? 0) || (videoHeight f =? 0)
            || (readyState f <? 2)); [reflexivity|].
  destruct (negb (health_ok t)); [reflexivity|].
  destruct (now0 f <? cooldownUntil (track t)); reflexivity.
Qed.

Lemma tick_finish_not_flying ds now outH t :
  in_flight (fst (tick_finish ds now outH t)) = false.
Proof.
  unfold tick_finish.
  destruct (Coco.people (minScore t) ds) as [|p rest].
  - reflexivity.
  - destruct (trackPerson now outH p (track t)) as [[tr fl] m]. reflexivity.
Qed.

(** Replacing a tile that is not in flight by one that is not either
    changes nothing for the slot. *)
Lemma slot_invariant_put_idle id t t' wl :
  tiles wl !! id = Some t -> in_flight t = false -> in_flight t' = false ->
  slot_invariant wl -> slot_invariant (put_tile id t' (aiBusy wl) wl).
Proof.
  intros Hl Hf Hf' [U B].
  assert (Same : forall j, flying (put_tile id t' (aiBusy wl) wl) j <-> flying wl j).
  { intros j. rewrite flying_put. split.
    - intros [[_ K] | [_ K]]; [congruence | exact K].
    - intros K. right. split; [|exact K].
      intros ->. destruct K as (t0 & L0 & F0). congruence. }
  split.
  - intros i j Hi Hj. apply U; apply Same; assumption.
  - cbn [put_tile aiBusy]. rewrite B. split; intros [i Hi]; exists i; apply Same; exact Hi.
Qed.

Lemma slot_invariant_put_fresh id t' wl :
  tiles wl !! id = None -> in_flight t' = false ->
  slot_invariant wl -> slot_invariant (put_tile id t' (aiBusy wl) wl).
Proof.
  intros Hl Hf' [U B].
  assert (Same : forall j, flying (put_tile id t' (aiBusy wl) wl) j <-> flying wl j).
  { intros j. rewrite flying_put. split.
    - intros [[_ K] | [_ K]]; [congruence | exact K].
    - intros K. right. split; [|exact K].
      intros ->. destruct K as (t0 & L0 & F0). congruence. }
  split.
  - intros i j Hi Hj. apply U; apply Same; assumption.
  - cbn [put_tile aiBusy]. rewrite B. split; intros [i Hi]; exists i; apply Same; exact Hi.
Qed.

Lemma step_keeps_slot_invariant a wl :
  slot_invariant wl -> slot_invariant (fst (step a wl)).
Proof.
  intros Inv. destruct a as [id cfg f | id f | id | id o now | id]; cbn [step].
  - destruct (tiles wl !! id) eqn:Hl; [exact Inv|].
    destruct (startEffect cfg) as [[t0|] cs]; [|exact Inv].
    pose proof (tick_begin_not_flying f t0) as Hf.
    destruct (tick_begin f t0) as [t1 cs1]. cbn [fst] in *.
    apply slot_invariant_put_fresh; assumption.
  - destruct (tiles wl !! id) as [t|] eqn:Hl; [|exact Inv].
    destruct (phase t) eqn:Hp; try exact Inv.
    destruct (pending t); [|exact Inv].
    pose proof (tick_begin_not_flying f t) as Hf.
    destruct (tick_begin f t) as [t1 cs1]. cbn [fst] in *.
    eapply slot_invariant_put_idle; try eassumption.
    unfold in_flight. rewrite Hp. reflexivity.
  - destruct (tiles wl !! id) as [t|] eqn:Hl; [|exact Inv].
    destruct (phase t) eqn:Hp; try exact Inv.
    unfold withAiLock_enter. destruct (aiBusy wl) eqn:Hb; cbn [fst].
    + rewrite <- Hb. eapply slot_invariant_put_idle; try eassumption.
      * unfold in_flight. rewrite Hp. reflexivity.
      * reflexivity.
    + destruct Inv as [U B]. rewrite Hb in B.
      assert (None_flying : forall j, ~ flying wl j).
      { intros j Hj. assert (false = true) by (apply B; exists j; exact Hj). discriminate. }
      split.
      * intros i j Hi Hj. apply flying_put in Hi, Hj.
        destruct Hi as [[-> _] | [_ Hi]]; [|destruct (None_flying _ Hi)].
        destruct Hj as [[-> _] | [_ Hj]]; [reflexivity | destruct (None_flying _ Hj)].
      * cbn [put_tile aiBusy]. split; [|reflexivity].
        intros _. exists id. apply flying_put. left. split; reflexivity.
  - destruct (tiles wl !! id) as [t|] eqn:Hl; [|exact Inv].
    destruct (phase t) eqn:Hp; try exact Inv.
    destruct Inv as [U B].
    assert (Fid : flying wl id).
    { exists t. split; [exact Hl|]. unfold in_flight. rewrite Hp. reflexivity. }
    assert (Land : forall t', in_flight t' = false ->
              slot_invariant (put_tile id t' (withAiLock_finally (aiBusy wl)) wl)).
    { intros t' Hf'. split.
      - intros i j Hi Hj. apply flying_put in Hi, Hj.
        destruct Hi as [[_ Hi] | [_ Hi]]; [congruence|].
        destruct Hj as [[_ Hj] | [_ Hj]]; [congruence|]. apply U; assumption.
      - cbn [put_tile aiBusy]. unfold withAiLock_finally. split; [discriminate|].
        intros [j Hj]. apply flying_put in Hj.
        destruct Hj as [[_ Hj] | [Hne Hj]]; [congruence|].
        destruct Hne. apply U; assumption. }
    destruct o as [ds|].
    + pose proof (tick_finish_not_flying ds now outH t) as Hf.
      destruct (tick_finish ds now outH t) as [t1 cs]. cbn [fst] in *.
      apply Land. exact Hf.
    + cbn [fst]. apply Land. reflexivity.
  - destruct (tiles wl !! id) as [t|] eqn:Hl; [|exact Inv].
    cbn [fst]. destruct (in_flight t) eqn:Hf.
    + destruct Inv as [U B].
      assert (Fid : flying wl id) by (exists t; split; assumption).
      assert (Same : forall j, flying (put_tile id (cleanup t) (aiBusy wl) wl) j
                               <-> flying wl j).
      { intros j. rewrite flying_put. split.
        - intros [[-> _] | [_ K]]; [exact Fid | exact K].
        - intros K. destruct (decide (j = id)) as [->|Hne];
            [left; split; [reflexivity | exact Hf] | right; split; assumption]. }
      split.
      * intros i j Hi Hj. apply U; apply Same; assumption.
      * cbn [put_tile aiBusy]. rewrite B.
        split; intros [i Hi]; exists i; apply Same; exact Hi.
    + eapply slot_invariant_put_idle; eassumption.
Qed.

Lemma run_keeps_slot_invariant acts wl :
  slot_invariant wl -> slot_invariant (fst (run acts wl)).
Proof.
  revert wl. induction acts as [|a acts IH]; intros wl Inv; [exact Inv|].
  cbn [run]. pose proof (step_keeps_slot_invariant a wl Inv) as K.
  destruct (step a wl) as [w1 out1]. cbn [fst] in K.
  specialize (IH w1 K). destruct (run acts w1). exact IH.
Qed.

Lemma empty_wall_slot_invariant : slot_invariant empty_wall.
Proof.
  split.
  - intros i j (t & Hl & _). cbn in Hl. rewrite lookup_empty in Hl. discriminate.
  - cbn [empty_wall aiBusy]. split; [discriminate|].
    intros (i & t & Hl & _). cbn in Hl. rewrite lookup_empty in Hl. discriminate.
Qed.

(** C9: on every wall reached from the empty page, at most one effect
    is inside its inference call, and the busy flag is set exactly while
    one is.  An effect that comes to the slot while the flag is set ends
    its tick there: it does not enter the call, its tracking variables
    are the ones it had, it makes no call on the component, the flag
    stays as it was, and its next tick is scheduled.  When the inference
    call of an effect settles, with detections or by throwing, the flag
    is cleared. *)
Theorem one_inference_at_a_time :
  (forall acts,
      let wl := fst (run acts empty_wall) in
      (forall i j, flying wl i -> flying wl j -> i = j)
      /\ (aiBusy wl = true <-> exists i, flying wl i))
  /\ (forall wl id t outH,
        tiles wl !! id = Some t -> phase t = AwaitModel outH -> aiBusy wl = true ->
        exists t',
          step (ModelLoaded id) wl = (put_tile id t' true wl, [])
          /\ in_flight t' = false /\ track t' = track t
          /\ pending t' = true /\ phase t' = Idle)
  /\ (forall wl id t outH o now,
        tiles wl !! id = Some t -> phase t = InFlight outH ->
        aiBusy (fst (step (DetectSettles id o now) wl)) = false).
Proof.
  split; [|split].
  - intros acts wl. exact (run_keeps_slot_invariant acts empty_wall empty_wall_slot_invariant).
  - intros wl id t outH Hl Hp Hb.
    exists (update (track t) Idle true t).
    cbn [step]. rewrite Hl, Hp, Hb. cbn [withAiLock_enter].
    repeat split.
  - intros wl id t outH o now Hl Hp. cbn [step]. rewrite Hl, Hp.
    destruct o as [ds|]; [destruct (tick_finish ds now outH t)|]; reflexivity.
Qed.

End InferenceSlot.

(* ===================================================================== *)
(** * Detaching                                                            *)
(* ===================================================================== *)

Section Detaching.

(** After detach the health monitor holds no listener and no interval,
    and whatever happens next it delivers nothing. *)
Lemma detached_health_monitor_is_silent p os :
  let d := VideoProbe.detach p in
  VideoProbe.listeners d = false
  /\ VideoProbe.frozenTick_timer d = false
  /\ VideoProbe.pixelTick_timer d = false
  /\ snd (VideoProbe.run os d) = [].
Proof.
  cbv zeta. repeat split.
  assert (G : forall q, VideoProbe.listeners q = false ->
                        VideoProbe.frozenTick_timer q = false ->
                        VideoProbe.pixelTick_timer q = false ->
                        snd (VideoProbe.run os q) = []).
  { induction os as [|o os IH]; intros q L F P; [reflexivity|].
    cbn [VideoProbe.run]. unfold VideoProbe.dispatch. rewrite L, F, P.
    destruct (VideoProbe.signal o);
      try (specialize (IH q L F P); destruct (VideoProbe.run os q); exact IH).
    specialize (IH (VideoProbe.detach q) eq_refl eq_refl eq_refl).
    destruct (VideoProbe.run os (VideoProbe.detach q)). exact IH. }
  apply G; reflexivity.
Qed.

(** After detach the scene probe holds no interval and delivers nothing. *)
Lemma detached_scene_probe_is_silent p sgs :
  SceneProbe.timer (SceneProbe.detach p) = false
  /\ snd (SceneProbe.run sgs (SceneProbe.detach p)) = [].
Proof. split; [reflexivity | apply run_stopped; reflexivity]. Qed.

Definition ready_frame : AIProbe.Frame :=
  {| AIProbe.videoWidth := 640; AIProbe.videoHeight := 360;
     AIProbe.drawImage_error := None |}.

(** The behavioural probe of aiProbe.ts, detached while its first
    detection is in flight. *)
Definition detached_in_flight : AIProbe.Probe * list AIProbe.AIProbeResult :=
  AIProbe.run [AIProbe.TimerFires ready_frame 0; AIProbe.Detach]
              (AIProbe.attachAIProbe true AIProbe.no_options).

(** The AI effect of a tile, cleaned up while its first detection is in
    flight. *)
Definition cleaned_up_in_flight : VideoTile.Wall * list (nat * VideoTile.Call) :=
  VideoTile.run
    [VideoTile.Mount 0 patient_config (frame_at 0);
     VideoTile.ModelLoaded 0;
     VideoTile.Cleanup 0]
    VideoTile.empty_wall.

(** C8: in both behavioural detectors the flag that detach sets is read
    only at the start of a tick.  With a detection in flight at detach
    time, nothing has been delivered yet, the flag is set, and when the
    detection settles the tick goes on to its end: aiProbe.ts calls
    [onResult] once more, VideoTile.tsx calls [setAi] and [setScene] once
    more, and each schedules another timer. *)
Lemma in_flight_result_is_delivered_after_detach :
  (snd detached_in_flight = []
   /\ AIProbe.disposed (fst detached_in_flight) = true
   /\ map AIProbe.ready
          (snd (AIProbe.dispatch
                  (AIProbe.DetectSettles (AIProbe.Detected [standing]) 40)
                  (fst detached_in_flight))) = [true]
   /\ AIProbe.pending
        (fst (AIProbe.dispatch
                (AIProbe.DetectSettles (AIProbe.Detected [standing]) 40)
                (fst detached_in_flight))) = true)
  /\ (snd cleaned_up_in_flight = []
      /\ peek VideoTile.stopped (fst cleaned_up_in_flight) 0 = Some true
      /\ map fst
             (snd (VideoTile.step
                     (VideoTile.DetectSettles 0 (VideoTile.Detected [standing]) 100)
                     (fst cleaned_up_in_flight))) = [0%nat; 0%nat]
      /\ announced
           (snd (VideoTile.step
                   (VideoTile.DetectSettles 0 (VideoTile.Detected [standing]) 100)
                   (fst cleaned_up_in_flight))) = [(VideoTile.none, [])]).
Proof.
  repeat split; vm_compute; reflexivity.
Qed.

End Detaching.

(* ===================================================================== *)
(** * Worked instances                                                     *)
(* ===================================================================== *)

Section Instances.

(** The probe of aiProbe.ts on the same kind of feed: upright, dropped,
    and then still until its last detection is in flight. *)
Definition probe_before_fourth_sample : AIProbe.Probe * list AIProbe.AIProbeResult :=
  AIProbe.run
    [AIProbe.TimerFires ready_frame 0;
     AIProbe.DetectSettles (AIProbe.Detected [standing]) 40;
     AIProbe.TimerFires ready_frame 690;
     AIProbe.DetectSettles (AIProbe.Detected [dropped]) 730;
     AIProbe.TimerFires ready_frame 1380;
     AIProbe.DetectSettles (AIProbe.Detected [dropped]) 1420;
     AIProbe.TimerFires ready_frame 2070]
    (AIProbe.attachAIProbe true AIProbe.no_options).

Lemma probe_reports_before_fourth_sample :
  map (fun r => (AIProbe.state (AIProbe.fall r), AIProbe.reasons (AIProbe.fall r)))
      (snd probe_before_fourth_sample)
  = [(AIProbe.none, []); (AIProbe.risk, ["drop:0.14"]); (AIProbe.none, [])].
Proof. vm_compute. reflexivity. Qed.


Definition plain_frame (label : string) (ty : Types.IncidentType) (name : string)
  : string := label +:+ ":" +:+ name.

Definition bed_camera : Types.Camera :=
  {| Types.cam_id := "cam-01"; Types.cam_name := "Cam 101";
     Types.streamUrl := Some "/streams/patient_fall.mp4" |}.

Definition first_draws : App.Draws :=
  {| App.random_hex := "9f3a"; App.created_ms := 1000;
     App.vitals := {| App.hr_start := 80; App.hr_peak := 91; App.hr_end := 84;
                      App.series := [80; 82; 91; 84] |} |}.

Definition watch_fall : App.Incident :=
  App.newIncident plain_frame bed_camera Types.FALL Types.watch first_draws.

Definition critical_report : App.Payload :=
  {| App.camera := bed_camera; App.p_type := Types.FALL;
     App.p_severity := Types.critical; App.p_confidence := 0.91;
     App.p_eventTimeSec := None; App.p_reasons := ["still:1s"] |}.


Definition acked_critical : App.Incident :=
  {| App.id := "inc-1"; App.cameraId := "cam-02"; App.cameraName := "Cam 102";
     App.type := Types.FALL; App.severity := Types.critical; App.confidence := 0.94;
     App.createdAt := 2000; App.acked := true;
     App.eventTimeSec := JS.absent; App.reasons := JS.absent;
     App.clipUrl := JS.absent; App.frames := JS.absent; App.hr := JS.absent |}.

Lemma inbox_unacked_watch_first :
  App.sortInbox [acked_critical; watch_fall] = [watch_fall; acked_critical]
  /\ App.sortInbox [watch_fall; acked_critical] = [watch_fall; acked_critical].
Proof.
  destruct (sortInbox_orders_inbox []) as (_ & _ & _ & H).
  apply (H acked_critical watch_fall); reflexivity.
Defined.

Definition readable_sample : SceneProbe.Sample :=
  {| SceneProbe.readyState := 4; SceneProbe.videoWidth := 640;
     SceneProbe.videoHeight := 360; SceneProbe.frame := Some dark_frame |}.

Definition tainted_sample : SceneProbe.Sample :=
  {| SceneProbe.readyState := 4; SceneProbe.videoWidth := 640;
     SceneProbe.videoHeight := 360; SceneProbe.frame := None |}.

Definition two_samples : list SceneProbe.Signal :=
  [SceneProbe.Interval readable_sample; SceneProbe.Interval readable_sample].


Lemma tainted_canvas_is_contained :
  snd (VideoProbe.pixelTick None 800 idle_video
         (fst (VideoProbe.attachVideoProbe idle_video 0 true pixel_options))) = []
  /\ snd (SceneProbe.dispatch (SceneProbe.Interval tainted_sample)
            (SceneProbe.attachSceneProbe true SceneProbe.no_options))
     = [{| SceneProbe.peopleBand := SceneProbe.unknown; SceneProbe.motion := 0;
           SceneProbe.pixelsOk := false |}].
Proof.
  destruct (pixel_read_failure_is_contained
              (fst (VideoProbe.attachVideoProbe idle_video 0 true pixel_options))
              800 idle_video
              (SceneProbe.attachSceneProbe true SceneProbe.no_options)
              tainted_sample)
    as ((H1 & _) & (H2 & _)).
  - repeat split; reflexivity.
  - reflexivity.
  - reflexivity.
  - reflexivity.
  - split; [exact H1 | exact H2].
Defined.

(** Two patient feeds: the first is inside its inference call when the
    second comes to the slot. *)
Definition second_feed_waiting : VideoTile.Wall * list (nat * VideoTile.Call) :=
  VideoTile.run
    [VideoTile.Mount 0 patient_config (frame_at 0);
     VideoTile.Mount 1 patient_config (frame_at 5);
     VideoTile.ModelLoaded 0]
    VideoTile.empty_wall.

Lemma slot_busy_for_second_feed :
  exists t',
    VideoTile.step (VideoTile.ModelLoaded 1) (fst second_feed_waiting)
      = (VideoTile.put_tile 1 t' true (fst second_feed_waiting), [])
    /\ VideoTile.in_flight t' = false
    /\ VideoTile.pending t' = true.
Proof.
  destruct one_inference_at_a_time as (_ & H & _).
  edestruct (H (fst second_feed_waiting) 1%nat) as (t' & E & F & _ & P & _).
  - vm_compute. reflexivity.
  - vm_compute. reflexivity.
  - vm_compute. reflexivity.
  - exists t'. repeat split; assumption.
Defined.

End Instances.

(* ===================================================================== *)
(** * Properties of the page's summaries                                   *)
(* ===================================================================== *)

Section DashboardFacts.
Import Types App Dashboard.

Definition take_higher (acc : Severity) (it : Incident) : Severity :=
  if severityRank acc <? severityRank (severity it) then severity it else acc.

Lemma severityRank_inj a b : severityRank a = severityRank b -> a = b.
Proof. destruct a, b; cbn; intros H; congruence || lia. Qed.

Lemma severityRank_bounds s : 0 <= severityRank s <= 3.
Proof. destruct s; cbn; lia. Qed.

Lemma fold_take_higher l acc :
  let r := fold_left take_higher l acc in
  severityRank acc <= severityRank r
  /\ (forall i, In i l -> severityRank (severity i) <= severityRank r)
  /\ (r = acc \/ exists i, In i l /\ severity i = r).
Proof.
  revert acc. induction l as [|i l IH]; intros acc; cbn [fold_left].
  - cbv zeta. split; [lia|]. split; [intros i []|left; reflexivity].
  - destruct (IH (take_higher acc i)) as (H1 & H2 & H3). cbv zeta.
    assert (Hs : severityRank acc <= severityRank (take_higher acc i)
                 /\ severityRank (severity i) <= severityRank (take_higher acc i)
                 /\ (take_higher acc i = acc \/ take_higher acc i = severity i)).
    { unfold take_higher.
      destruct (severityRank acc <? severityRank (severity i)) eqn:E;
        [apply Z.ltb_lt in E | apply Z.ltb_ge in E]; repeat split; try lia; auto. }
    destruct Hs as (S1 & S2 & S3).
    split; [lia|]. split.
    + intros j [<-|Hj]; [lia | apply H2; exact Hj].
    + destruct H3 as [H3|(j & Hj & Ej)].
      * destruct S3 as [S3|S3].
        -- left. congruence.
        -- right. exists i. split; [left; reflexivity | congruence].
      * right. exists j. split; [right; exact Hj | exact Ej].
Qed.

(** X1: [globalSafetyState] is the highest severity of the list under
    none < watch < risk < critical: no incident ranks above it, it is the
    severity of some incident of the list unless it is [none], and it is
    [none] exactly when every incident has severity [none] (so for the
    empty list). *)
Theorem globalSafetyState_is_the_highest (incidents : list Incident) :
  (forall i, In i incidents ->
             severityRank (severity i) <= severityRank (globalSafetyState incidents))
  /\ (globalSafetyState incidents = none
      \/ exists i, In i incidents /\ severity i = globalSafetyState incidents)
  /\ (globalSafetyState incidents = none
      <-> forall i, In i incidents -> severity i = none)
  /\ globalSafetyState [] = none.
Proof.
  destruct (fold_take_higher incidents none) as (_ & H2 & H3).
  change (fold_left take_higher incidents none) with (globalSafetyState incidents) in *.
  split; [exact H2|]. split; [exact H3|]. split; [|reflexivity].
  split.
  - intros E i Hi. specialize (H2 i Hi). rewrite E in H2.
    apply severityRank_inj. pose proof (severityRank_bounds (severity i)).
    cbn in *. lia.
  - intros Hall. destruct H3 as [H3|(i & Hi & Ei)]; [exact H3|].
    rewrite <- Ei. apply Hall. exact Hi.
Qed.

(** How many incidents of the list have severity [s]. *)
Definition count_of (s : Severity) (l : list Incident) : Z :=
  Z.of_nat (length (List.filter (fun i => bool_decide (severity i = s)) l)).

Definition tally (c : Counts) (i : Incident) : Counts :=
  match severity i with
  | watch => {| n_watch := n_watch c + 1; n_risk := n_risk c;
                n_critical := n_critical c |}
  | risk => {| n_watch := n_watch c; n_risk := n_risk c + 1;
               n_critical := n_critical c |}
  | critical => {| n_watch := n_watch c; n_risk := n_risk c;
                   n_critical := n_critical c + 1 |}
  | none => c
  end.

Lemma fold_tally l c :
  let r := fold_left tally l c in
  n_watch r = n_watch c + count_of watch l
  /\ n_risk r = n_risk c + count_of risk l
  /\ n_critical r = n_critical c + count_of critical l.
Proof.
  revert c. induction l as [|i l IH]; intros c; cbn [fold_left].
  - unfold count_of. cbn. lia.
  - destruct (IH (tally c i)) as (H1 & H2 & H3). cbv zeta.
    rewrite H1, H2, H3. unfold count_of, tally. cbn [List.filter].
    destruct (severity i); cbn [bool_decide decide_rel n_watch n_risk n_critical length];
      repeat split;
      repeat match goal with
             | |- context [bool_decide ?P] =>
                 first [ rewrite (bool_decide_eq_true_2 P) by reflexivity
                       | rewrite (bool_decide_eq_false_2 P) by discriminate ]
             end; cbn [length]; lia.
Qed.

Lemma count_of_pos s l : 0 < count_of s l <-> exists i, In i l /\ severity i = s.
Proof.
  unfold count_of. split.
  - intros H. destruct (List.filter _ l) as [|i r] eqn:E; [cbn in H; lia|].
    assert (Hi : In i (List.filter (fun i => bool_decide (severity i = s)) l))
      by (rewrite E; left; reflexivity).
    apply filter_In in Hi as [Hi Hs]. apply bool_decide_eq_true in Hs.
    exists i. split; assumption.
  - intros (i & Hi & Hs).
    assert (Hf : In i (List.filter (fun i => bool_decide (severity i = s)) l)).
    { apply filter_In. split; [exact Hi | apply bool_decide_eq_true; exact Hs]. }
    destruct (List.filter _ l); [destruct Hf | cbn; lia].
Qed.

Lemma count_of_nonneg s l : 0 <= count_of s l.
Proof. unfold count_of. lia. Qed.

(** X2: the three counters of [countBySeverity] are the numbers of watch,
    risk and critical incidents, and the pill of [globalSafetyState] agrees
    with them: it is [critical] exactly when the critical counter is
    positive, [risk] when that is zero and the risk counter is positive,
    [watch] when both are zero and the watch counter is positive, and
    [none] when all three are zero. *)
Theorem counters_agree_with_global_state (incidents : list Incident) :
  let c := countBySeverity incidents in
  let g := globalSafetyState incidents in
  (n_watch c = count_of watch incidents
   /\ n_risk c = count_of risk incidents
   /\ n_critical c = count_of critical incidents)
  /\ (g = critical <-> 0 < n_critical c)
  /\ (g = risk <-> n_critical c = 0 /\ 0 < n_risk c)
  /\ (g = watch <-> n_critical c = 0 /\ n_risk c = 0 /\ 0 < n_watch c)
  /\ (g = none <-> n_critical c = 0 /\ n_risk c = 0 /\ n_watch c = 0).
Proof.
  intros c g.
  destruct (fold_tally incidents {| n_watch := 0; n_risk := 0; n_critical := 0 |})
    as (C1 & C2 & C3).
  change (fold_left tally incidents _) with c in C1, C2, C3.
  cbn [n_watch n_risk n_critical] in C1, C2, C3.
  rewrite Z.add_0_l in C1, C2, C3.
  split; [repeat split; assumption|].
  destruct (fold_take_higher incidents none) as (_ & Hmax & Hin).
  change (fold_left take_higher incidents none) with g in Hmax, Hin.
  pose proof (count_of_pos watch incidents) as Pw.
  pose proof (count_of_pos risk incidents) as Pr.
  pose proof (count_of_pos critical incidents) as Pc.
  pose proof (count_of_nonneg watch incidents).
  pose proof (count_of_nonneg risk incidents).
  pose proof (count_of_nonneg critical incidents).
  rewrite C1, C2, C3.
  assert (Has : forall s, (exists i, In i incidents /\ severity i = s) ->
                          severityRank s <= severityRank g).
  { intros s (i & Hi & <-). apply Hmax. exact Hi. }
  assert (Own : g <> none -> exists i, In i incidents /\ severity i = g).
  { intros N. destruct Hin as [E|E]; [congruence | exact E]. }
  assert (Zero : forall s, count_of s incidents = 0 ->
                           ~ exists i, In i incidents /\ severity i = s).
  { intros s Z0 K. apply count_of_pos in K. lia. }
  pose proof (severityRank_bounds g) as Bg.
  repeat split.
  - intros E. apply Pc. rewrite <- E. apply Own. rewrite E. discriminate.
  - intros P. apply Pc in P. apply Has in P. apply severityRank_inj. cbn in *. lia.
  - destruct (Z.eq_dec (count_of critical incidents) 0) as [Z0|NZ]; [exact Z0|].
    assert (P : 0 < count_of critical incidents) by lia.
    apply Pc, Has in P. rewrite H2 in P. cbn in P. lia.
  - apply Pr. rewrite <- H2. apply Own. rewrite H2. discriminate.
  - intros (Zc & P). apply Pr, Has in P.
    destruct g; cbn in P; try lia; [reflexivity|].
    exfalso. apply (Zero critical Zc). apply Own. discriminate.
  - destruct (Z.eq_dec (count_of critical incidents) 0) as [Z0|NZ]; [exact Z0|].
    assert (P : 0 < count_of critical incidents) by lia.
    apply Pc, Has in P. rewrite H2 in P. cbn in P. lia.
  - destruct (Z.eq_dec (count_of risk incidents) 0) as [Z0|NZ]; [exact Z0|].
    assert (P : 0 < count_of risk incidents) by lia.
    apply Pr, Has in P. rewrite H2 in P. cbn in P. lia.
  - apply Pw. rewrite <- H2. apply Own. rewrite H2. discriminate.
  - intros (Zc & Zr & P). apply Pw, Has in P.
    destruct g; cbn in P; try lia; [reflexivity | |].
    + exfalso. apply (Zero risk Zr). apply Own. discriminate.
    + exfalso. apply (Zero critical Zc). apply Own. discriminate.
  - destruct (Z.eq_dec (count_of critical incidents) 0) as [Z0|NZ]; [exact Z0|].
    assert (P : 0 < count_of critical incidents) by lia.
    apply Pc, Has in P. rewrite H2 in P. cbn in P. lia.
  - destruct (Z.eq_dec (count_of risk incidents) 0) as [Z0|NZ]; [exact Z0|].
    assert (P : 0 < count_of risk incidents) by lia.
    apply Pr, Has in P. rewrite H2 in P. cbn in P. lia.
  - destruct (Z.eq_dec (count_of watch incidents) 0) as [Z0|NZ]; [exact Z0|].
    assert (P : 0 < count_of watch incidents) by lia.
    apply Pw, Has in P. rewrite H2 in P. cbn in P. lia.
  - intros (Zc & Zr & Zw).
    destruct g; [reflexivity | | |]; exfalso.
    + apply (Zero watch Zw). apply Own. discriminate.
    + apply (Zero risk Zr). apply Own. discriminate.
    + apply (Zero critical Zc). apply Own. discriminate.
Qed.

End DashboardFacts.

(* ===================================================================== *)
(** * Acknowledging and resolving                                          *)
(* ===================================================================== *)

Section IncidentActions.
Import Types App Dashboard.

(** The object [{...p, acked: true}]. *)
Definition acknowledged (p : Incident) : Incident :=
  {| id := id p; cameraId := cameraId p; cameraName := cameraName p;
     type := type p; severity := severity p; confidence := confidence p;
     createdAt := createdAt p; acked := true;
     eventTimeSec := eventTimeSec p; reasons := reasons p;
     clipUrl := clipUrl p; frames := frames p; hr := hr p |}.



Lemma ack_cons i p l :
  ack i (p :: l) = (if String.eqb (id p) i then acknowledged p else p) :: ack i l.
Proof. reflexivity. Qed.



(** X4: resolving an id removes every incident with that id and no other:
    what stays is what had another id, nothing with the id is left, doing
    it twice is doing it once, the list is left as it was exactly when no
    incident has the id, an acknowledgement before or after the removal of
    another incident gives the same list, and acknowledging the resolved
    id afterwards changes nothing. *)
Theorem resolve_removes_the_id (i j : string) (l : list Incident) :
  (forall p, In p (resolve i l) <-> In p l /\ id p <> i)
  /\ resolve i (resolve i l) = resolve i l
  /\ (resolve i l = l <-> forall p, In p l -> id p <> i)
  /\ resolve i (ack j l) = ack j (resolve i l)
  /\ ack i (resolve i l) = resolve i l
  /\ (length (resolve i l) <= length l)%nat.
Proof.
  split; [|split; [|split; [|split; [|split]]]].
  - intros p. unfold resolve. rewrite filter_In.
    split; intros [H1 H2]; (split; [exact H1|]).
    + apply Bool.negb_true_iff, String.eqb_neq in H2. exact H2.
    + apply Bool.negb_true_iff, String.eqb_neq. exact H2.
  - unfold resolve. induction l as [|p l IH]; [reflexivity|].
    cbn [List.filter]. destruct (negb (String.eqb (id p) i)) eqn:E; [|exact IH].
    cbn [List.filter]. rewrite E, IH. reflexivity.
  - unfold resolve. induction l as [|p l IH]; [split; [intros _ p []|reflexivity]|].
    cbn [List.filter]. destruct (String.eqb (id p) i) eqn:E; cbn [negb].
    + split.
      * intros H. exfalso.
        assert (L : (length (List.filter (fun p => negb (String.eqb (id p) i)) l)
                     <= length l)%nat) by apply List.filter_length_le.
        rewrite H in L. cbn in L. lia.
      * intros H. exfalso. apply (H p); [left; reflexivity|].
        apply String.eqb_eq. exact E.
    + split.
      * intros H. injection H as Hl. pose proof (proj1 IH Hl) as Hl'.
        intros q [<-|Hq]; [apply String.eqb_neq; exact E | apply Hl'; exact Hq].
      * intros H. f_equal. apply IH. intros q Hq. apply H. right. exact Hq.
  - unfold resolve. induction l as [|p l IH]; [reflexivity|].
    rewrite ack_cons. cbn [List.filter].
    assert (Hid : id (if String.eqb (id p) j then acknowledged p else p) = id p)
      by (destruct (String.eqb (id p) j); reflexivity).
    rewrite Hid. destruct (negb (String.eqb (id p) i)); [|exact IH].
    rewrite ack_cons, IH. reflexivity.
  - unfold resolve. induction l as [|p l IH]; [reflexivity|].
    cbn [List.filter]. destruct (String.eqb (id p) i) eqn:E; cbn [negb]; [exact IH|].
    rewrite ack_cons, E, IH. reflexivity.
  - unfold resolve. apply List.filter_length_le.
Qed.

End IncidentActions.

(* ===================================================================== *)
(** * The inbox order under removal                                        *)
(* ===================================================================== *)

Section SortAndFilter.
Context {A : Type} (cmp : A -> A -> Q) (keep : A -> bool).

(** [a] compares strictly below [b]. *)
Definition below (a b : A) : bool := JS.Qlt_bool (cmp a b) 0.

(** The comparator is a consistent ordering: being strictly below is
    asymmetric, and not being below is transitive. *)
Hypothesis below_asym : forall a b, below a b = true -> below b a = false.
Hypothesis not_below_trans :
  forall a b c, below b a = false -> below c b = false -> below c a = false.

Definition ascending (a b : A) : Prop := below b a = false.

Lemma insert_sorted_ascending a l :
  StronglySorted ascending l -> StronglySorted ascending (JS.insert_sorted cmp a l).
Proof.
  apply (insert_sorted_strongly cmp ascending).
  - intros x y H. apply below_asym. exact H.
  - intros x y H. exact H.
  - intros x y z. apply not_below_trans.
Qed.

Lemma insert_sorted_head a l :
  Forall (fun c => below a c = true) l -> JS.insert_sorted cmp a l = a :: l.
Proof.
  intros H. destruct l as [|c l]; [reflexivity|].
  cbn [JS.insert_sorted]. apply Forall_inv in H. unfold below in H. rewrite H.
  reflexivity.
Qed.

Lemma filter_insert_sorted a l :
  StronglySorted ascending l ->
  List.filter keep (JS.insert_sorted cmp a l)
  = if keep a then JS.insert_sorted cmp a (List.filter keep l)
    else List.filter keep l.
Proof.
  induction 1 as [|b l Hs IH Hb]; cbn [JS.insert_sorted List.filter].
  - destruct (keep a); reflexivity.
  - destruct (JS.Qlt_bool (cmp a b) 0) eqn:E.
    + cbn [List.filter]. destruct (keep a) eqn:Ka; [|reflexivity].
      symmetry. apply insert_sorted_head.
      assert (Hall : Forall (fun c => below a c = true) (b :: l)).
      { constructor; [exact E|].
        eapply Forall_impl; [exact Hb|]. intros c Hc. cbv beta in Hc.
        destruct (below a c) eqn:F; [reflexivity|].
        unfold ascending in Hc.
        pose proof (not_below_trans _ _ _ Hc F) as K.
        unfold below in K. congruence. }
      change (Forall (fun c => below a c = true) (List.filter keep (b :: l))).
      apply List.Forall_forall. intros c Hc. apply filter_In in Hc as [Hc _].
      rewrite List.Forall_forall in Hall. apply Hall. exact Hc.
    + cbn [List.filter]. rewrite IH.
      destruct (keep b) eqn:Kb, (keep a) eqn:Ka; try reflexivity.
      cbn [JS.insert_sorted]. rewrite E. reflexivity.
Qed.

Lemma filter_fold_insert_sorted l acc :
  StronglySorted ascending acc ->
  List.filter keep (fold_left (fun acc a => JS.insert_sorted cmp a acc) l acc)
  = fold_left (fun acc a => JS.insert_sorted cmp a acc)
              (List.filter keep l) (List.filter keep acc).
Proof.
  revert acc. induction l as [|a l IH]; intros acc Hs; cbn [fold_left List.filter].
  - reflexivity.
  - rewrite IH by (apply insert_sorted_ascending; exact Hs).
    rewrite filter_insert_sorted by exact Hs.
    destruct (keep a); reflexivity.
Qed.

Lemma filter_Array_sort l :
  List.filter keep (JS.Array_sort cmp l) = JS.Array_sort cmp (List.filter keep l).
Proof.
  unfold JS.Array_sort. apply (filter_fold_insert_sorted l []). constructor.
Qed.

End SortAndFilter.

Section InboxRemoval.
Import Types App Dashboard.

(** Strictly in front in the inbox: unacknowledged before acknowledged,
    then the higher rank, then the later creation. *)
Definition strictly_in_front (a b : Incident) : Prop :=
  Z.b2z (acked a) < Z.b2z (acked b)
  \/ (Z.b2z (acked a) = Z.b2z (acked b)
      /\ (severityRank (severity b) < severityRank (severity a)
          \/ (severityRank (severity a) = severityRank (severity b)
              /\ createdAt b < createdAt a))).

Lemma below_sortInbox_cmp a b :
  below sortInbox_cmp a b = true <-> strictly_in_front a b.
Proof.
  unfold below, sortInbox_cmp, strictly_in_front.
  destruct (acked a), (acked b); cbn [Bool.eqb negb Z.b2z].
  2: { split; [intros H; vm_compute in H; discriminate | lia]. }
  2: { split; [intros _; lia | intros _; reflexivity]. }
  all: destruct (severityRank (severity b) - severityRank (severity a) =? 0) eqn:E;
    cbn [negb]; rewrite Qlt_bool_inject_Z, Z.ltb_lt;
    [apply Z.eqb_eq in E | apply Z.eqb_neq in E]; lia.
Qed.

Lemma not_below_sortInbox_cmp a b :
  below sortInbox_cmp a b = false <-> ~ strictly_in_front a b.
Proof.
  rewrite <- below_sortInbox_cmp. destruct (below sortInbox_cmp a b); split; congruence.
Qed.

Lemma sortInbox_filter (keep : Incident -> bool) (incidents : list Incident) :
  sortInbox (List.filter keep incidents) = List.filter keep (sortInbox incidents).
Proof.
  unfold sortInbox. symmetry. apply filter_Array_sort.
  - intros a b H. apply not_below_sortInbox_cmp.
    apply below_sortInbox_cmp in H. unfold strictly_in_front in *. lia.
  - intros a b c H1 H2. apply not_below_sortInbox_cmp.
    apply not_below_sortInbox_cmp in H1, H2.
    unfold strictly_in_front in *. lia.
Qed.

(** X5: resolving an incident does not reorder the inbox: sorting what is
    left gives the sorted list without the resolved incident.  The same
    holds for any selection of incidents. *)
Theorem resolve_keeps_inbox_order (i : string) (incidents : list Incident) :
  sortInbox (resolve i incidents) = resolve i (sortInbox incidents)
  /\ (forall keep : Incident -> bool,
        sortInbox (List.filter keep incidents)
        = List.filter keep (sortInbox incidents)).
Proof.
  split; [apply sortInbox_filter|]. intros keep. apply sortInbox_filter.
Qed.

End InboxRemoval.

(* ===================================================================== *)
(** * The incident a tile shows                                            *)
(* ===================================================================== *)

Section TileIncident.
Import Types App Dashboard.

(** One turn of the loop that fills the map. *)
Definition choose (m : gmap string Incident) (i : Incident) : gmap string Incident :=
  match m !! cameraId i with
  | Some existing =>
      if severityRank (severity existing) <? severityRank (severity i)
      then <[cameraId i := i]> m else m
  | None => <[cameraId i := i]> m
  end.

Lemma incidentsByCamera_snoc l a :
  incidentsByCamera (l ++ [a]) = choose (incidentsByCamera l) a.
Proof. unfold incidentsByCamera. rewrite fold_left_app. reflexivity. Qed.

(** [x] is the first incident of [l] for camera [c] of the highest rank
    among the incidents of [l] for that camera. *)
Definition first_highest (l : list Incident) (c : string) (x : Incident) : Prop :=
  exists k, l !! k = Some x /\ cameraId x = c
            /\ forall j y, l !! j = Some y -> cameraId y = c ->
                           severityRank (severity y) <= severityRank (severity x)
                           /\ ((j < k)%nat ->
                               severityRank (severity y) < severityRank (severity x)).

Lemma lookup_snoc_inv (l : list Incident) a j y :
  (l ++ [a]) !! j = Some y ->
  l !! j = Some y \/ ((length l <= j)%nat /\ y = a).
Proof.
  intros H. apply lookup_app_Some in H as [H|[H1 H2]]; [left; exact H|].
  right. split; [exact H1|].
  destruct (j - length l)%nat; cbn in H2; [congruence | discriminate].
Qed.

Lemma incidentsByCamera_spec l c :
  match incidentsByCamera l !! c with
  | Some x => first_highest l c x
  | None => forall j y, l !! j = Some y -> cameraId y <> c
  end.
Proof.
  induction l as [|a l IH] using rev_ind.
  - unfold incidentsByCamera. cbn [fold_left]. rewrite lookup_empty.
    intros j y H. discriminate.
  - rewrite incidentsByCamera_snoc. unfold choose.
    destruct (decide (cameraId a = c)) as [E|N].
    + subst c. destruct (incidentsByCamera l !! cameraId a) as [e|] eqn:M.
      * destruct IH as (k & Hk & Hc & Hall).
        destruct (severityRank (severity e) <? severityRank (severity a)) eqn:R;
          [apply Z.ltb_lt in R | apply Z.ltb_ge in R].
        -- rewrite lookup_insert_eq. exists (length l).
           split; [apply list_lookup_middle; reflexivity|]. split; [reflexivity|].
           intros j y Hj Hy. apply lookup_snoc_inv in Hj as [Hj|[Hj ->]].
           ++ destruct (Hall j y Hj Hy) as [H1 _]. lia.
           ++ lia.
        -- rewrite M. exists k.
           split; [apply lookup_app_l_Some; exact Hk|]. split; [exact Hc|].
           intros j y Hj Hy. apply lookup_snoc_inv in Hj as [Hj|[Hj ->]].
           ++ apply Hall; assumption.
           ++ apply lookup_lt_Some in Hk. lia.
      * rewrite lookup_insert_eq. exists (length l).
        split; [apply list_lookup_middle; reflexivity|]. split; [reflexivity|].
        intros j y Hj Hy. apply lookup_snoc_inv in Hj as [Hj|[Hj ->]].
        -- exfalso. exact (IH j y Hj Hy).
        -- lia.
    + assert (L : (match incidentsByCamera l !! cameraId a with
                   | Some existing =>
                       if severityRank (severity existing) <? severityRank (severity a)
                       then <[cameraId a := a]> (incidentsByCamera l)
                       else incidentsByCamera l
                   | None => <[cameraId a := a]> (incidentsByCamera l)
                   end) !! c = incidentsByCamera l !! c).
      { destruct (incidentsByCamera l !! cameraId a) as [e|];
          [destruct (_ <? _)|]; try reflexivity;
          apply lookup_insert_ne; exact N. }
      rewrite L. destruct (incidentsByCamera l !! c) as [x|].
      * destruct IH as (k & Hk & Hc & Hall). exists k.
        split; [apply lookup_app_l_Some; exact Hk|]. split; [exact Hc|].
        intros j y Hj Hy. apply lookup_snoc_inv in Hj as [Hj|[Hj ->]].
        -- apply Hall; assumption.
        -- contradiction.
      * intros j y Hj. apply lookup_snoc_inv in Hj as [Hj|[Hj ->]].
        -- exact (IH j y Hj).
        -- exact N.
Qed.

(** X6: the incident a tile shows for its camera is the first one, in the
    order of the list given, of the highest rank among that camera's
    incidents: no incident of the camera ranks above it, those in front
    of it rank strictly below, and the tile has none exactly when the
    list has no incident of that camera.  Whether an incident is
    acknowledged plays no part. *)
Theorem tile_shows_first_of_highest_rank (l : list Incident) (c : string) :
  (forall x, incidentsByCamera l !! c = Some x ->
             exists k, l !! k = Some x /\ cameraId x = c
                       /\ forall j y, l !! j = Some y -> cameraId y = c ->
                            severityRank (severity y) <= severityRank (severity x)
                            /\ ((j < k)%nat ->
                                severityRank (severity y) < severityRank (severity x)))
  /\ (incidentsByCamera l !! c = None
      <-> forall j y, l !! j = Some y -> cameraId y <> c).
Proof.
  pose proof (incidentsByCamera_spec l c) as S.
  split.
  - intros x E. rewrite E in S. exact S.
  - split.
    + intros E. rewrite E in S. exact S.
    + intros H. destruct (incidentsByCamera l !! c) as [x|]; [|reflexivity].
      destruct S as (k & Hk & Hc & _). exfalso. exact (H k x Hk Hc).
Qed.

End TileIncident.

(* ===================================================================== *)
(** * The status maps                                                      *)
(* ===================================================================== *)

Section StatusMaps.
Import Dashboard.

(** The health reports of the tiles, in the order they arrive. *)
Definition health_reports (rs : list (string * VideoProbe.StreamHealth))
    (m : gmap string VideoProbe.StreamHealth) : gmap string VideoProbe.StreamHealth :=
  fold_left (fun m r => setHealthByCam (fst r) (snd r) m) rs m.

Definition scene_reports (rs : list (string * SceneProbe.SceneProbeResult))
    (m : gmap string SceneProbe.SceneProbeResult)
  : gmap string SceneProbe.SceneProbeResult :=
  fold_left (fun m r => setSceneByCam (fst r) (snd r) m) rs m.

Lemma setHealthByCam_here c h m :
  VideoProbe.state <$> (setHealthByCam c h m !! c) = Some (VideoProbe.state h).
Proof.
  unfold setHealthByCam. destruct (m !! c) as [e|] eqn:E.
  - destruct (bool_decide (VideoProbe.state e = VideoProbe.state h)) eqn:B.
    + apply bool_decide_eq_true in B. rewrite E. cbn. congruence.
    + rewrite lookup_insert_eq. reflexivity.
  - rewrite lookup_insert_eq. reflexivity.
Qed.

Lemma setHealthByCam_other c c' h m : c' <> c -> setHealthByCam c' h m !! c = m !! c.
Proof.
  intros N. unfold setHealthByCam. destruct (m !! c') as [e|];
    [destruct (bool_decide _)|]; try reflexivity; apply lookup_insert_ne; exact N.
Qed.

Lemma health_reports_other rs c m :
  Forall (fun r => fst r <> c) rs -> health_reports rs m !! c = m !! c.
Proof.
  unfold health_reports. revert m. induction rs as [|r rs IH]; intros m H; [reflexivity|].
  cbn [fold_left]. rewrite IH by (eapply Forall_inv_tail; exact H).
  apply setHealthByCam_other. eapply Forall_inv in H. exact H.
Qed.

Lemma setSceneByCam_here c s m :
  SceneProbe.peopleBand <$> (setSceneByCam c s m !! c) = Some (SceneProbe.peopleBand s).
Proof.
  unfold setSceneByCam. destruct (m !! c) as [e|] eqn:E.
  - destruct (bool_decide (SceneProbe.peopleBand e = SceneProbe.peopleBand s)) eqn:B.
    + apply bool_decide_eq_true in B. rewrite E. cbn. congruence.
    + rewrite lookup_insert_eq. reflexivity.
  - rewrite lookup_insert_eq. reflexivity.
Qed.

Lemma setSceneByCam_other c c' s m : c' <> c -> setSceneByCam c' s m !! c = m !! c.
Proof.
  intros N. unfold setSceneByCam. destruct (m !! c') as [e|];
    [destruct (bool_decide _)|]; try reflexivity; apply lookup_insert_ne; exact N.
Qed.

Lemma scene_reports_other rs c m :
  Forall (fun r => fst r <> c) rs -> scene_reports rs m !! c = m !! c.
Proof.
  unfold scene_reports. revert m. induction rs as [|r rs IH]; intros m H; [reflexivity|].
  cbn [fold_left]. rewrite IH by (eapply Forall_inv_tail; exact H).
  apply setSceneByCam_other. eapply Forall_inv in H. exact H.
Qed.

(** X7: whatever was reported before and whatever other cameras report
    afterwards, the state the page holds for a camera is the state of
    that camera's latest health report, and the band it holds is the band
    of its latest scene report; a camera that never reported has no
    entry.  (The record kept may be an older one with the same state or
    band: a report that repeats it is dropped.) *)
Theorem page_holds_latest_state
    (c : string)
    (hs hs' : list (string * VideoProbe.StreamHealth)) (h : VideoProbe.StreamHealth)
    (ss ss' : list (string * SceneProbe.SceneProbeResult))
    (s : SceneProbe.SceneProbeResult)
    (m : gmap string VideoProbe.StreamHealth)
    (n : gmap string SceneProbe.SceneProbeResult) :
  Forall (fun r => fst r <> c) hs' ->
  Forall (fun r => fst r <> c) ss' ->
  VideoProbe.state <$> (health_reports (hs ++ (c, h) :: hs') m !! c)
  = Some (VideoProbe.state h)
  /\ SceneProbe.peopleBand <$> (scene_reports (ss ++ (c, s) :: ss') n !! c)
     = Some (SceneProbe.peopleBand s)
  /\ health_reports hs' ∅ !! c = None
  /\ scene_reports ss' ∅ !! c = None
  /\ (forall e, m !! c = Some e -> VideoProbe.state e = VideoProbe.state h ->
                setHealthByCam c h m = m).
Proof.
  intros Hh Hs. split; [|split; [|split; [|split]]].
  - unfold health_reports. rewrite fold_left_app. cbn [fold_left fst snd].
    fold (health_reports hs m).
    fold (health_reports hs' (setHealthByCam c h (health_reports hs m))).
    rewrite health_reports_other by exact Hh. apply setHealthByCam_here.
  - unfold scene_reports. rewrite fold_left_app. cbn [fold_left fst snd].
    fold (scene_reports ss n).
    fold (scene_reports ss' (setSceneByCam c s (scene_reports ss n))).
    rewrite scene_reports_other by exact Hs. apply setSceneByCam_here.
  - rewrite health_reports_other by exact Hh. apply lookup_empty.
  - rewrite scene_reports_other by exact Hs. apply lookup_empty.
  - intros e E St. unfold setHealthByCam. rewrite E.
    rewrite bool_decide_eq_true_2 by exact St. reflexivity.
Qed.

End StatusMaps.

(* ===================================================================== *)
(** * Reports that open an incident                                        *)
(* ===================================================================== *)

Section AutoIncident.
Import Types App.
Variable makeFrame : string -> IncidentType -> string -> string.

(** Whether an incident is for the camera and type of a report. *)
Definition for_report (pl : Payload) (i : Incident) : bool :=
  String.eqb (cameraId i) (cam_id (camera pl)) && bool_decide (type i = p_type pl).

Lemma for_report_key pl i :
  for_report pl i = true <-> key i = (cam_id (camera pl), p_type pl).
Proof.
  unfold for_report, key. rewrite andb_true_iff, String.eqb_eq, bool_decide_eq_true.
  split; [intros [-> ->]; reflexivity | intros E; injection E; auto].
Qed.

Lemma findIndex_all_false {A} (f : A -> bool) l :
  Forall (fun x => f x = false) l -> JS.findIndex f l = None.
Proof.
  induction 1 as [|a l Ha _ IH]; cbn [JS.findIndex]; [reflexivity|].
  rewrite Ha, IH. reflexivity.
Qed.

Lemma upsertIncident_absent next now prev :
  Forall (fun p => key p <> key next) prev ->
  upsertIncident next now prev = next :: prev.
Proof.
  intros H. unfold upsertIncident. rewrite findIndex_all_false; [reflexivity|].
  eapply Forall_impl; [exact H|]. intros p Hp. cbv beta in Hp.
  destruct (same_key p next) eqn:E; [|reflexivity].
  apply same_key_iff in E. contradiction.
Qed.

Lemma find_all_false {A} (f : A -> bool) l :
  Forall (fun x => f x = false) l -> List.find f l = None.
Proof.
  induction 1 as [|a l Ha _ IH]; cbn [List.find]; [reflexivity|].
  rewrite Ha. exact IH.
Qed.

(** X8: a report for a camera and type that neither the handler's list
    nor the current list holds puts one new incident in front of the
    current list and leaves the rest as it was.  The new incident is
    unacknowledged, carries the camera, the type, and the severity,
    confidence, reasons and event time of the report (the confidence that
    [newIncident] derives from the severity is overwritten), has the
    creation time and the id that [newIncident] drew, the three
    placeholder frames and the vitals series, and no clip. *)
Theorem report_for_new_key_opens_incident
    (incidents prev : list Incident) (pl : Payload) (d : Draws) (now : Z) :
  Forall (fun i => for_report pl i = false) incidents ->
  Forall (fun i => for_report pl i = false) prev ->
  exists c,
    onAutoIncident makeFrame incidents pl d now prev = c :: prev
    /\ id c = "inc-" +:+ random_hex d +:+ "-" +:+ JS.show_Z (created_ms d)
    /\ cameraId c = cam_id (camera pl) /\ cameraName c = cam_name (camera pl)
    /\ type c = p_type pl /\ severity c = p_severity pl
    /\ confidence c = p_confidence pl
    /\ createdAt c = created_ms d /\ acked c = false
    /\ JS.read (reasons c) = Some (p_reasons pl)
    /\ JS.read (eventTimeSec c) = p_eventTimeSec pl
    /\ JS.read (clipUrl c) = None
    /\ JS.read (hr c) = Some (vitals d)
    /\ JS.read (frames c)
       = Some {| before := makeFrame "BEFORE" (p_type pl) (cam_name (camera pl));
                 peak := makeFrame "PEAK" (p_type pl) (cam_name (camera pl));
                 after := makeFrame "AFTER" (p_type pl) (cam_name (camera pl)) |}.
Proof.
  intros Hi Hp. unfold onAutoIncident.
  change (fun i => String.eqb (cameraId i) (cam_id (camera pl))
                   && bool_decide (type i = p_type pl)) with (for_report pl).
  rewrite (find_all_false _ _ Hi). cbv zeta.
  eexists. split.
  - apply upsertIncident_absent.
    eapply Forall_impl; [exact Hp|]. intros p F. cbv beta in F.
    intros K. assert (T : for_report pl p = true).
    { apply for_report_key. rewrite K. reflexivity. }
    congruence.
  - repeat split.
Qed.

(** X9: the incident a report is merged into or opened as is built from
    the handler's list, not from the list that is current when the update
    runs.  If the handler's list still holds an incident for the camera
    and type and the current list does not (it was resolved in between),
    that incident comes back in front of the list with its old id,
    creation time and acknowledged flag, so an incident that was
    acknowledged before it was resolved returns acknowledged. *)
Theorem report_on_stale_list_restores_incident
    (incidents prev : list Incident) (pl : Payload) (d : Draws) (now : Z)
    (existing : Incident) :
  List.find (for_report pl) incidents = Some existing ->
  Forall (fun i => for_report pl i = false) prev ->
  exists c,
    onAutoIncident makeFrame incidents pl d now prev = c :: prev
    /\ id c = id existing
    /\ createdAt c = createdAt existing
    /\ acked c = acked existing
    /\ severity c = p_severity pl
    /\ confidence c = p_confidence pl
    /\ frames c = frames existing /\ hr c = hr existing.
Proof.
  intros Hf Hp. unfold onAutoIncident.
  change (fun i => String.eqb (cameraId i) (cam_id (camera pl))
                   && bool_decide (type i = p_type pl)) with (for_report pl).
  rewrite Hf. eexists. split.
  - apply upsertIncident_absent.
    apply find_some in Hf as [_ Hf]. apply for_report_key in Hf.
    eapply Forall_impl; [exact Hp|]. intros p F. cbv beta in F.
    intros K. assert (T : for_report pl p = true).
    { apply for_report_key. rewrite K. unfold key in *. cbn. exact Hf. }
    congruence.
  - repeat split.
Qed.

Lemma find_unique (pl : Payload) (prev : list Incident) idx existing :
  one_per_key prev -> prev !! idx = Some existing -> for_report pl existing = true ->
  List.find (for_report pl) prev = Some existing.
Proof.
  intros Hu Hi Hf.
  destruct (List.find (for_report pl) prev) as [e|] eqn:E.
  - apply find_some in E as [Hin He].
    apply list_elem_of_In, list_elem_of_lookup_1 in Hin as [j Hj].
    apply for_report_key in He, Hf.
    assert (j = idx) as ->.
    { eapply (NoDup_lookup (map key prev)); [exact Hu | |].
      - rewrite list_lookup_fmap, Hj. cbn. rewrite He. reflexivity.
      - rewrite list_lookup_fmap, Hi. cbn. rewrite Hf. reflexivity. }
    congruence.
  - exfalso. eapply find_none in E; [|apply list_elem_of_In;
                                      eapply list_elem_of_lookup_2; exact Hi].
    congruence.
Qed.

(** X10: when the current list holds the incident for the camera and type
    of a report, the merged record takes its id, camera name, frames and
    vitals from what the handler's list holds for that camera and type.
    With the handler's list equal to the current one the incident keeps
    them; with a handler's list that does not hold the key yet, the
    incident gets the newly drawn id, frames and vitals, so the id it had
    is gone. *)
Theorem merged_identity_follows_handler_list
    (prev : list Incident) (pl : Payload) (d : Draws) (now : Z)
    (idx : nat) (existing : Incident) :
  one_per_key prev ->
  prev !! idx = Some existing ->
  for_report pl existing = true ->
  (exists m, onAutoIncident makeFrame prev pl d now prev !! idx = Some m
             /\ id m = id existing /\ frames m = frames existing
             /\ hr m = hr existing /\ clipUrl m = clipUrl existing
             /\ cameraName m = cameraName existing)
  /\ (forall incidents,
        Forall (fun i => for_report pl i = false) incidents ->
        exists m, onAutoIncident makeFrame incidents pl d now prev !! idx = Some m
                  /\ id m = "inc-" +:+ random_hex d +:+ "-" +:+ JS.show_Z (created_ms d)
                  /\ JS.read (hr m) = Some (vitals d)
                  /\ JS.read (frames m)
                     = Some {| before := makeFrame "BEFORE" (p_type pl)
                                           (cam_name (camera pl));
                               peak := makeFrame "PEAK" (p_type pl)
                                         (cam_name (camera pl));
                               after := makeFrame "AFTER" (p_type pl)
                                          (cam_name (camera pl)) |}
                  /\ cameraName m = cam_name (camera pl)
                  /\ clipUrl m = clipUrl existing).
Proof.
  intros Hu Hi Hf.
  pose proof (lookup_lt_Some _ _ _ Hi) as Hlen.
  pose proof (proj1 (for_report_key pl existing) Hf) as Hk.
  split.
  - unfold onAutoIncident.
    change (fun i => String.eqb (cameraId i) (cam_id (camera pl))
                     && bool_decide (type i = p_type pl)) with (for_report pl).
    rewrite (find_unique pl prev idx existing Hu Hi Hf).
    rewrite (upsertIncident_existing _ now prev idx existing Hu Hi) by reflexivity.
    eexists. split; [apply list_lookup_insert_eq; exact Hlen|].
    cbn. repeat split.
    + destruct (frames existing); reflexivity.
    + destruct (hr existing); reflexivity.
    + destruct (clipUrl existing); reflexivity.
  - intros incidents Hn. unfold onAutoIncident.
    change (fun i => String.eqb (cameraId i) (cam_id (camera pl))
                     && bool_decide (type i = p_type pl)) with (for_report pl).
    rewrite (find_all_false _ _ Hn). cbv zeta.
    rewrite (upsertIncident_existing _ now prev idx existing Hu Hi) by exact Hk.
    eexists. split; [apply list_lookup_insert_eq; exact Hlen|].
    cbn. repeat split.
Qed.

End AutoIncident.

(* ===================================================================== *)
(** * Where the health readings come from                                  *)
(* ===================================================================== *)

Section HealthProvenance.
Import VideoProbe.

(** The reasons that go with each state, for a probe whose freeze
    threshold is [fs] seconds. *)
Definition reason_fits (fs : Z) (r : StreamHealth) : Prop :=
  match state r with
  | ok => reason r = "attached" \/ reason r = "playing" \/ reason r = "canplay"
          \/ reason r = "time_progress" \/ reason r = "black_recovered"
  | buffering => reason r = "waiting" \/ reason r = "stalled"
  | frozen => reason r = "no_time_progress_" +:+ JS.show_Z fs +:+ "s"
  | black => exists q, reason r = "black_ratio_" +:+ JS.toFixed2 q
  | error => exists code, reason r = "media_" +:+ mediaErrorText code
             /\ (details r ≫= mediaErrorCode) = Some code
  end.

(** What a reading may be, given the options the probe was attached
    with: its reason fits its state, and a black reading needs the pixel
    probe switched on and a canvas context. *)
Definition sound_reading (p : Probe) (r : StreamHealth) : Prop :=
  reason_fits (o_frozenSeconds p) r
  /\ (state r = black -> o_enablePixelProbe p = true /\ ctx p = true).

(** The options of the closure, which no callback assigns. *)
Definition constants (p : Probe) : Z * bool * bool * Z * Q * Q :=
  (o_frozenSeconds p, o_enablePixelProbe p, ctx p, o_blackConsecutive p,
   o_blackLumaThreshold p, o_blackRatioThreshold p).

Lemma emit_cases next p :
  emit next p = (p, []) \/ emit next p = (set_health next p, [next]).
Proof.
  unfold emit. destruct (disposed p); [left; reflexivity|].
  destruct (_ && _); [left | right]; reflexivity.
Qed.

Lemma emit_sound next p :
  sound_reading p next ->
  constants (fst (emit next p)) = constants p
  /\ Forall (sound_reading p) (snd (emit next p)).
Proof.
  intros S. destruct (emit_cases next p) as [-> | ->]; cbn [fst snd].
  - split; [reflexivity | constructor].
  - split; [reflexivity | constructor; [exact S | constructor]].
Qed.

Lemma sound_ok p now why d :
  why = "attached" \/ why = "playing" \/ why = "canplay"
  \/ why = "time_progress" \/ why = "black_recovered" ->
  sound_reading p {| state := ok; sinceMs := now; reason := why; details := d |}.
Proof. intros H. split; [exact H | discriminate]. Qed.

Lemma frozenTick_sound now v p :
  constants (fst (frozenTick now v p)) = constants p
  /\ Forall (sound_reading p) (snd (frozenTick now v p)).
Proof.
  unfold frozenTick. destruct (disposed p); [split; [reflexivity | constructor]|].
  destruct (paused v || ended v); [split; [reflexivity | constructor]|].
  destruct (safeNum (currentTime v)) as [t|]; [|split; [reflexivity | constructor]].
  destruct (negb (Qeq_bool t (lastTime p))).
  - cbv zeta. destruct (bool_decide _); [|split; [reflexivity | constructor]].
    apply (emit_sound _ (set_progress t now p)). apply sound_ok. tauto.
  - cbv zeta. destruct (_ <=? _); [|split; [reflexivity | constructor]].
    apply emit_sound. split; [reflexivity | discriminate].
Qed.

Lemma pixelTick_sound frame now v p :
  constants (fst (pixelTick frame now v p)) = constants p
  /\ Forall (sound_reading p) (snd (pixelTick frame now v p)).
Proof.
  unfold pixelTick. destruct (disposed p); [split; [reflexivity | constructor]|].
  destruct (o_enablePixelProbe p) eqn:En; cbn [negb];
    [|split; [reflexivity | constructor]].
  destruct (pixelDisabled p); [split; [reflexivity | constructor]|].
  destruct (ctx p) eqn:Cx; cbn [negb]; [|split; [reflexivity | constructor]].
  destruct (negb (bool_decide (state (health p) = ok)));
    [split; [reflexivity | constructor]|].
  destruct frame as [img|]; [|split; [reflexivity | constructor]].
  cbv zeta.
  set (r := blackRatio (o_blackLumaThreshold p) img).
  assert (First :
    forall q, constants q = constants p ->
      forall res,
        res = (if Qle_bool (o_blackRatioThreshold p) r
               then (set_blackStreak (blackStreak p + 1) p, [])
               else
                 if bool_decide (state (health (set_blackStreak 0 p)) = black)
                 then emit {| state := ok; sinceMs := now; reason := "black_recovered";
                              details := Some (ratioDetails r v) |}
                           (set_blackStreak 0 p)
                 else (set_blackStreak 0 p, [])) ->
        constants (fst res) = constants p /\ Forall (sound_reading p) (snd res)).
  { intros q _ res ->. destruct (Qle_bool _ r); [split; [reflexivity | constructor]|].
    destruct (bool_decide _); [|split; [reflexivity | constructor]].
    apply (emit_sound _ (set_blackStreak 0 p)). apply sound_ok. tauto. }
  specialize (First p eq_refl _ eq_refl).
  destruct (if Qle_bool (o_blackRatioThreshold p) r then _ else _) as [p1 out1].
  cbn [fst snd] in First. destruct First as [C1 S1].
  destruct (o_blackConsecutive p1 <=? blackStreak p1).
  - assert (S2 : sound_reading p1
                   {| state := black; sinceMs := now;
                      reason := "black_ratio_" +:+ JS.toFixed2 r;
                      details := Some (ratioDetails r v) |}).
    { split; [exists r; reflexivity|]. intros _.
      unfold constants in C1. injection C1 as _ E1 E2 _ _ _.
      rewrite E1, E2. auto. }
    destruct (emit_sound _ p1 S2) as [C2 F2].
    destruct (emit _ p1) as [p2 out2]. cbn [fst snd] in *.
    split; [congruence|]. apply Forall_app. split; [exact S1|].
    eapply Forall_impl; [exact F2|]. intros x [X1 X2]. split.
    + unfold constants in C1. injection C1 as E0 _ _ _ _ _. rewrite <- E0. exact X1.
    + intros B. specialize (X2 B). unfold constants in C1.
      injection C1 as _ E1 E2 _ _ _. rewrite <- E1, <- E2. exact X2.
  - cbn [fst snd]. rewrite app_nil_r. split; assumption.
Qed.

Lemma dispatch_sound o p :
  constants (fst (dispatch o p)) = constants p
  /\ Forall (sound_reading p) (snd (dispatch o p)).
Proof.
  unfold dispatch. destruct (signal o).
  1-5: destruct (listeners p); [|split; [reflexivity | constructor]].
  - apply emit_sound. split; [left; reflexivity | discriminate].
  - apply emit_sound. split; [right; reflexivity | discriminate].
  - apply emit_sound. apply sound_ok. tauto.
  - apply emit_sound. apply sound_ok. tauto.
  - apply emit_sound. split; [exists code; split; reflexivity | discriminate].
  - destruct (frozenTick_timer p); [apply frozenTick_sound|].
    split; [reflexivity | constructor].
  - destruct (pixelTick_timer p); [apply pixelTick_sound|].
    split; [reflexivity | constructor].
  - split; [reflexivity | constructor].
Qed.

Lemma sound_reading_constants p q r :
  constants q = constants p -> sound_reading q r -> sound_reading p r.
Proof.
  unfold constants, sound_reading. intros E [S1 S2].
  injection E as E0 E1 E2 _ _ _. rewrite <- E0, <- E1, <- E2. split; assumption.
Qed.

Lemma run_sound os p :
  constants (fst (run os p)) = constants p
  /\ Forall (sound_reading p) (snd (run os p)).
Proof.
  revert p. induction os as [|o os IH]; intros p; cbn [run].
  - split; [reflexivity | constructor].
  - destruct (dispatch_sound o p) as [C1 S1].
    destruct (dispatch o p) as [p1 out1]. cbn [fst snd] in C1, S1.
    destruct (IH p1) as [C2 S2].
    destruct (run os p1) as [p2 out2]. cbn [fst snd] in *.
    split; [congruence|]. apply Forall_app. split; [exact S1|].
    eapply Forall_impl; [exact S2|]. intros x. apply sound_reading_constants.
    exact C1.
Qed.

(** X11: over any history of an attachment, every reading delivered has a
    reason that goes with its state: "waiting" or "stalled" with
    buffering, the media error text with error (and the code in the
    details), the freeze threshold with frozen, the black ratio with
    black, and one of "attached", "playing", "canplay", "time_progress",
    "black_recovered" with ok.  A black reading is delivered only by a
    probe attached with [enablePixelProbe] and a canvas context; with the
    default options, which leave the pixel probe off, no history delivers
    one. *)
Theorem readings_fit_their_state
    (v : Video) (now : Z) (has_ctx : bool) (opts : VideoProbeOptions)
    (os : list Occurrence) :
  let start := attachVideoProbe v now has_ctx opts in
  let out := snd start ++ snd (run os (fst start)) in
  Forall (reason_fits (default 8 (frozenSeconds opts))) out
  /\ (Exists (fun r => state r = black) out ->
      enablePixelProbe opts = Some true /\ has_ctx = true)
  /\ (enablePixelProbe opts = None -> Forall (fun r => state r <> black) out).
Proof.
  cbv zeta.
  assert (S : Forall (sound_reading (fst (attachVideoProbe v now has_ctx opts)))
                (snd (attachVideoProbe v now has_ctx opts)
                 ++ snd (run os (fst (attachVideoProbe v now has_ctx opts))))).
  { apply Forall_app. split; [|apply run_sound].
    unfold attachVideoProbe. cbv zeta.
    match goal with |- context [emit ?n ?q] =>
      destruct (emit_sound n q) as [C F]; [apply sound_ok; tauto|] end.
    eapply Forall_impl; [exact F|]. intros x. apply sound_reading_constants.
    symmetry. exact C. }
  assert (K0 : o_frozenSeconds (fst (attachVideoProbe v now has_ctx opts))
               = default 8 (frozenSeconds opts)).
  { unfold attachVideoProbe. cbv zeta.
    match goal with |- context [emit ?n ?q] =>
      destruct (emit_cases n q) as [-> | ->] end; reflexivity. }
  assert (K1 : o_enablePixelProbe (fst (attachVideoProbe v now has_ctx opts))
               = default false (enablePixelProbe opts)).
  { unfold attachVideoProbe. cbv zeta.
    match goal with |- context [emit ?n ?q] =>
      destruct (emit_cases n q) as [-> | ->] end; reflexivity. }
  assert (K2 : ctx (fst (attachVideoProbe v now has_ctx opts)) = has_ctx).
  { unfold attachVideoProbe. cbv zeta.
    match goal with |- context [emit ?n ?q] =>
      destruct (emit_cases n q) as [-> | ->] end; reflexivity. }
  assert (B : forall r, sound_reading (fst (attachVideoProbe v now has_ctx opts)) r ->
                        state r = black ->
                        enablePixelProbe opts = Some true /\ has_ctx = true).
  { intros r [_ S2] Hb. destruct (S2 Hb) as [E1 E2]. rewrite K1 in E1. rewrite K2 in E2.
    split; [|exact E2]. destruct (enablePixelProbe opts) as [[|]|]; cbn in E1; congruence. }
  split; [|split].
  - eapply Forall_impl; [exact S|]. intros r [S1 _]. rewrite <- K0. exact S1.
  - intros Ex. apply Exists_exists in Ex as (r & Hr & Hb).
    rewrite Forall_forall in S. exact (B r (S r Hr) Hb).
  - intros Off. eapply Forall_impl; [exact S|]. intros r Sr Hb.
    destruct (B r Sr Hb) as [E _]. congruence.
Qed.

End HealthProvenance.

(* ===================================================================== *)
(** * The freeze watchdog                                                  *)
(* ===================================================================== *)

Section FreezeWatchdog.
Import VideoProbe.

(** The watchdog comes due on a playing video whose position is still
    [last]. *)
Definition stalled_tick (last : Q) (o : Occurrence) : bool :=
  match signal o with
  | FrozenTimer =>
      negb (paused (video o)) && negb (ended (video o))
      && match currentTime (video o) with
         | Some t => Qeq_bool t last
         | None => false
         end
  | _ => false
  end.

(** The watchdog comes due on a playing video whose position has moved
    away from [last]. *)
Definition progress_tick (last : Q) (o : Occurrence) : bool :=
  match signal o with
  | FrozenTimer =>
      negb (paused (video o)) && negb (ended (video o))
      && match currentTime (video o) with
         | Some t => negb (Qeq_bool t last)
         | None => false
         end
  | _ => false
  end.

(** The watchdog comes due on a video that is paused, has ended, or has
    no finite position. *)
Definition idle_tick (o : Occurrence) : bool :=
  match signal o with
  | FrozenTimer =>
      paused (video o) || ended (video o)
      || match currentTime (video o) with Some _ => false | None => true end
  | _ => false
  end.

(** The threshold has passed since the last progress the probe saw. *)
Definition overdue (p : Probe) (o : Occurrence) : bool :=
  o_frozenSeconds p * 1000 <=? at_ms o - lastProgressAt p.

Definition frozen_reading (p : Probe) (o : Occurrence) : StreamHealth :=
  {| state := frozen; sinceMs := at_ms o;
     reason := "no_time_progress_" +:+ JS.show_Z (o_frozenSeconds p) +:+ "s";
     details := Some (snapshotDetails (video o)) |}.

Definition progress_reading (o : Occurrence) : StreamHealth :=
  {| state := ok; sinceMs := at_ms o; reason := "time_progress";
     details := Some (snapshotDetails (video o)) |}.

Lemma run_app os1 os2 p :
  run (os1 ++ os2) p
  = (fst (run os2 (fst (run os1 p))),
     snd (run os1 p) ++ snd (run os2 (fst (run os1 p)))).
Proof.
  revert p. induction os1 as [|o os1 IH]; intros p.
  - cbn [app run fst snd]. destruct (run os2 p). reflexivity.
  - cbn [app run]. destruct (dispatch o p) as [p1 out1]. rewrite IH.
    destruct (run os1 p1) as [p2 out2]. cbn [fst snd].
    destruct (run os2 p2) as [p3 out3]. cbn [fst snd]. rewrite app_assoc. reflexivity.
Qed.

Lemma run_one o p : run [o] p = dispatch o p.
Proof. cbn [run]. destruct (dispatch o p). rewrite app_nil_r. reflexivity. Qed.

Lemma stalled_tick_inv last o :
  stalled_tick last o = true ->
  signal o = FrozenTimer /\ paused (video o) || ended (video o) = false
  /\ exists t, currentTime (video o) = Some t /\ Qeq_bool t last = true.
Proof.
  unfold stalled_tick. destruct (signal o); try discriminate.
  destruct (paused (video o)), (ended (video o)); try discriminate.
  destruct (currentTime (video o)) as [t|]; [|discriminate].
  cbn. intros H. repeat split. exists t. split; [reflexivity | exact H].
Qed.

Lemma dispatch_stalled o p :
  disposed p = false -> frozenTick_timer p = true ->
  stalled_tick (lastTime p) o = true ->
  dispatch o p
  = if overdue p o then emit (frozen_reading p o) p else (p, []).
Proof.
  intros D T S. apply stalled_tick_inv in S as (Sg & Pa & t & Ct & Eq).
  unfold dispatch. rewrite Sg, T. unfold frozenTick, safeNum.
  rewrite D, Pa, Ct, Eq. cbn [negb]. reflexivity.
Qed.

Lemma emit_fresh_state next p :
  disposed p = false -> state next <> state (health p) ->
  emit next p = (set_health next p, [next]).
Proof.
  intros D N. unfold emit. rewrite D.
  rewrite bool_decide_eq_false_2 by exact N. reflexivity.
Qed.

Lemma emit_same next p :
  state next = state (health p) -> reason next = reason (health p) ->
  emit next p = (p, []).
Proof.
  intros S R. unfold emit. destruct (disposed p); [reflexivity|].
  rewrite bool_decide_eq_true_2 by exact S. rewrite R, String.eqb_refl. reflexivity.
Qed.

Lemma run_stalled_while_frozen os p :
  disposed p = false -> frozenTick_timer p = true ->
  state (health p) = frozen ->
  reason (health p) = "no_time_progress_" +:+ JS.show_Z (o_frozenSeconds p) +:+ "s" ->
  Forall (fun o => stalled_tick (lastTime p) o = true) os ->
  run os p = (p, []).
Proof.
  intros D T S R. induction 1 as [|o os Ho _ IH]; [reflexivity|].
  cbn [run]. rewrite (dispatch_stalled o p D T Ho).
  assert (E : (if overdue p o then emit (frozen_reading p o) p else (p, [])) = (p, [])).
  { destruct (overdue p o); [|reflexivity].
    apply emit_same; [symmetry; exact S | symmetry; exact R]. }
  rewrite E, IH. reflexivity.
Qed.

Lemma run_stalled os p :
  disposed p = false -> frozenTick_timer p = true ->
  state (health p) <> frozen ->
  Forall (fun o => stalled_tick (lastTime p) o = true) os ->
  run os p
  = match List.find (overdue p) os with
    | Some o => (set_health (frozen_reading p o) p, [frozen_reading p o])
    | None => (p, [])
    end.
Proof.
  intros D T S. induction 1 as [|o os Ho Hos IH]; [reflexivity|].
  cbn [run List.find]. rewrite (dispatch_stalled o p D T Ho).
  destruct (overdue p o).
  - rewrite emit_fresh_state by (cbn; congruence).
    rewrite run_stalled_while_frozen; try reflexivity; try assumption.
  - rewrite IH. destruct (List.find (overdue p) os); reflexivity.
Qed.

Lemma dispatch_progress o p :
  disposed p = false -> frozenTick_timer p = true ->
  progress_tick (lastTime p) o = true ->
  snd (dispatch o p)
  = (if bool_decide (state (health p) = frozen) then [progress_reading o] else [])
  /\ lastProgressAt (fst (dispatch o p)) = at_ms o
  /\ state (health (fst (dispatch o p)))
     = if bool_decide (state (health p) = frozen) then ok else state (health p).
Proof.
  intros D T S. unfold progress_tick in S.
  destruct (signal o) eqn:Sg; try discriminate.
  destruct (paused (video o)) eqn:Pa, (ended (video o)) eqn:En; try discriminate.
  destruct (currentTime (video o)) as [t|] eqn:Ct; [|discriminate]. cbn in S.
  unfold dispatch. rewrite Sg, T. unfold frozenTick, safeNum.
  rewrite D, Pa, En, Ct, S. cbn [orb]. cbv zeta.
  change (health (set_progress t (at_ms o) p)) with (health p).
  destruct (bool_decide (state (health p) = frozen)) eqn:B.
  - apply bool_decide_eq_true in B.
    rewrite emit_fresh_state by (cbn; congruence). repeat split.
  - repeat split.
Qed.

(** X12: on a playing video whose position stays where the probe last saw
    it, the watchdog delivers exactly one reading however often it comes
    due: frozen, stamped with the first tick at which the threshold
    ([frozenSeconds] * 1000 ms) has passed since the last progress, and
    nothing if no tick is that late.  The next tick that sees the
    position moved delivers ok with reason "time_progress" if frozen was
    reported, whatever the state was before the freeze, and nothing
    otherwise, and restarts the count from its own time. *)
Theorem stalled_video_is_reported_frozen_once
    (p : Probe) (os : list Occurrence) (o' : Occurrence) :
  disposed p = false -> frozenTick_timer p = true ->
  state (health p) <> frozen ->
  Forall (fun o => stalled_tick (lastTime p) o = true) os ->
  progress_tick (lastTime p) o' = true ->
  snd (run os p)
  = match List.find (overdue p) os with
    | Some o => [frozen_reading p o]
    | None => []
    end
  /\ snd (run (os ++ [o']) p)
     = match List.find (overdue p) os with
       | Some o => [frozen_reading p o; progress_reading o']
       | None => []
       end
  /\ lastProgressAt (fst (run (os ++ [o']) p)) = at_ms o'
  /\ state (health (fst (run (os ++ [o']) p)))
     = match List.find (overdue p) os with
       | Some _ => ok
       | None => state (health p)
       end.
Proof.
  intros D T S Hos Hp.
  pose proof (run_stalled os p D T S Hos) as R.
  rewrite run_app, run_one, R.
  destruct (List.find (overdue p) os) as [o|]; cbn [fst snd].
  - destruct (dispatch_progress o' (set_health (frozen_reading p o) p) D T Hp)
      as (P1 & P2 & P3).
    rewrite P1, P2, P3. cbn. repeat split.
  - destruct (dispatch_progress o' p D T Hp) as (P1 & P2 & P3).
    rewrite P1, P2, P3. rewrite bool_decide_eq_false_2 by exact S. repeat split.
Qed.

End FreezeWatchdog.

Section PausedAndDetached.
Import VideoProbe.

Lemma dispatch_idle o p : idle_tick o = true -> dispatch o p = (p, []).
Proof.
  unfold idle_tick, dispatch. destruct (signal o); try discriminate. intros H.
  destruct (frozenTick_timer p); [|reflexivity].
  unfold frozenTick, safeNum. destruct (disposed p); [reflexivity|].
  destruct (paused (video o) || ended (video o)); [reflexivity|].
  destruct (currentTime (video o)); [discriminate | reflexivity].
Qed.

Lemma run_idle os p : Forall (fun o => idle_tick o = true) os -> run os p = (p, []).
Proof.
  induction 1 as [|o os Ho _ IH]; [reflexivity|].
  cbn [run]. rewrite (dispatch_idle o p Ho), IH. reflexivity.
Qed.

(** X13: while the video is paused, has ended or has no finite position
    the watchdog changes nothing, not even the time of the last progress
    it keeps.  The time spent paused therefore counts: the first tick
    that finds the video playing at the position it had, once the
    threshold has passed since the last progress seen, reports frozen,
    however short the time since playback went on. *)
Theorem paused_time_counts_towards_freeze
    (p : Probe) (os : list Occurrence) (o : Occurrence) :
  disposed p = false -> frozenTick_timer p = true ->
  state (health p) <> frozen ->
  Forall (fun o => idle_tick o = true) os ->
  stalled_tick (lastTime p) o = true ->
  overdue p o = true ->
  run os p = (p, [])
  /\ snd (run (os ++ [o]) p) = [frozen_reading p o]
  /\ state (health (fst (run (os ++ [o]) p))) = frozen.
Proof.
  intros D T S Hos Ho Hov.
  pose proof (run_idle os p Hos) as R.
  split; [exact R|].
  rewrite run_app, run_one, R. cbn [fst snd app].
  rewrite (dispatch_stalled o p D T Ho), Hov.
  rewrite emit_fresh_state by (cbn; congruence).
  split; reflexivity.
Qed.

Lemma scene_run_app sgs1 sgs2 p :
  SceneProbe.run (sgs1 ++ sgs2) p
  = (fst (SceneProbe.run sgs2 (fst (SceneProbe.run sgs1 p))),
     snd (SceneProbe.run sgs1 p)
     ++ snd (SceneProbe.run sgs2 (fst (SceneProbe.run sgs1 p)))).
Proof.
  revert p. induction sgs1 as [|o os1 IH]; intros p.
  - cbn [app SceneProbe.run fst snd]. destruct (SceneProbe.run sgs2 p). reflexivity.
  - cbn [app SceneProbe.run]. destruct (SceneProbe.dispatch o p) as [p1 out1].
    rewrite IH. destruct (SceneProbe.run os1 p1) as [p2 out2]. cbn [fst snd].
    destruct (SceneProbe.run sgs2 p2) as [p3 out3]. cbn [fst snd].
    rewrite app_assoc. reflexivity.
Qed.

Lemma run_detached os p :
  listeners p = false -> frozenTick_timer p = false -> pixelTick_timer p = false ->
  disposed p = true ->
  snd (run os p) = []
  /\ health (fst (run os p)) = health p
  /\ disposed (fst (run os p)) = true.
Proof.
  revert p. induction os as [|o os IH]; intros p L F P D; [repeat split; exact D|].
  cbn [run]. unfold dispatch. rewrite L, F, P.
  destruct (signal o);
    try (destruct (IH p L F P D) as (A & B & C);
         destruct (run os p); cbn [fst snd] in *; rewrite A;
         repeat split; assumption).
  destruct (IH (detach p) eq_refl eq_refl eq_refl eq_refl) as (A & B & C).
  destruct (run os (detach p)). cbn [fst snd] in *. rewrite A.
  repeat split; assumption.
Qed.

Lemma scene_run_keeps_stopped sgs q :
  SceneProbe.timer q = false ->
  snd (SceneProbe.run sgs q) = []
  /\ SceneProbe.timer (fst (SceneProbe.run sgs q)) = false.
Proof.
  revert q. induction sgs as [|sg sgs IH]; intros q Hq; [split; [reflexivity | exact Hq]|].
  cbn [SceneProbe.run]. destruct sg as [s|]; cbn [SceneProbe.dispatch].
  - rewrite Hq. destruct (IH q Hq) as [A B].
    destruct (SceneProbe.run sgs q). cbn [fst snd] in *. rewrite A.
    split; [reflexivity | exact B].
  - destruct (IH (SceneProbe.detach q) eq_refl) as [A B].
    destruct (SceneProbe.run sgs (SceneProbe.detach q)). cbn [fst snd] in *. rewrite A.
    split; [reflexivity | exact B].
Qed.

(** X14: detaching ends the readings of the health monitor and of the
    scene probe: whatever happened before and whatever the element does
    afterwards, the health monitor delivers exactly the readings it had
    delivered up to the detach call and keeps the reading it held, and
    the scene probe delivers exactly the reports it had delivered up to
    its detach call. *)
Theorem detach_ends_the_readings
    (p : Probe) (os os' : list Occurrence) (d : Occurrence)
    (sp : SceneProbe.Probe) (sgs sgs' : list SceneProbe.Signal) :
  signal d = Detach ->
  snd (run (os ++ d :: os') p) = snd (run os p)
  /\ health (fst (run (os ++ d :: os') p)) = health (fst (run os p))
  /\ disposed (fst (run (os ++ d :: os') p)) = true
  /\ snd (SceneProbe.run (sgs ++ SceneProbe.Detach :: sgs') sp)
     = snd (SceneProbe.run sgs sp)
  /\ SceneProbe.timer (fst (SceneProbe.run (sgs ++ SceneProbe.Detach :: sgs') sp))
     = false.
Proof.
  intros Hd.
  assert (Hs : forall q, run (d :: os') q
                         = (fst (run os' (detach q)), snd (run os' (detach q)))).
  { intros q. cbn [run]. unfold dispatch. rewrite Hd.
    destruct (run os' (detach q)). reflexivity. }
  rewrite run_app, Hs. cbn [fst snd].
  destruct (run_detached os' (detach (fst (run os p))) eq_refl eq_refl eq_refl eq_refl)
    as (A & B & C).
  rewrite A, B, C, app_nil_r.
  split; [reflexivity|]. split; [reflexivity|]. split; [reflexivity|].
  rewrite scene_run_app. cbn [fst snd SceneProbe.run SceneProbe.dispatch].
  destruct (scene_run_keeps_stopped sgs'
              (SceneProbe.detach (fst (SceneProbe.run sgs sp))) eq_refl) as [Q T].
  destruct (SceneProbe.run sgs' (SceneProbe.detach (fst (SceneProbe.run sgs sp)))).
  cbn [fst snd] in *. rewrite Q, app_nil_r. split; [reflexivity | exact T].
Qed.

End PausedAndDetached.

(* ===================================================================== *)
(** * Counting dark samples                                                *)
(* ===================================================================== *)

Section DarkStreak.
Import VideoProbe.






End DarkStreak.

(* ===================================================================== *)
(** * What the scene probe reports                                         *)
(* ===================================================================== *)

Section SceneRanges.
Import SceneProbe.
#[local] Arguments positions : simpl never.

Lemma clamp_range n : (0 <= clamp n 0 1 <= 1)%Q.
Proof.
  unfold clamp, JS.Math_max, JS.Math_min.
  destruct (Qle_bool 1 n) eqn:E1.
  - destruct (Qle_bool 0 1) eqn:E2; [split; [discriminate | apply Qle_refl]|].
    vm_compute in E2. discriminate.
  - destruct (Qle_bool 0 n) eqn:E2.
    + apply Qle_bool_iff in E2. apply Qle_bool_false_iff in E1.
      split; [exact E2 | apply Qlt_le_weak, Qnot_le_lt; exact E1].
    + split; [apply Qle_refl | discriminate].
Qed.

(** A greyscale buffer as the probe keeps it. *)
Definition byte_buffer (g : list Z) : Prop :=
  length g = Z.to_nat (w * h) /\ Forall (fun b => 0 <= b <= 255) g.

Lemma grayscale_byte_buffer data : byte_buffer (grayscale data).
Proof.
  unfold byte_buffer, grayscale. split; [apply length_resize|].
  apply Forall_resize; [lia|]. apply List.Forall_map.
  apply List.Forall_forall. intros px _. unfold JS.toUint8Clamp. cbv zeta. lia.
Qed.

(** What every report satisfies. *)
Definition in_range (r : SceneProbeResult) : Prop :=
  (0 <= motion r <= 1)%Q
  /\ (pixelsOk r = false -> peopleBand r = unknown /\ motion r = 0%Q)
  /\ (peopleBand r = unknown -> motion r = 0%Q).

Lemma compare_frames_in_range p g l : in_range (compare_frames p g l).
Proof.
  destruct (compare_frames_band p g l) as [Hb Hp].
  split; [|split].
  - unfold compare_frames. cbv zeta. cbn [motion]. apply clamp_range.
  - rewrite Hp. discriminate.
  - rewrite Hb. unfold classify.
    destruct (JS.Qlt_bool _ _); [discriminate|]. destruct (Qle_bool _ _); discriminate.
Qed.

Lemma tick_in_range s p :
  (forall g, last p = Some g -> byte_buffer g) ->
  Forall in_range (snd (tick s p))
  /\ (forall g, last (fst (tick s p)) = Some g -> byte_buffer g).
Proof.
  intros Inv. unfold tick.
  destruct (negb (ctx p)); [split; [constructor | exact Inv]|].
  destruct (readyState s <? 2); [split; [constructor | exact Inv]|].
  destruct (_ || _); [split; [constructor | exact Inv]|].
  destruct (frame s) as [data|].
  - cbv zeta. destruct (last p) as [lst|]; cbn [fst snd set_last last].
    + split; [constructor; [apply compare_frames_in_range | constructor]|].
      intros g E. injection E as <-. apply grayscale_byte_buffer.
    + split.
      * constructor; [|constructor].
        split; [split; discriminate|]. split; [discriminate | reflexivity].
      * intros g E. injection E as <-. apply grayscale_byte_buffer.
  - cbn [fst snd stop_sampling last]. split; [|exact Inv].
    constructor; [|constructor]. unfold emitUnknown, in_range. cbn.
    split; [split; discriminate|]. split; intros _; [split|]; reflexivity.
Qed.

Lemma run_in_range sgs p :
  (forall g, last p = Some g -> byte_buffer g) ->
  Forall in_range (snd (run sgs p))
  /\ (forall g, last (fst (run sgs p)) = Some g -> byte_buffer g).
Proof.
  revert p. induction sgs as [|sg sgs IH]; intros p Inv; cbn [run].
  - split; [constructor | exact Inv].
  - assert (D : Forall in_range (snd (dispatch sg p))
                /\ (forall g, last (fst (dispatch sg p)) = Some g -> byte_buffer g)).
    { destruct sg as [s|]; cbn [dispatch].
      - destruct (timer p); [apply tick_in_range; exact Inv|].
        split; [constructor | exact Inv].
      - split; [constructor | exact Inv]. }
    destruct (dispatch sg p) as [p1 out1]. cbn [fst snd] in D. destruct D as [D1 D2].
    destruct (IH p1 D2) as [R1 R2]. destruct (run sgs p1) as [p2 out2].
    cbn [fst snd] in *. split; [apply Forall_app; split; assumption | exact R2].
Qed.

(** X16: over any history of a scene probe, readable or not, every report
    has its motion between 0 and 1; a report without pixel access, and
    any report with band unknown, has motion 0, and the band of a report
    without pixel access is unknown.  The buffer the probe keeps for the
    next comparison always has 96 * 54 entries, each a byte between 0 and
    255, whatever the image data was. *)
Theorem scene_reports_stay_in_range
    (has_ctx : bool) (opts : SceneProbeOptions) (sgs : list Signal) :
  let res := run sgs (attachSceneProbe has_ctx opts) in
  Forall (fun r => (0 <= motion r <= 1)%Q
                   /\ (pixelsOk r = false -> peopleBand r = unknown /\ motion r = 0%Q)
                   /\ (peopleBand r = unknown -> motion r = 0%Q))
         (snd res)
  /\ (forall g, last (fst res) = Some g ->
                length g = Z.to_nat (w * h) /\ Forall (fun b => 0 <= b <= 255) g).
Proof.
  cbv zeta. apply (run_in_range sgs (attachSceneProbe has_ctx opts)).
  intros g E. discriminate.
Qed.

Lemma filter_none {A} (f : A -> bool) l :
  (forall x, f x = false) -> List.filter f l = [].
Proof.
  intros H. induction l as [|a l IH]; [reflexivity|].
  cbn [List.filter]. rewrite H. exact IH.
Qed.

Lemma fold_left_fixed {A B} (f : A -> B -> A) l a :
  (forall x, f a x = a) -> fold_left f l a = a.
Proof.
  intros H. induction l as [|x l IH]; [reflexivity|].
  cbn [fold_left]. rewrite H. exact IH.
Qed.

Lemma unchanged_at p g yx :
  (0 <= o_motionThreshold p)%Q -> changed_at p g g yx = false.
Proof.
  intros H. unfold changed_at. cbv zeta. rewrite Z.sub_diag. cbn [Z.abs].
  apply Qlt_bool_false_iff. apply Qle_not_lt. exact H.
Qed.

(** X17: a picture that does not change reads as an empty room.  With a
    motion threshold that is not negative and a positive [presenceMin]
    (the defaults are 28 and 0.004), a sample whose image data is the
    same as that of the sample before is reported with band none and
    motion 0, whatever the picture shows and whatever was reported
    before. *)
Theorem still_picture_reads_as_empty
    (p : Probe) (s s' : Sample) (data : list JS.Pixel) :
  timer p = true ->
  reaches_read p s = true -> reaches_read p s' = true ->
  frame s = Some data -> frame s' = Some data ->
  (0 <= o_motionThreshold p)%Q -> (0 < o_presenceMin p)%Q ->
  exists r,
    snd (run [Interval s; Interval s'] p) = snd (dispatch (Interval s) p) ++ [r]
    /\ length (snd (dispatch (Interval s) p)) = 1%nat
    /\ peopleBand r = none /\ (motion r == 0)%Q /\ pixelsOk r = true.
Proof.
  intros T R R' F F' Hthr Hmin.
  cbn [run dispatch]. rewrite T, (tick_reads s p R), F.
  change (timer (set_last (grayscale data) p)) with (timer p). rewrite T.
  rewrite (tick_reads s' (set_last (grayscale data) p)) by exact R'.
  rewrite F'. cbn [last set_last].
  set (g := grayscale data).
  set (q := set_last g p).
  exists (compare_frames q g g). cbn [snd fst app length].
  split; [reflexivity|]. split; [reflexivity|].
  assert (Hq : (0 <= o_motionThreshold q)%Q) by exact Hthr.
  destruct (compare_frames_band q g g) as [Hb Hp].
  split; [|split; [|exact Hp]].
  - rewrite Hb. unfold classify, changed_fraction, changed_positions.
    rewrite (filter_none (changed_at q g g) positions)
      by (intros yx; apply unchanged_at; exact Hq).
    cbn [length].
    assert (L : JS.Qlt_bool (inject_Z (Z.of_nat 0) / inject_Z total) (o_presenceMin q)
                = true).
    { apply Qlt_bool_iff.
      assert (Z0 : (inject_Z (Z.of_nat 0) / inject_Z total == 0)%Q)
        by (vm_compute; reflexivity).
      rewrite Z0. exact Hmin. }
    rewrite L. reflexivity.
  - unfold compare_frames. cbv zeta. cbn [motion].
    rewrite scan_positions.
    rewrite fold_left_fixed.
    + cbn [sumDiff]. vm_compute. reflexivity.
    + intros yx. unfold visit_at, visit. cbv zeta.
      pose proof (unchanged_at q g yx Hq) as U. unfold changed_at in U. cbv zeta in U.
      rewrite U. reflexivity.
Qed.

End SceneRanges.

(* ===================================================================== *)
(** * What an effect of the wall can and cannot do                         *)
(* ===================================================================== *)

Section WallEffects.
Import VideoTile.

(** The effect an action belongs to. *)
Definition action_id (a : Action) : nat :=
  match a with
  | Mount id _ _ | TimerFires id _ | ModelLoaded id | DetectSettles id _ _
  | Cleanup id => id
  end.

Lemma not_in_tag_calls id id' cs : id' <> id -> forall c, (id, c) ∉ tag_calls id' cs.
Proof. intros N c H. apply in_tag_calls in H as [E _]. contradiction. Qed.

(** An action leaves the other effects alone and makes no call in their
    name. *)
Lemma step_other a wl id :
  action_id a <> id ->
  tiles (fst (step a wl)) !! id = tiles wl !! id
  /\ forall c, (id, c) ∉ snd (step a wl).
Proof.
  intros N.
  assert (Keep : tiles wl !! id = tiles wl !! id
                 /\ forall c, (id, c) ∉ @nil (nat * Call)).
  { split; [reflexivity|]. intros c H. apply elem_of_nil in H. exact H. }
  assert (Put : forall t b cs,
            tiles (put_tile (action_id a) t b wl) !! id = tiles wl !! id
            /\ forall c, (id, c) ∉ tag_calls (action_id a) cs).
  { intros t b cs. split; [|apply not_in_tag_calls; exact N].
    cbn [put_tile tiles]. apply lookup_insert_ne. exact N. }
  destruct a as [id' cfg f | id' f | id' | id' o now | id']; cbn [step action_id] in *.
  - destruct (tiles wl !! id'); [exact Keep|].
    destruct (startEffect cfg) as [[t0|] cs].
    + destruct (tick_begin f t0) as [t1 cs1]. apply Put.
    + split; [reflexivity | apply not_in_tag_calls; exact N].
  - destruct (tiles wl !! id') as [t|]; [|exact Keep].
    destruct (phase t); try exact Keep.
    destruct (pending t); [|exact Keep].
    destruct (tick_begin f t) as [t1 cs]. apply Put.
  - destruct (tiles wl !! id') as [t|]; [|exact Keep].
    destruct (phase t); try exact Keep.
    destruct (withAiLock_enter (aiBusy wl)); apply (Put _ _ []).
  - destruct (tiles wl !! id') as [t|]; [|exact Keep].
    destruct (phase t); try exact Keep.
    destruct o as [ds|].
    + destruct (tick_finish ds now outH t) as [t1 cs]. apply Put.
    + apply (Put _ _ []).
  - destruct (tiles wl !! id') as [t|]; [|exact Keep].
    apply (Put _ _ []).
Qed.

(** The effect is between ticks with no timer pending. *)
Definition at_rest (t : Tile) : Prop := phase t = Idle /\ pending t = false.

Lemma step_at_rest a wl id t :
  tiles wl !! id = Some t -> at_rest t ->
  (exists t', tiles (fst (step a wl)) !! id = Some t' /\ at_rest t')
  /\ forall c, (id, c) ∉ snd (step a wl).
Proof.
  intros Hl [Hp Hd].
  destruct (decide (action_id a = id)) as [E|N].
  2: { destruct (step_other a wl id N) as [S1 S2]. split; [|exact S2].
       exists t. rewrite S1. repeat split; assumption. }
  assert (Keep : (exists t', tiles wl !! id = Some t' /\ at_rest t')
                 /\ forall c, (id, c) ∉ @nil (nat * Call)).
  { split; [exists t; repeat split; assumption|].
    intros c H. apply elem_of_nil in H. exact H. }
  destruct a as [id' cfg f | id' f | id' | id' o now | id'];
    cbn [action_id] in E; subst id'; cbn [step]; rewrite Hl.
  - exact Keep.
  - rewrite Hp, Hd. exact Keep.
  - rewrite Hp. exact Keep.
  - rewrite Hp. exact Keep.
  - split.
    + exists (cleanup t). cbn [put_tile tiles fst]. rewrite lookup_insert_eq.
      split; [reflexivity | split; assumption].
    + intros c H. apply elem_of_nil in H. exact H.
Qed.

Lemma run_at_rest acts wl id t :
  tiles wl !! id = Some t -> at_rest t ->
  (exists t', tiles (fst (run acts wl)) !! id = Some t' /\ at_rest t')
  /\ forall c, (id, c) ∉ snd (run acts wl).
Proof.
  revert wl t. induction acts as [|a acts IH]; intros wl t Hl Hr; cbn [run].
  - split; [exists t; split; assumption|]. intros c H. apply elem_of_nil in H. exact H.
  - destruct (step_at_rest a wl id t Hl Hr) as [(t1 & Hl1 & Hr1) S].
    destruct (step a wl) as [w1 out1]. cbn [fst snd] in *.
    destruct (IH w1 t1 Hl1 Hr1) as [R1 R2].
    destruct (run acts w1) as [w2 out2]. cbn [fst snd] in *.
    split; [exact R1|]. intros c H. apply elem_of_app in H as [H|H].
    + exact (S c H).
    + exact (R2 c H).
Qed.

(** X18: an inference that throws ends the detector of that effect.  The
    rejection leaves [tick] before its last line, so the flag of the slot
    is cleared but no timer is set: whatever happens on the page
    afterwards, the effect makes no further call on the component and
    never infers again.  (A new run of the effect is a new effect.) *)
Theorem inference_failure_stops_the_detector
    (wl : Wall) (id : nat) (t : Tile) (outH now : Z) (acts : list Action) :
  tiles wl !! id = Some t -> phase t = InFlight outH ->
  let failed := step (DetectSettles id Threw now) wl in
  snd failed = []
  /\ aiBusy (fst failed) = false
  /\ (forall c, (id, c) ∉ snd (run acts (fst failed)))
  /\ exists t', tiles (fst (run acts (fst failed))) !! id = Some t'
                /\ phase t' = Idle /\ pending t' = false.
Proof.
  intros Hl Hp. cbv zeta. cbn [step]. rewrite Hl, Hp. cbn [fst snd].
  split; [reflexivity|]. split; [reflexivity|].
  destruct (run_at_rest acts
              (put_tile id (update (track t) Idle false t)
                        (withAiLock_finally (aiBusy wl)) wl)
              id (update (track t) Idle false t)) as [(t' & H1 & H2 & H3) R].
  - cbn [put_tile tiles]. apply lookup_insert_eq.
  - split; reflexivity.
  - split; [exact R|]. exists t'. repeat split; assumption.
Qed.

End WallEffects.

(* ===================================================================== *)
(** * What the behavioural probe of aiProbe.ts delivers                    *)
(* ===================================================================== *)

Section AIProbeResults.
Import AIProbe.

Lemma clamp01_range x : (0 <= JS.clamp01 x <= 1)%Q.
Proof. exact (clamp_range x). Qed.

(** A fall reading as the heuristic builds it. *)
Definition sound_fall (f : Fall) : Prop :=
  (0 <= confidence f <= 1)%Q
  /\ (state f = none -> confidence f = 0%Q)
  /\ (state f = risk ->
      In "posture_flip" (reasons f) \/ has_reason "drop:" (reasons f))
  /\ (state f = critical -> has_reason "still:" (reasons f)).

Lemma sound_fall_none rs :
  sound_fall {| state := none; confidence := 0; reasons := rs |}.
Proof.
  split; [split; discriminate|]. split; [reflexivity|]. split; discriminate.
Qed.

Lemma fallHeuristic_sound now vh p t : sound_fall (snd (fallHeuristic now vh p t)).
Proof.
  unfold fallHeuristic.
  destruct (lastCenterY t) as [lcy|]; [|apply sound_fall_none].
  destruct (lastTs t) as [lts|]; [|apply sound_fall_none].
  cbv zeta.
  destruct (drop _ _) eqn:Dr, (postureFlip _ _) eqn:Pf; cbn [orb app snd].
  1-3: split; [apply clamp01_range|]; split; [discriminate|];
       split; [|discriminate]; intros _.
  - left. right. left. reflexivity.
  - right. apply has_reason_here.
  - left. left. reflexivity.
  - destruct (postDropStillStart t) as [s0|]; [|apply sound_fall_none].
    destruct (littleMotion _ && _); [|destruct (_ <? _); apply sound_fall_none].
    cbn [snd]. split; [apply clamp01_range|]. split; [discriminate|].
    split; [discriminate|]. intros _. unfold stillReason. apply has_reason_here.
Qed.

(** A result as [tick] builds it. *)
Definition sound_result (r : AIProbeResult) : Prop :=
  sound_fall (fall r)
  /\ personCount r = Z.of_nat (length (peopleBoxes r))
  /\ (ready r = false ->
      peopleBoxes r = [] /\ state (fall r) = none
      /\ reasons (fall r) = ["video_not_ready"])
  /\ (peopleBoxes r = [] -> state (fall r) = none).

(** A probe that is not detached has its next tick arranged: either a
    detection is in flight or a timer is pending. *)
Definition ticking (p : Probe) : Prop :=
  disposed p = false -> pending p = true \/ exists vh, phase p = InFlight vh.

Lemma dispatch_sound_result sg p :
  ticking p ->
  Forall sound_result (snd (dispatch sg p)) /\ ticking (fst (dispatch sg p)).
Proof.
  intros Tk. destruct sg as [f now | o now |]; cbn [dispatch].
  - destruct (phase p) eqn:Ph; [|split; [constructor | exact Tk]].
    destruct (pending p) eqn:Pd; [|split; [constructor | exact Tk]].
    unfold tick_begin. destruct (disposed p) eqn:D.
    + split; [constructor|]. intros K. cbn in K. congruence.
    + destruct (_ || _).
      * split; [|intros _; left; reflexivity].
        constructor; [|constructor].
        split; [apply sound_fall_none|]. repeat split.
      * destruct (drawImage_error f) as [msg|].
        -- split; [|intros _; left; reflexivity].
           constructor; [|constructor].
           split; [apply sound_fall_none|]. split; [reflexivity|].
           split; [discriminate | reflexivity].
        -- split; [constructor|]. intros _. right. eexists. reflexivity.
  - unfold tick_resume. destruct (phase p) as [|vh]; [split; [constructor | exact Tk]|].
    destruct o as [ds|msg].
    + cbv zeta.
      assert (S : forall x : Track * Fall,
                 x = match Coco.people (o_minScore p) ds with
                     | [] => (track p, {| state := none; confidence := 0; reasons := [] |})
                     | p0 :: _ =>
                         if o_enableFall p && (cooldownUntil (track p) <=? now)
                         then fallHeuristic now vh p0 (track p)
                         else (track p,
                               {| state := none; confidence := 0; reasons := [] |})
                     end ->
                 sound_fall (snd x)
                 /\ (Coco.people (o_minScore p) ds = [] -> state (snd x) = none)).
      { intros x ->. destruct (Coco.people (o_minScore p) ds) as [|p0 rest].
        - split; [apply sound_fall_none | reflexivity].
        - split; [|discriminate].
          destruct (_ && _); [apply fallHeuristic_sound | apply sound_fall_none]. }
      specialize (S _ eq_refl).
      destruct (match Coco.people (o_minScore p) ds with [] => _ | _ :: _ => _ end)
        as [tr fl].
      cbn [fst snd] in *. destruct S as [S1 S2].
      split; [|intros _; left; reflexivity].
      constructor; [|constructor].
      split; [exact S1|]. split; [reflexivity|]. split; [discriminate | exact S2].
    + split; [|intros _; left; reflexivity].
      constructor; [|constructor].
      split; [apply sound_fall_none|]. split; [reflexivity|].
      split; [discriminate | reflexivity].
  - split; [constructor|]. intros K. cbn in K. discriminate.
Qed.

Lemma run_sound_result sgs p :
  ticking p ->
  Forall sound_result (snd (run sgs p)) /\ ticking (fst (run sgs p)).
Proof.
  revert p. induction sgs as [|sg sgs IH]; intros p Tk; cbn [run].
  - split; [constructor | exact Tk].
  - destruct (dispatch_sound_result sg p Tk) as [D1 D2].
    destruct (dispatch sg p) as [p1 out1]. cbn [fst snd] in *.
    destruct (IH p1 D2) as [R1 R2]. destruct (run sgs p1) as [p2 out2].
    cbn [fst snd] in *. split; [apply Forall_app; split; assumption | exact R2].
Qed.

(** X19: over any history of the probe of aiProbe.ts, every result has a
    confidence between 0 and 1, which is 0 when the fall state is none; a
    risk carries the reason "posture_flip" or a "drop:" reason and a
    critical a "still:" reason; the person count is the number of boxes,
    and without a box the state is none.  As long as the probe is not
    detached its loop never ends: after any history a timer is pending or
    a detection is in flight, and a detection that throws is reported as
    "ai_error" with [ready] set and followed by a new timer. *)
Theorem ai_probe_results_and_loop
    (has_ctx : bool) (opts : AIProbeOptions) (sgs : list Signal) :
  let res := run sgs (attachAIProbe has_ctx opts) in
  Forall (fun r =>
            (0 <= confidence (fall r) <= 1)%Q
            /\ (state (fall r) = none -> confidence (fall r) = 0%Q)
            /\ (state (fall r) = risk ->
                In "posture_flip" (reasons (fall r))
                \/ has_reason "drop:" (reasons (fall r)))
            /\ (state (fall r) = critical -> has_reason "still:" (reasons (fall r)))
            /\ personCount r = Z.of_nat (length (peopleBoxes r))
            /\ (peopleBoxes r = [] -> state (fall r) = none))
         (snd res)
  /\ (disposed (fst res) = false ->
      pending (fst res) = true \/ exists vh, phase (fst res) = InFlight vh)
  /\ (forall vh msg now,
        phase (fst res) = InFlight vh ->
        snd (dispatch (DetectSettles (Threw msg) now) (fst res))
        = [{| personCount := 0; peopleBoxes := [];
              fall := {| state := none; confidence := 0;
                         reasons := ["ai_error"; msg] |};
              ts := now; ready := true |}]
        /\ pending (fst (dispatch (DetectSettles (Threw msg) now) (fst res))) = true
        /\ track (fst (dispatch (DetectSettles (Threw msg) now) (fst res)))
           = track (fst res)).
Proof.
  cbv zeta.
  destruct (run_sound_result sgs (attachAIProbe has_ctx opts)) as [R1 R2].
  { intros _. left. reflexivity. }
  split; [|split; [exact R2|]].
  - eapply Forall_impl; [exact R1|].
    intros r ((C & N & Rk & Cr) & Pc & _ & Nb). repeat split; try assumption.
    + apply C.
    + apply C.
  - intros vh msg now Ph. cbn [dispatch]. unfold tick_resume. rewrite Ph.
    repeat split.
Qed.

End AIProbeResults.

(* ===================================================================== *)
(** * What the detector of a tile announces                                *)
(* ===================================================================== *)

Section TileReadings.
Import VideoTile.

Lemma Math_clamp_range a b x :
  (a <= b)%Q -> (a <= JS.Math_max a (JS.Math_min b x) <= b)%Q.
Proof.
  intros Hab. unfold JS.Math_max, JS.Math_min.
  destruct (Qle_bool b x) eqn:E1.
  - destruct (Qle_bool a b) eqn:E2; [split; [exact Hab | apply Qle_refl]|].
    apply Qle_bool_false_iff in E2. contradiction.
  - apply Qle_bool_false_iff in E1.
    destruct (Qle_bool a x) eqn:E2.
    + apply Qle_bool_iff in E2. split; [exact E2 | lra].
    + split; [apply Qle_refl | exact Hab].
Qed.

Lemma motionOf_range dn : (0 <= motionOf dn <= 1)%Q.
Proof.
  unfold motionOf, JS.Math_min. pose proof (Qabs_nonneg dn) as H.
  destruct (Qle_bool 1 (Qabs dn * 3)) eqn:E.
  - split; [discriminate | apply Qle_refl].
  - apply Qle_bool_false_iff in E. split; lra.
Qed.

(** The smoothed motion stays between its two bounds. *)
Definition ema_ok (t : Track) : Prop := (0.004 <= emaMotion t <= 0.25)%Q.

(** A fall reading as the tile's heuristic builds it. *)
Definition tile_fall_ok (f : Fall) : Prop :=
  (0 <= confidence f <= 1)%Q
  /\ (state f = none -> confidence f = 0%Q)
  /\ (state f = risk ->
      In "posture_flip" (reasons f) \/ has_reason "drop:" (reasons f))
  /\ (state f = critical -> has_reason "still:" (reasons f)).

Lemma tile_fall_ok_none rs :
  tile_fall_ok {| state := none; confidence := 0; reasons := rs |}.
Proof.
  split; [split; discriminate|]. split; [reflexivity|]. split; discriminate.
Qed.

Lemma trackPerson_ok now outH p t :
  ema_ok t ->
  tile_fall_ok (fall_of (trackPerson now outH p t))
  /\ (0 <= snd (trackPerson now outH p t) <= 1)%Q
  /\ ema_ok (track_of (trackPerson now outH p t)).
Proof.
  intros He. unfold trackPerson, fall_of, track_of.
  assert (Z01 : (0 <= 0 <= 1)%Q) by (split; discriminate).
  destruct (lastCenterY t) as [lcy|];
    [|split; [apply tile_fall_ok_none | split; [exact Z01 | exact He]]].
  destruct (lastTs t) as [lts|];
    [|split; [apply tile_fall_ok_none | split; [exact Z01 | exact He]]].
  cbv zeta.
  set (dn := dyNorm outH (Coco.centerY p) lcy).
  pose proof (motionOf_range dn) as Hm.
  assert (Hn : ema_ok {| lastCenterY := None; lastAspect := None; lastTs := None;
                         postDropStillStart := None; cooldownUntil := 0;
                         emaMotion := emaNext (emaMotion t) (motionOf dn) |}).
  { unfold ema_ok, emaNext. cbn [emaMotion]. apply Math_clamp_range. lra. }
  unfold ema_ok in Hn. cbn [emaMotion] in Hn.
  destruct (drop _ _) eqn:Dr, (postureFlip _ _) eqn:Pf; cbn [orb app fst snd].
  1-3: split; [|split; [exact Hm | exact Hn]];
       split; [apply clamp01_range|]; split; [discriminate|];
       split; [|discriminate]; intros _.
  - left. right. left. reflexivity.
  - right. apply has_reason_here.
  - left. left. reflexivity.
  - destruct (postDropStillStart t) as [s0|];
      [|split; [apply tile_fall_ok_none | split; [exact Hm | exact Hn]]].
    destruct (littleMotion _ _ && _);
      [|destruct (_ <? _);
        (split; [apply tile_fall_ok_none | split; [exact Hm | exact Hn]])].
    cbn [fst snd]. split; [|split; [exact Hm | exact Hn]].
    split; [apply clamp01_range|]. split; [discriminate|].
    split; [discriminate|]. intros _. unfold stillReason. apply has_reason_here.
Qed.

Lemma trackNobody_ok t :
  ema_ok t ->
  tile_fall_ok (fall_of (trackNobody t))
  /\ (0 <= snd (trackNobody t) <= 1)%Q
  /\ ema_ok (track_of (trackNobody t)).
Proof.
  intros [H1 H2]. unfold trackNobody, fall_of, track_of. cbn [fst snd].
  split; [apply tile_fall_ok_none|]. split; [split; discriminate|].
  unfold ema_ok, JS.Math_max. cbn [emaMotion].
  destruct (Qle_bool 0.006 (emaMotion t * 0.95)) eqn:E.
  - apply Qle_bool_iff in E. split; lra.
  - split; [discriminate | discriminate].
Qed.

(** What a call on the component's setters satisfies. *)
Definition call_ok (c : Call) : Prop :=
  match c with
  | SetAi (Put a) =>
      tile_fall_ok (fall a)
      /\ (0 <= motion a <= 1)%Q
      /\ 0 <= personCount a
      /\ ready a = true
      /\ (band a = countToBand (personCount a)
          \/ (band a = SceneProbe.unknown /\ personCount a = 0
              /\ reasons (fall a) = ["stream_not_ok"]))
  | SetAi _ => True
  | SetScene r => (0 <= SceneProbe.motion r <= 1)%Q
  end.

Lemma tick_begin_ok f t :
  Forall call_ok (snd (tick_begin f t))
  /\ track (fst (tick_begin f t)) = track t.
Proof.
  assert (Z01 : (0 <= 0 <= 1)%Q) by (split; discriminate).
  unfold tick_begin. destruct (stopped t); [split; [constructor | reflexivity]|].
  destruct (_ || _).
  - split; [|reflexivity]. constructor; [exact I|]. constructor; [exact Z01|constructor].
  - destruct (negb (health_ok t)).
    + split; [|reflexivity]. constructor; [|constructor; [exact Z01 | constructor]].
      split; [apply tile_fall_ok_none|]. split; [exact Z01|]. split; [reflexivity|].
      split; [reflexivity|]. right. repeat split.
    + destruct (_ <? _); split; try constructor; reflexivity.
Qed.

Lemma tick_finish_ok ds now outH t :
  ema_ok (track t) ->
  Forall call_ok (snd (tick_finish ds now outH t))
  /\ ema_ok (track (fst (tick_finish ds now outH t))).
Proof.
  intros He. unfold tick_finish. cbv zeta.
  assert (S : forall r : Track * Fall * Q,
             r = match Coco.people (minScore t) ds with
                 | [] => trackNobody (track t)
                 | p :: _ => trackPerson now outH p (track t)
                 end ->
             tile_fall_ok (fall_of r) /\ (0 <= snd r <= 1)%Q /\ ema_ok (track_of r)).
  { intros r ->. destruct (Coco.people (minScore t) ds) as [|p rest];
      [apply trackNobody_ok | apply trackPerson_ok]; exact He. }
  specialize (S _ eq_refl).
  destruct (match Coco.people (minScore t) ds with [] => _ | _ :: _ => _ end)
    as [[tr fl] m].
  unfold fall_of, track_of in S. cbn [fst snd] in *. destruct S as (S1 & S2 & S3).
  split; [|exact S3].
  constructor; [|constructor; [exact S2 | constructor]].
  split; [exact S1|]. split; [exact S2|].
  split; [apply Nat2Z.is_nonneg|]. split; [reflexivity|].
  left. reflexivity.
Qed.

(** Every effect of the wall has its smoothed motion within bounds. *)
Definition wall_ok (wl : Wall) : Prop :=
  forall id t, tiles wl !! id = Some t -> ema_ok (track t).

Lemma wall_ok_put id t b wl :
  wall_ok wl -> ema_ok (track t) -> wall_ok (put_tile id t b wl).
Proof.
  intros Hw Ht id' t' H. cbn [put_tile tiles] in H.
  destruct (decide (id = id')) as [->|N].
  - rewrite lookup_insert_eq in H. injection H as <-. exact Ht.
  - rewrite lookup_insert_ne in H by exact N. exact (Hw id' t' H).
Qed.

Lemma Forall_tag_calls id cs :
  Forall call_ok cs -> Forall (fun ic => call_ok (snd ic)) (tag_calls id cs).
Proof.
  unfold tag_calls. intros H. apply List.Forall_map.
  eapply Forall_impl; [exact H|]. intros c Hc. exact Hc.
Qed.

Lemma step_ok a wl :
  wall_ok wl ->
  Forall (fun ic => call_ok (snd ic)) (snd (step a wl)) /\ wall_ok (fst (step a wl)).
Proof.
  intros Hw.
  assert (Z01 : (0 <= 0 <= 1)%Q) by (split; discriminate).
  destruct a as [id cfg f | id f | id | id o now | id]; cbn [step].
  - destruct (tiles wl !! id); [split; [constructor | exact Hw]|].
    unfold startEffect. destruct (negb (canReadPixels cfg)).
    + split; [|exact Hw]. cbn [snd tag_calls map].
      constructor; [exact I|]. constructor; [exact Z01 | constructor].
    + match goal with |- context [tick_begin f ?t0] =>
        destruct (tick_begin_ok f t0) as [B1 B2]; destruct (tick_begin f t0) as [t1 cs1]
      end.
      cbn [fst snd app] in *. split; [apply Forall_tag_calls; exact B1|].
      apply wall_ok_put; [exact Hw|]. rewrite B2. unfold ema_ok.
      cbn [emaMotion track]. split; lra.
  - destruct (tiles wl !! id) as [t|] eqn:L; [|split; [constructor | exact Hw]].
    destruct (phase t); try (split; [constructor | exact Hw]).
    destruct (pending t); [|split; [constructor | exact Hw]].
    destruct (tick_begin_ok f t) as [B1 B2]. destruct (tick_begin f t) as [t1 cs1].
    cbn [fst snd] in *. split; [apply Forall_tag_calls; exact B1|].
    apply wall_ok_put; [exact Hw|]. rewrite B2. exact (Hw id t L).
  - destruct (tiles wl !! id) as [t|] eqn:L; [|split; [constructor | exact Hw]].
    destruct (phase t); try (split; [constructor | exact Hw]).
    destruct (withAiLock_enter (aiBusy wl)); cbn [fst snd];
      (split; [constructor|]); apply wall_ok_put; try exact Hw; exact (Hw id t L).
  - destruct (tiles wl !! id) as [t|] eqn:L; [|split; [constructor | exact Hw]].
    destruct (phase t); try (split; [constructor | exact Hw]).
    destruct o as [ds|].
    + destruct (tick_finish_ok ds now outH t (Hw id t L)) as [F1 F2].
      destruct (tick_finish ds now outH t) as [t1 cs]. cbn [fst snd] in *.
      split; [apply Forall_tag_calls; exact F1|]. apply wall_ok_put; assumption.
    + cbn [fst snd]. split; [constructor|].
      apply wall_ok_put; [exact Hw | exact (Hw id t L)].
  - destruct (tiles wl !! id) as [t|] eqn:L; [|split; [constructor | exact Hw]].
    cbn [fst snd]. split; [constructor|].
    apply wall_ok_put; [exact Hw | exact (Hw id t L)].
Qed.

Lemma run_ok acts wl :
  wall_ok wl ->
  Forall (fun ic => call_ok (snd ic)) (snd (run acts wl)) /\ wall_ok (fst (run acts wl)).
Proof.
  revert wl. induction acts as [|a acts IH]; intros wl Hw; cbn [run].
  - split; [constructor | exact Hw].
  - destruct (step_ok a wl Hw) as [S1 S2]. destruct (step a wl) as [w1 out1].
    cbn [fst snd] in *. destruct (IH w1 S2) as [R1 R2].
    destruct (run acts w1) as [w2 out2]. cbn [fst snd] in *.
    split; [apply Forall_app; split; assumption | exact R2].
Qed.

(** X20: on every page reached from the empty one, each state a tile's
    detector announces has a confidence between 0 and 1, which is 0 when
    the fall state is none; a risk carries the reason "posture_flip" or a
    "drop:" reason and a critical a "still:" reason; its motion is
    between 0 and 1 and its person count is not negative; its band is the
    band of its count (none for 0, few up to 3, crowd above), except for
    the reading of a stream that is not ok, which has band unknown and
    count 0.  Every scene report passed along has its motion between 0
    and 1, and the smoothed motion of every effect stays between 0.004
    and 0.25. *)
Theorem tile_readings_stay_in_range (acts : list Action) :
  let res := run acts empty_wall in
  Forall (fun ic =>
            match snd ic with
            | SetAi (Put a) =>
                (0 <= confidence (fall a) <= 1)%Q
                /\ (state (fall a) = none -> confidence (fall a) = 0%Q)
                /\ (state (fall a) = risk ->
                    In "posture_flip" (reasons (fall a))
                    \/ has_reason "drop:" (reasons (fall a)))
                /\ (state (fall a) = critical -> has_reason "still:" (reasons (fall a)))
                /\ (0 <= motion a <= 1)%Q
                /\ 0 <= personCount a
                /\ (band a = countToBand (personCount a)
                    \/ (band a = SceneProbe.unknown /\ personCount a = 0
                        /\ reasons (fall a) = ["stream_not_ok"]))
            | SetAi _ => True
            | SetScene r => (0 <= SceneProbe.motion r <= 1)%Q
            end)
         (snd res)
  /\ (forall id t, tiles (fst res) !! id = Some t ->
                   (0.004 <= emaMotion (track t) <= 0.25)%Q).
Proof.
  cbv zeta. destruct (run_ok acts empty_wall) as [R1 R2].
  { intros id t H. cbn in H. rewrite lookup_empty in H. discriminate. }
  split; [|exact R2].
  eapply Forall_impl; [exact R1|]. intros [id c] H. cbn [snd] in *.
  destruct c as [[| |a]|r]; try exact H.
  destruct H as ((C & N & Rk & Cr) & M & P & _ & B). repeat split; try assumption.
  - apply C.
  - apply C.
  - apply M.
  - apply M.
Qed.

End TileReadings.

(* ===================================================================== *)
(** * Empty frames and unhealthy streams                                   *)
(* ===================================================================== *)

Section EmptyAndUnhealthy.
Import VideoTile.

Definition no_fall_reading : Fall := {| state := none; confidence := 0; reasons := [] |}.

(** X21: a sample of the tile's detector that shows nobody resets its
    tracking: the reading has count 0, band none, no fall and motion 0,
    the last position, shape and time and a running stillness window are
    forgotten, and only the cooldown is kept.  Whatever the next sample
    shows, it is read without a fall and with motion 0, and leaves no
    stillness window: a fall that was at risk is not confirmed once the
    person has been out of the picture.  The probe of aiProbe.ts keeps
    its tracking over such a sample. *)
Theorem empty_frame_resets_tile_tracking
    (t : Tile) (ds ds' : list Coco.Detection) (now outH now' outH' : Z)
    (p : AIProbe.Probe) (ads : list Coco.Detection) (vh anow : Z) :
  Coco.people (minScore t) ds = [] ->
  Coco.people (AIProbe.o_minScore p) ads = [] ->
  AIProbe.phase p = AIProbe.InFlight vh ->
  let t1 := fst (tick_finish ds now outH t) in
  snd (tick_finish ds now outH t)
  = [SetAi (Put {| ready := true; personCount := 0; band := SceneProbe.none;
                   fall := no_fall_reading; motion := 0; ts := now |});
     SetScene {| SceneProbe.peopleBand := SceneProbe.none; SceneProbe.motion := 0;
                 SceneProbe.pixelsOk := true |}]
  /\ lastCenterY (track t1) = None /\ lastTs (track t1) = None
  /\ lastAspect (track t1) = None /\ postDropStillStart (track t1) = None
  /\ cooldownUntil (track t1) = cooldownUntil (track t)
  /\ (exists a r,
        snd (tick_finish ds' now' outH' t1) = [SetAi (Put a); SetScene r]
        /\ fall a = no_fall_reading /\ motion a = 0%Q
        /\ postDropStillStart (track (fst (tick_finish ds' now' outH' t1))) = None)
  /\ AIProbe.track (fst (AIProbe.tick_resume (AIProbe.Detected ads) anow p))
     = AIProbe.track p.
Proof.
  intros E Ea Ph. cbv zeta.
  assert (T1 : tick_finish ds now outH t
               = (update (track_of (trackNobody (track t))) Idle true t,
                  [SetAi (Put {| ready := true; personCount := 0;
                                 band := SceneProbe.none;
                                 fall := no_fall_reading; motion := 0; ts := now |});
                   SetScene {| SceneProbe.peopleBand := SceneProbe.none;
                               SceneProbe.motion := 0;
                               SceneProbe.pixelsOk := true |}])).
  { unfold tick_finish. rewrite E. reflexivity. }
  rewrite T1. cbn [fst snd]. split; [reflexivity|].
  do 5 (split; [reflexivity|]). split.
  - unfold tick_finish. cbv zeta. cbn [minScore update track track_of trackNobody fst].
    destruct (Coco.people (minScore t) ds') as [|b rest].
    + eexists _, _. cbn [fst snd]. split; [reflexivity|]. repeat split.
    + unfold trackPerson. cbn [lastCenterY]. cbv zeta. cbv beta iota.
      eexists _, _. cbn [fst snd]. split; [reflexivity|]. repeat split.
  - unfold AIProbe.tick_resume. rewrite Ph. cbv zeta. rewrite Ea. reflexivity.
Qed.

(** What the detector of an effect over a stream that is not ok may
    call. *)
Definition idle_call (c : Call) : Prop :=
  match c with
  | SetAi ClearReady => False
  | SetAi (NotReady _) => True
  | SetAi (Put a) =>
      personCount a = 0 /\ band a = SceneProbe.unknown
      /\ fall a = {| state := none; confidence := 0; reasons := ["stream_not_ok"] |}
      /\ motion a = 0%Q
  | SetScene r => r = unknownScene
  end.

(** The effect captured a health other than ok and is between ticks. *)
Definition unhealthy (tr : Track) (t : Tile) : Prop :=
  phase t = Idle /\ health_ok t = false /\ track t = tr.

Lemma tick_begin_unhealthy f tr t :
  unhealthy tr t ->
  unhealthy tr (fst (tick_begin f t)) /\ Forall idle_call (snd (tick_begin f t)).
Proof.
  intros (Hp & Hh & Ht). unfold tick_begin.
  destruct (stopped t); [split; [repeat split; assumption | constructor]|].
  destruct (_ || _).
  - split; [repeat split; assumption|]. repeat constructor.
  - rewrite Hh. cbn [negb]. split; [repeat split; assumption|].
    constructor; [repeat split | repeat constructor].
Qed.

Lemma step_unhealthy a wl id tr t :
  tiles wl !! id = Some t -> unhealthy tr t ->
  (exists t', tiles (fst (step a wl)) !! id = Some t' /\ unhealthy tr t')
  /\ (forall c, (id, c) ∈ snd (step a wl) -> idle_call c)
  /\ (aiBusy wl = false -> action_id a = id -> aiBusy (fst (step a wl)) = false).
Proof.
  intros Hl Hu.
  destruct (decide (action_id a = id)) as [E|N].
  2: { destruct (step_other a wl id N) as [S1 S2]. split; [|split].
       - exists t. rewrite S1. split; assumption.
       - intros c H. exfalso. exact (S2 c H).
       - intros _ K. contradiction. }
  assert (Keep : (exists t', tiles wl !! id = Some t' /\ unhealthy tr t')
                 /\ (forall c, (id, c) ∈ @nil (nat * Call) -> idle_call c)
                 /\ (aiBusy wl = false -> id = id -> aiBusy wl = false)).
  { split; [exists t; split; assumption|]. split; [|auto].
    intros c H. apply elem_of_nil in H. destruct H. }
  pose proof Hu as (Hp & Hh & Ht).
  destruct a as [id' cfg f | id' f | id' | id' o now | id'];
    cbn [action_id] in E; subst id'; cbn [step action_id]; rewrite Hl.
  - exact Keep.
  - rewrite Hp. destruct (pending t); [|exact Keep].
    destruct (tick_begin_unhealthy f tr t Hu) as [B1 B2].
    destruct (tick_begin f t) as [t1 cs]. cbn [fst snd] in *.
    split; [|split].
    + exists t1. cbn [put_tile tiles]. rewrite lookup_insert_eq. split; [reflexivity|].
      exact B1.
    + intros c H. apply in_tag_calls in H as [_ H].
      rewrite Forall_forall in B2. exact (B2 c H).
    + intros K _. exact K.
  - rewrite Hp. exact Keep.
  - rewrite Hp. exact Keep.
  - split; [|split].
    + exists (cleanup t). cbn [put_tile tiles fst]. rewrite lookup_insert_eq.
      split; [reflexivity | exact Hu].
    + intros c H. apply elem_of_nil in H. destruct H.
    + intros K _. exact K.
Qed.

Lemma run_unhealthy acts wl id tr t :
  tiles wl !! id = Some t -> unhealthy tr t ->
  (exists t', tiles (fst (run acts wl)) !! id = Some t' /\ unhealthy tr t')
  /\ (forall c, (id, c) ∈ snd (run acts wl) -> idle_call c).
Proof.
  revert wl t. induction acts as [|a acts IH]; intros wl t Hl Hu; cbn [run].
  - split; [exists t; split; assumption|]. intros c H. apply elem_of_nil in H. destruct H.
  - destruct (step_unhealthy a wl id tr t Hl Hu) as [(t1 & Hl1 & Hu1) [S _]].
    destruct (step a wl) as [w1 out1]. cbn [fst snd] in *.
    destruct (IH w1 t1 Hl1 Hu1) as [R1 R2].
    destruct (run acts w1) as [w2 out2]. cbn [fst snd] in *.
    split; [exact R1|]. intros c H. apply elem_of_app in H as [H|H].
    + exact (S c H).
    + exact (R2 c H).
Qed.

(** X22: an effect started while the health of its stream is not ok
    never infers.  From its first tick on, whatever happens on the page,
    it stays between ticks with the tracking variables it started with,
    it never waits for the model or the slot, and every call it makes is
    the reading "stream_not_ok" (count 0, band unknown, no fall, motion
    0), the not-ready update, or the scene report unknown. *)
Theorem stream_not_ok_is_never_inferred
    (wl : Wall) (id : nat) (c : Config) (f : Frame) (acts : list Action) :
  tiles wl !! id = None ->
  canReadPixels c = true ->
  cfg_health_ok c = false ->
  let res := run (Mount id c f :: acts) wl in
  (exists t, tiles (fst res) !! id = Some t
             /\ phase t = Idle /\ health_ok t = false
             /\ track t = {| lastCenterY := None; lastAspect := None; lastTs := None;
                             postDropStillStart := None; cooldownUntil := 0;
                             emaMotion := 0.02 |})
  /\ (forall call, (id, call) ∈ snd res -> idle_call call).
Proof.
  intros Hn Hc Hh. cbv zeta. cbn [run step]. rewrite Hn.
  unfold startEffect. rewrite Hc. cbn [negb].
  match goal with |- context [tick_begin f ?t0] =>
    destruct (tick_begin_unhealthy f (track t0) t0) as [B1 B2];
      [repeat split; exact Hh|];
      destruct (tick_begin f t0) as [t1 cs1]
  end.
  cbn [fst snd app track] in *.
  match goal with B : unhealthy ?tr _ |- context [run acts ?w1] =>
    destruct (run_unhealthy acts w1 id tr t1) as [(t' & R1 & R2) R3];
      [cbn [put_tile tiles]; apply lookup_insert_eq | exact B1 |];
      destruct (run acts w1) as [w2 out2]
  end.
  cbn [fst snd] in *. split.
  - exists t'. destruct R2 as (P1 & P2 & P3). repeat split; assumption.
  - intros call H. apply elem_of_app in H as [H|H].
    + apply in_tag_calls in H as [_ H]. rewrite Forall_forall in B2. exact (B2 call H).
    + exact (R3 call H).
Qed.

End EmptyAndUnhealthy.

(* ===================================================================== *)
(** * The people of a detection                                            *)
(* ===================================================================== *)

Section People.

(** The filter of both detectors: a person scored at least [minScore],
    a missing score counting as 0. *)
Definition qualifies (minScore : Q) (d : Coco.Detection) : bool :=
  String.eqb (Coco.class d) "person" && Qle_bool minScore (default 0%Q (Coco.score d)).

Definition to_box (d : Coco.Detection) : Coco.Box :=
  let '(bx, by_, bw, bh) := Coco.bbox d in
  {| Coco.x := bx; Coco.y := by_; Coco.w := bw; Coco.h := bh;
     Coco.box_score := default 0%Q (Coco.score d) |}.

Lemma people_unfold minScore ds :
  Coco.people minScore ds
  = JS.Array_sort (fun a b => (Coco.area b - Coco.area a)%Q)
      (map to_box (List.filter (qualifies minScore) ds)).
Proof. reflexivity. Qed.

(** X23: the people both detectors work with are the boxes of exactly the
    detections of class "person" scored at least [minScore] (a missing
    score counts as 0), each once, ordered by area with the largest
    first; so the person count is the number of such detections, every
    box has a score of at least [minScore], and the box the fall
    heuristic follows is one of the largest. *)
Theorem people_are_the_scored_persons (minScore : Q) (ds : list Coco.Detection) :
  Permutation (map to_box (List.filter (qualifies minScore) ds))
              (Coco.people minScore ds)
  /\ length (Coco.people minScore ds)
     = length (List.filter (qualifies minScore) ds)
  /\ (forall i j a b,
        (i < j)%nat ->
        Coco.people minScore ds !! i = Some a ->
        Coco.people minScore ds !! j = Some b ->
        (Coco.area b <= Coco.area a)%Q)
  /\ Forall (fun b => (minScore <= Coco.box_score b)%Q) (Coco.people minScore ds)
  /\ (Coco.people minScore ds = [] <-> forall d, In d ds -> qualifies minScore d = false).
Proof.
  rewrite people_unfold.
  destruct (Array_sort_sorted (fun a b => (Coco.area b - Coco.area a)%Q)
              (fun a b => (Coco.area b <= Coco.area a)%Q)
              area_cmp_neg area_cmp_not_neg
              (fun x y z Hxy Hyz => Qle_trans _ _ _ Hyz Hxy)
              (map to_box (List.filter (qualifies minScore) ds))) as [Hs Hp].
  split; [exact Hp|]. split; [|split; [|split]].
  - rewrite <- (Permutation_length Hp). apply length_map.
  - intros i j a b Hij Hi Hj.
    exact (StronglySorted_pairs (fun a b => (Coco.area b <= Coco.area a)%Q)
             _ i j a b Hs Hij Hi Hj).
  - eapply Permutation_Forall; [exact Hp|].
    apply List.Forall_map. apply List.Forall_forall. intros d Hd.
    apply filter_In in Hd as [_ Hq]. unfold qualifies in Hq.
    apply andb_true_iff in Hq as [_ Hq]. apply Qle_bool_iff in Hq.
    unfold to_box. destruct (Coco.bbox d) as [[[bx by_] bw] bh]. exact Hq.
  - split.
    + intros E d Hd. destruct (qualifies minScore d) eqn:Q; [|reflexivity].
      assert (Hin : In d (List.filter (qualifies minScore) ds))
        by (apply filter_In; split; assumption).
      rewrite E in Hp. apply Permutation_nil_r in Hp.
      destruct (List.filter (qualifies minScore) ds); [destruct Hin | discriminate].
    + intros Hall.
      assert (F : List.filter (qualifies minScore) ds = []).
      { clear Hs Hp. induction ds as [|d ds IH]; [reflexivity|].
        cbn [List.filter]. rewrite (Hall d) by (left; reflexivity).
        apply IH. intros d' Hd'. apply Hall. right. exact Hd'. }
      rewrite F. reflexivity.
Qed.

End People.

(* ===================================================================== *)
(** * Forwarded falls                                                      *)
(* ===================================================================== *)

Section ForwardedFalls.
Import Types AutoEmit.

(** The clocks of the payloads of severity [sev]. *)
Definition times_of (sev : Severity) (out : list (Z * App.Payload)) : list Z :=
  map fst (List.filter (fun tp => bool_decide (App.p_severity (snd tp) = sev)) out).

(** Each clock of the list is more than [gap] after the one before it,
    the first one after [last]. *)
Fixpoint spaced (gap last : Z) (l : list Z) : Prop :=
  match l with
  | [] => True
  | t :: rest => gap < t - last /\ spaced gap t rest
  end.

(** A payload as the effect builds it for camera [cam]. *)
Definition forwarded (cam : Camera) (p : App.Payload) : Prop :=
  App.camera p = cam /\ App.p_type p = FALL
  /\ (App.p_severity p = risk \/ App.p_severity p = critical)
  /\ App.p_reasons p <> [] /\ App.p_eventTimeSec p = None.

Lemma payload_forwarded cam sev f fb :
  sev = risk \/ sev = critical -> forwarded cam (payload cam sev f fb).
Proof.
  intros H. repeat split; try assumption. unfold payload. cbn [App.p_reasons].
  destruct (VideoTile.reasons f); discriminate.
Qed.

Lemma autoEmit_cases h cam ai now ref :
  autoEmit h cam ai now ref = (ref, [])
  \/ (VideoTile.state (VideoTile.fall ai) = VideoTile.risk
      /\ VideoTile.ready ai = true
      /\ cooldownRiskMs < now - riskMs ref
      /\ autoEmit h cam ai now ref
         = ({| riskMs := now; criticalMs := criticalMs ref |},
            [payload cam risk (VideoTile.fall ai) "ai_fall_risk"]))
  \/ (VideoTile.state (VideoTile.fall ai) = VideoTile.critical
      /\ VideoTile.ready ai = true
      /\ cooldownCriticalMs < now - criticalMs ref
      /\ autoEmit h cam ai now ref
         = ({| riskMs := riskMs ref; criticalMs := now |},
            [payload cam critical (VideoTile.fall ai) "ai_fall_critical"])).
Proof.
  unfold autoEmit. destruct h; cbn [negb]; [|left; reflexivity].
  destruct (VideoTile.ready ai); cbn [negb]; [|left; reflexivity].
  destruct (VideoTile.state (VideoTile.fall ai)) eqn:S.
  - left. reflexivity.
  - rewrite bool_decide_eq_false_2 by discriminate.
    rewrite bool_decide_eq_true_2 by reflexivity.
    rewrite (bool_decide_eq_false_2 (VideoTile.risk = VideoTile.critical))
      by discriminate.
    cbn [andb]. destruct (cooldownRiskMs <? now - riskMs ref) eqn:C.
    + right. left. apply Z.ltb_lt in C. repeat split; try assumption.
    + left. destruct ref. reflexivity.
  - rewrite bool_decide_eq_false_2 by discriminate.
    rewrite (bool_decide_eq_false_2 (VideoTile.critical = VideoTile.risk))
      by discriminate.
    rewrite bool_decide_eq_true_2 by reflexivity.
    cbn [andb]. destruct (cooldownCriticalMs <? now - criticalMs ref) eqn:C.
    + right. right. apply Z.ltb_lt in C. repeat split; try assumption.
    + left. destruct ref. reflexivity.
Qed.

Lemma emits_spaced h cam runs ref :
  let out := snd (emits h cam runs ref) in
  spaced cooldownRiskMs (riskMs ref) (times_of risk out)
  /\ spaced cooldownCriticalMs (criticalMs ref) (times_of critical out)
  /\ Forall (fun tp => forwarded cam (snd tp)) out.
Proof.
  revert ref. induction runs as [|[ai now] runs IH]; intros ref; cbn [emits].
  - cbn. repeat split. constructor.
  - destruct (autoEmit_cases h cam ai now ref) as [E|[(S & R & C & E)|(S & R & C & E)]];
      rewrite E; clear E.
    + specialize (IH ref). destruct (emits h cam runs ref) as [ref2 out2].
      cbn [map app snd] in *. exact IH.
    + specialize (IH {| riskMs := now; criticalMs := criticalMs ref |}).
      destruct (emits h cam runs _) as [ref2 out2]. cbn [map app snd] in *.
      destruct IH as (I1 & I2 & I3). cbn [riskMs criticalMs] in I1, I2.
      unfold times_of. cbn [List.filter snd payload App.p_severity].
      rewrite (bool_decide_eq_true_2 (risk = risk)) by reflexivity.
      rewrite (bool_decide_eq_false_2 (risk = critical)) by discriminate.
      cbn [map fst spaced]. split; [split; [exact C | exact I1]|].
      split; [exact I2|]. constructor; [|exact I3].
      apply payload_forwarded. left. reflexivity.
    + specialize (IH {| riskMs := riskMs ref; criticalMs := now |}).
      destruct (emits h cam runs _) as [ref2 out2]. cbn [map app snd] in *.
      destruct IH as (I1 & I2 & I3). cbn [riskMs criticalMs] in I1, I2.
      unfold times_of. cbn [List.filter snd payload App.p_severity].
      rewrite (bool_decide_eq_true_2 (critical = critical)) by reflexivity.
      rewrite (bool_decide_eq_false_2 (critical = risk)) by discriminate.
      cbn [map fst spaced]. split; [exact I1|].
      split; [split; [exact C | exact I2]|]. constructor; [|exact I3].
      apply payload_forwarded. right. reflexivity.
Qed.

(** X24: a tile forwards falls to the page at a limited rate.  Over all
    the runs of the effect, whatever states it sees and whenever, two
    risk payloads in a row are more than 30 000 ms apart and two critical
    payloads in a row more than 12 000 ms, the two counts running
    separately; the first of each is more than that after clock 0.
    Every payload is for the tile's camera, of type FALL, of severity
    risk or critical, with at least one reason and without an event
    time; nothing is forwarded without a handler, for a state that is not
    ready, or for a reading without a fall. *)
Theorem forwarded_falls_are_rate_limited
    (has_handler : bool) (cam : Camera) (runs : list (VideoTile.AIState * Z)) :
  let out := snd (emits has_handler cam runs initial_ref) in
  spaced 30000 0 (times_of risk out)
  /\ spaced 12000 0 (times_of critical out)
  /\ Forall (fun tp =>
               App.camera (snd tp) = cam /\ App.p_type (snd tp) = FALL
               /\ (App.p_severity (snd tp) = risk \/ App.p_severity (snd tp) = critical)
               /\ App.p_reasons (snd tp) <> [] /\ App.p_eventTimeSec (snd tp) = None)
            out
  /\ (forall ai now ref,
        has_handler = false \/ VideoTile.ready ai = false
        \/ VideoTile.state (VideoTile.fall ai) = VideoTile.none ->
        autoEmit has_handler cam ai now ref = (ref, [])).
Proof.
  cbv zeta. destruct (emits_spaced has_handler cam runs initial_ref) as (S1 & S2 & S3).
  split; [exact S1|]. split; [exact S2|]. split; [exact S3|].
  intros ai now ref [H|[H|H]]; unfold autoEmit.
  - rewrite H. reflexivity.
  - destruct has_handler; [|reflexivity]. rewrite H. reflexivity.
  - destruct has_handler; [|reflexivity]. destruct (VideoTile.ready ai); [|reflexivity].
    cbn [negb]. rewrite bool_decide_eq_true_2 by exact H. reflexivity.
Qed.

End ForwardedFalls.

Section NoReplayWindow.
Import Types App.
Variable makeFrame : string -> IncidentType -> string -> string.

Lemma upsertIncident_result next now prev :
  exists m, In m (upsertIncident next now prev)
            /\ key m = key next
            /\ forall v, eventTimeSec next = JS.present v ->
                         eventTimeSec m = JS.present v.
Proof.
  unfold upsertIncident.
  destruct (JS.findIndex (fun p => same_key p next) prev) as [idx|] eqn:E.
  - destruct (findIndex_some _ _ _ E) as (y & H1 & H2). rewrite H1.
    exists (merged y next now). split; [|split].
    + apply list_elem_of_In. eapply list_elem_of_lookup_2.
      apply list_lookup_insert_eq. eapply lookup_lt_Some. exact H1.
    + reflexivity.
    + intros v Ev. cbn [merged eventTimeSec]. rewrite Ev. reflexivity.
  - exists next. split; [left; reflexivity|]. split; [reflexivity|].
    intros v Ev. exact Ev.
Qed.

(** X25: an incident that comes from a fall forwarded by a tile has no
    replay window.  The payload of the tile carries no event time, the
    handler writes that missing value into the incident it opens or
    merges into, overwriting an event time the incident had, and
    [replayWindow] gives nothing for an incident without event time; it
    also gives nothing for an event at 0 s, and otherwise the window runs
    from 6 s before the event, but not before 0, to 4 s after it. *)
Theorem forwarded_fall_has_no_replay_window
    (cam : Camera) (sev : Severity) (f : VideoTile.Fall) (fallback : string)
    (incidents prev : list Incident) (d : Draws) (now : Z) :
  let pl := AutoEmit.payload cam sev f fallback in
  (exists m, In m (onAutoIncident makeFrame incidents pl d now prev)
             /\ cameraId m = cam_id cam /\ type m = FALL
             /\ JS.read (eventTimeSec m) = None
             /\ FocusModal.replayWindow (Some m) = None)
  /\ (forall i, JS.read (eventTimeSec i) = Some 0%Q ->
                FocusModal.replayWindow (Some i) = None)
  /\ (forall i ts, JS.read (eventTimeSec i) = Some ts -> ~ (ts == 0)%Q ->
        exists wd, FocusModal.replayWindow (Some i) = Some wd
                   /\ FocusModal.t wd = ts
                   /\ (FocusModal.end_ wd == ts + 4)%Q
                   /\ (0 <= FocusModal.start wd)%Q
                   /\ (ts - 6 <= FocusModal.start wd)%Q
                   /\ (FocusModal.end_ wd - FocusModal.start wd <= 10)%Q
                   /\ (0 < ts -> FocusModal.start wd <= ts)%Q).
Proof.
  cbv zeta. split; [|split].
  - assert (N : exists next,
               onAutoIncident makeFrame incidents
                 (AutoEmit.payload cam sev f fallback) d now prev
               = upsertIncident next now prev
               /\ key next = (cam_id cam, FALL)
               /\ eventTimeSec next = JS.present None).
    { unfold onAutoIncident.
      destruct (List.find _ incidents) as [e|] eqn:E.
      - eexists. split; [reflexivity|]. split; [|reflexivity].
        apply find_some in E as [_ E]. apply andb_true_iff in E as [E1 E2].
        apply String.eqb_eq in E1. apply bool_decide_eq_true in E2.
        unfold key. cbn. cbn in E1, E2. rewrite E1, E2. reflexivity.
      - eexists. split; [reflexivity|]. split; reflexivity. }
    destruct N as (next & -> & K & Ev).
    destruct (upsertIncident_result next now prev) as (m & M1 & M2 & M3).
    specialize (M3 None Ev). exists m. split; [exact M1|].
    rewrite K in M2. unfold key in M2. injection M2 as C T.
    split; [exact C|]. split; [exact T|].
    unfold FocusModal.replayWindow. rewrite M3. split; reflexivity.
  - intros i E. unfold FocusModal.replayWindow. rewrite E. reflexivity.
  - intros i ts E Nz. unfold FocusModal.replayWindow. rewrite E.
    destruct (Qeq_bool ts 0) eqn:Q; [apply Qeq_bool_iff in Q; contradiction|].
    eexists. split; [reflexivity|]. cbn [FocusModal.t FocusModal.end_ FocusModal.start].
    split; [reflexivity|]. split; [reflexivity|].
    unfold JS.Math_max. destruct (Qle_bool 0 (ts - 6)) eqn:L.
    + apply Qle_bool_iff in L. repeat split; try lra.
    + apply Qle_bool_false_iff in L. repeat split; try lra.
Qed.

End NoReplayWindow.

(* ===================================================================== *)
(** * Stream URLs behind the proxy                                       *)
(* ===================================================================== *)

Section ProxiedUrls.
Import Urls.
Variable same_origin : string -> option bool.

Lemma substring_all s : String.substring 0 (String.length s) s = s.
Proof. induction s as [|c s IH]; [reflexivity|]. cbn. rewrite IH. reflexivity. Qed.

Lemma prefix_app p rest : String.prefix p (p +:+ rest) = true.
Proof.
  induction p as [|c p IH]; [destruct rest; reflexivity|].
  change (String c p +:+ rest) with (String c (p +:+ rest)). cbn [String.prefix].
  destruct (ascii_dec c c) as [_|N]; [exact IH | contradiction].
Qed.

Lemma slice_app p rest : slice (p +:+ rest) (String.length p) = rest.
Proof.
  unfold slice. induction p as [|c p IH].
  - change ("" +:+ rest) with rest. cbn [String.length]. rewrite Nat.sub_0_r.
    apply substring_all.
  - change (String c p +:+ rest) with (String c (p +:+ rest)).
    cbn [String.length Nat.sub String.substring]. exact IH.
Qed.

Lemma proxify_commons rest :
  proxify (Some (commonsPrefix +:+ rest))
  = Some ("/wm/wiki/Special:FilePath/" +:+ rest).
Proof.
  unfold proxify, startsWith.
  replace (String.eqb (commonsPrefix +:+ rest) "") with false by reflexivity.
  rewrite prefix_app, slice_app. reflexivity.
Qed.

Lemma proxify_upload rest :
  proxify (Some (uploadPrefix +:+ rest)) = Some ("/wm-upload/" +:+ rest).
Proof.
  unfold proxify, startsWith.
  replace (String.eqb (uploadPrefix +:+ rest) "") with false by reflexivity.
  replace (String.prefix commonsPrefix (uploadPrefix +:+ rest)) with false
    by reflexivity.
  rewrite prefix_app, slice_app. reflexivity.
Qed.

(** X26: [proxify] rewrites a Wikimedia Commons file path or upload URL
    to the path under the local proxy with the rest of the URL kept, and
    leaves every other URL, the empty one and a missing one as they are;
    applying it twice is applying it once.  A rewritten URL starts with
    "/", so whatever the URL parser says the tile of such a stream may
    read pixels, as may the webcam tile; a tile without a stream URL may
    not. *)
Theorem proxified_streams_are_readable (url : option string) (rest : string) :
  proxify (proxify url) = proxify url
  /\ proxify (Some (commonsPrefix +:+ rest))
     = Some ("/wm/wiki/Special:FilePath/" +:+ rest)
  /\ proxify (Some (uploadPrefix +:+ rest)) = Some ("/wm-upload/" +:+ rest)
  /\ canReadPixels same_origin false (Some (commonsPrefix +:+ rest)) = true
  /\ canReadPixels same_origin false (Some (uploadPrefix +:+ rest)) = true
  /\ canReadPixels same_origin true url = true
  /\ canReadPixels same_origin false None = false
  /\ canReadPixels same_origin false (Some "") = false
  /\ (forall u, startsWith u commonsPrefix = false ->
                startsWith u uploadPrefix = false ->
                proxify (Some u) = Some u).
Proof.
  split; [|split; [apply proxify_commons|split; [apply proxify_upload|]]].
  - destruct url as [u|]; [|reflexivity].
    assert (R : forall x,
               proxify (Some ("/wm/wiki/Special:FilePath/" +:+ x))
               = Some ("/wm/wiki/Special:FilePath/" +:+ x)
               /\ proxify (Some ("/wm-upload/" +:+ x)) = Some ("/wm-upload/" +:+ x)).
    { intros x. split; reflexivity. }
    assert (P : proxify (Some u) = Some u
                \/ (exists x, proxify (Some u)
                              = Some ("/wm/wiki/Special:FilePath/" +:+ x))
                \/ (exists x, proxify (Some u) = Some ("/wm-upload/" +:+ x))).
    { unfold proxify. destruct (String.eqb u ""); [left; reflexivity|].
      destruct (startsWith u commonsPrefix); [right; left; eexists; reflexivity|].
      destruct (startsWith u uploadPrefix); [right; right; eexists; reflexivity|].
      left. reflexivity. }
    destruct P as [P|[[x P]|[x P]]]; rewrite P.
    + exact P.
    + apply R.
    + apply R.
  - unfold canReadPixels, src. rewrite proxify_commons, proxify_upload.
    repeat split.
    intros u C U. unfold proxify. rewrite C, U. destruct (String.eqb u ""); reflexivity.
Qed.

End ProxiedUrls.

(* ===================================================================== *)
(** * The selected incident                                              *)
(* ===================================================================== *)

Section SelectionFacts.
Import Types App Dashboard Selection.





End SelectionFacts.

(* ===================================================================== *)
(** * The border of a tile                                               *)
(* ===================================================================== *)

Section TileBorder.
Import Types TileView.

(** The fall state of the detector as a severity. *)
Definition fall_severity (ai : VideoTile.AIState) : Severity :=
  match ai_fall_state ai with
  | VideoTile.none => none
  | VideoTile.risk => risk
  | VideoTile.critical => critical
  end.

(** X28: the border of a tile shows one thing at a time, safety before
    health before people.  The severity shown is the incident's when the
    tile has one, whatever the detector says, and the detector's fall
    state otherwise.  A severity of risk or critical gives a thick red
    border and hides a health problem; without it a health state other
    than ok gives a thick border, amber for buffering and red otherwise;
    without either, a band of none or crowd gives a thick blue border.
    The border pulses only when it is thick and red, for a severity of
    critical that is not an acknowledged incident. *)
Theorem tile_border_shows_one_thing
    (incident : option App.Incident) (ai : VideoTile.AIState)
    (health : VideoProbe.StreamHealth) (scene : SceneProbe.SceneProbeResult) :
  let cls := tileClasses incident ai health scene in
  let s := sev incident ai in
  sev incident ai
  = match incident with Some i => App.severity i | None => fall_severity ai end
  /\ (count_occ string_dec cls "thick" <= 1)%nat
  /\ (s = risk \/ s = critical -> exists rest, cls = "tile" :: "thick" :: "red" :: rest)
  /\ (s <> risk -> s <> critical -> VideoProbe.state health <> VideoProbe.ok ->
      cls = ["tile"; "thick";
             if bool_decide (VideoProbe.state health = VideoProbe.buffering)
             then "amber" else "red"])
  /\ (s <> risk -> s <> critical -> VideoProbe.state health = VideoProbe.ok ->
      cls = if peopleFlag (peopleBand ai scene) then ["tile"; "thick"; "blue"]
            else ["tile"])
  /\ (In "pulse" cls <->
      s = critical
      /\ match incident with Some i => App.acked i = false | None => True end)
  /\ (In "pulse" cls -> exists rest, cls = "tile" :: "thick" :: "red" :: rest).
Proof.
  cbv zeta.
  assert (S0 : sev incident ai
               = match incident with
                 | Some i => App.severity i
                 | None => fall_severity ai
                 end).
  { destruct incident as [i|]; [reflexivity|].
    unfold sev, aiDerivedSev, fall_severity. cbn [andb].
    destruct (ai_fall_state ai); reflexivity. }
  split; [exact S0|].
  unfold tileClasses, safetyPulse, healthThick, safetyThick. cbv zeta.
  rewrite S0. clear S0. unfold fall_severity.
  destruct (peopleFlag (peopleBand ai scene));
    destruct (VideoProbe.state health);
    (destruct incident as [i|];
     [destruct (App.acked i); destruct (App.severity i)
     |destruct (ai_fall_state ai)]);
    vm_compute;
    repeat split;
    try lia; try discriminate; try congruence;
    try (intros; eexists; reflexivity);
    try (intros; intuition (discriminate || congruence)).
Qed.

End TileBorder.

(* ===================================================================== *)
(** * The vitals series                                                  *)
(* ===================================================================== *)

Section VitalsFacts.
Import Vitals.

Lemma rnd_range u min max :
  (0 <= u)%Q -> (u < 1)%Q -> min <= max -> min <= rnd u min max <= max.
Proof.
  intros H0 H1 Hm. unfold rnd.
  set (n := max - min + 1).
  assert (Hn : (0 < inject_Z n)%Q).
  { change (inject_Z 0 < inject_Z n)%Q. rewrite <- Zlt_Qlt. unfold n. lia. }
  assert (L : 0 <= Qfloor (u * inject_Z n)).
  { change 0 with (Qfloor 0). apply Qfloor_resp_le. nra. }
  assert (U : Qfloor (u * inject_Z n) < n).
  { rewrite Zlt_Qlt. eapply Qle_lt_trans; [apply Qfloor_le|]. nra. }
  unfold n in *. lia.
Qed.

Lemma vitals_clamp_range n a b : a <= b -> a <= clamp n a b <= b.
Proof. unfold clamp. lia. Qed.

Lemma clamp_step v d a b : a <= v <= b -> Z.min d 0 <= clamp (v + d) a b - v <= Z.max d 0.
Proof. unfold clamp. lia. Qed.

(** Each value follows the one before within the drift of its turn. *)
Fixpoint steps (i : nat) (v : Z) (l : list Z) : Prop :=
  match l with
  | [] => True
  | x :: rest =>
      (if (i <? 6)%nat then -1 <= x - v <= 2 else -2 <= x - v <= 4)
      /\ steps (S i) x rest
  end.

Lemma loop_facts draw i n v :
  (forall k, (0 <= draw k)%Q /\ (draw k < 1)%Q) ->
  45 <= v <= 160 ->
  length (loop draw i n v) = n
  /\ Forall (fun x => 45 <= x <= 160) (loop draw i n v)
  /\ steps i v (loop draw i n v).
Proof.
  intros Hd. revert i v. induction n as [|n IH]; intros i v Hv; cbn [loop].
  - repeat split. constructor.
  - cbv zeta.
    set (drift := if (i <? 6)%nat then rnd (draw i) (-1) 2 else rnd (draw i) (-2) 4).
    pose proof (vitals_clamp_range (v + drift) 45 160 ltac:(lia)) as Hc.
    pose proof (clamp_step v drift 45 160 Hv) as Hs.
    destruct (IH (S i) (clamp (v + drift) 45 160) Hc) as (I1 & I2 & I3).
    cbn [length steps]. split; [rewrite I1; reflexivity|].
    split; [constructor; assumption|]. split; [|exact I3].
    destruct (Hd i) as [D0 D1]. unfold drift in Hs.
    destruct (i <? 6)%nat; subst drift.
    + pose proof (rnd_range (draw i) (-1) 2 D0 D1 ltac:(lia)). lia.
    + pose proof (rnd_range (draw i) (-2) 4 D0 D1 ltac:(lia)). lia.
Qed.

Lemma maximum_facts first rest :
  first <= maximum first rest
  /\ Forall (fun x => x <= maximum first rest) rest
  /\ In (maximum first rest) (first :: rest).
Proof.
  unfold maximum. revert first. induction rest as [|x rest IH]; intros first.
  - cbn. split; [lia|]. split; [constructor | left; reflexivity].
  - cbn [fold_left]. destruct (IH (Z.max first x)) as (I1 & I2 & I3).
    split; [lia|]. split; [constructor; [lia | exact I2]|].
    destruct I3 as [I3|I3]; [|right; right; exact I3].
    destruct (Z.max_spec first x) as [[_ E]|[_ E]].
    + right. left. congruence.
    + left. congruence.
Qed.

(** X29: whatever [Math.random()] returns (values from 0 up to but not
    including 1), the vitals series made from a base between 45 and 160
    has 18 values, all between 45 and 160; each of the first six is at
    most 1 below and at most 2 above the value before it (the base, for
    the first), each later one at most 2 below and at most 4 above; the
    start is the first value, the end the last, and the peak is a value
    of the series that none exceeds. *)
Theorem vitals_series_stays_in_range (draw : nat -> Q) (base : Z) :
  (forall k, (0 <= draw k)%Q /\ (draw k < 1)%Q) ->
  45 <= base <= 160 ->
  let r := makeHrSeries draw base in
  length (App.series r) = 18%nat
  /\ Forall (fun x => 45 <= x <= 160) (App.series r)
  /\ steps 0 base (App.series r)
  /\ head (App.series r) = Some (App.hr_start r)
  /\ List.last (map Some (App.series r)) None = Some (App.hr_end r)
  /\ In (App.hr_peak r) (App.series r)
  /\ Forall (fun x => x <= App.hr_peak r) (App.series r)
  /\ App.hr_start r <= App.hr_peak r /\ App.hr_end r <= App.hr_peak r.
Proof.
  intros Hd Hb. cbv zeta.
  destruct (loop_facts draw 0 len base Hd Hb) as (L1 & L2 & L3).
  unfold makeHrSeries. cbv zeta.
  cbn [App.series App.hr_start App.hr_end App.hr_peak].
  destruct (loop draw 0 len base) as [|first rest] eqn:E; [discriminate L1|].
  destruct (maximum_facts first rest) as (M1 & M2 & M3).
  assert (Hall : Forall (fun x => x <= maximum first rest) (first :: rest))
    by (constructor; assumption).
  assert (Hlast : exists z, List.last (map Some (first :: rest)) None = Some z
                            /\ In z (first :: rest)).
  { clear. revert first. induction rest as [|x rest IH]; intros first.
    - exists first. split; [reflexivity | left; reflexivity].
    - destruct (IH x) as (z & Z1 & Z2). exists z. split; [exact Z1 | right; exact Z2]. }
  destruct Hlast as (z & Z1 & Z2).
  split; [exact L1|]. split; [exact L2|]. split; [exact L3|].
  split; [reflexivity|]. rewrite Z1. cbn [default head].
  split; [reflexivity|]. split; [exact M3|]. split; [exact Hall|].
  split; [exact M1|]. rewrite List.Forall_forall in Hall. exact (Hall z Z2).
Qed.

End VitalsFacts.

(* ===================================================================== *)
(** * The health counters of the header                                    *)
(* ===================================================================== *)

Section HealthCounters.
Import Dashboard.

(** How many of the readings have state [s]. *)
Definition feeds_in (s : VideoProbe.StreamHealthState)
    (values : list VideoProbe.StreamHealth) : Z :=
  Z.of_nat (length (List.filter (fun h => bool_decide (VideoProbe.state h = s)) values)).

Definition count_health (c : HealthCounts) (h : VideoProbe.StreamHealth) : HealthCounts :=
  match VideoProbe.state h with
  | VideoProbe.buffering =>
      {| n_buffering := n_buffering c + 1; n_frozen := n_frozen c;
         n_black := n_black c; n_error := n_error c |}
  | VideoProbe.frozen =>
      {| n_buffering := n_buffering c; n_frozen := n_frozen c + 1;
         n_black := n_black c; n_error := n_error c |}
  | VideoProbe.black =>
      {| n_buffering := n_buffering c; n_frozen := n_frozen c;
         n_black := n_black c + 1; n_error := n_error c |}
  | VideoProbe.error =>
      {| n_buffering := n_buffering c; n_frozen := n_frozen c;
         n_black := n_black c; n_error := n_error c + 1 |}
  | VideoProbe.ok => c
  end.

Lemma fold_count_health values c :
  let r := fold_left count_health values c in
  n_buffering r = n_buffering c + feeds_in VideoProbe.buffering values
  /\ n_frozen r = n_frozen c + feeds_in VideoProbe.frozen values
  /\ n_black r = n_black c + feeds_in VideoProbe.black values
  /\ n_error r = n_error c + feeds_in VideoProbe.error values
  /\ feeds_in VideoProbe.ok values + feeds_in VideoProbe.buffering values
     + feeds_in VideoProbe.frozen values + feeds_in VideoProbe.black values
     + feeds_in VideoProbe.error values = Z.of_nat (length values).
Proof.
  revert c. induction values as [|h values IH]; intros c; cbn [fold_left].
  - unfold feeds_in. cbn. lia.
  - destruct (IH (count_health c h)) as (H1 & H2 & H3 & H4 & H5). cbv zeta.
    rewrite H1, H2, H3, H4. clear H1 H2 H3 H4.
    unfold feeds_in in *. unfold count_health. cbn [List.filter length].
    destruct (VideoProbe.state h);
      cbn [n_buffering n_frozen n_black n_error];
      repeat match goal with
             | |- context [bool_decide (?a = ?b)] =>
                 first [ rewrite (bool_decide_eq_true_2 (a = b)) by reflexivity
                       | rewrite (bool_decide_eq_false_2 (a = b)) by discriminate ]
             end; cbn [length]; lia.
Qed.

(** X30: the four health counters of the header are the numbers of feeds
    whose held state is buffering, frozen, black and error; a feed is
    counted at most once, so together with the feeds in state ok they
    add up to the number of feeds that have reported, and all four are
    zero exactly when every such feed is ok. *)
Theorem health_counters_partition_the_feeds (values : list VideoProbe.StreamHealth) :
  let c := healthCounts values in
  n_buffering c = feeds_in VideoProbe.buffering values
  /\ n_frozen c = feeds_in VideoProbe.frozen values
  /\ n_black c = feeds_in VideoProbe.black values
  /\ n_error c = feeds_in VideoProbe.error values
  /\ feeds_in VideoProbe.ok values + n_buffering c + n_frozen c + n_black c + n_error c
     = Z.of_nat (length values)
  /\ (n_buffering c = 0 /\ n_frozen c = 0 /\ n_black c = 0 /\ n_error c = 0
      <-> Forall (fun h => VideoProbe.state h = VideoProbe.ok) values).
Proof.
  cbv zeta.
  destruct (fold_count_health values
              {| n_buffering := 0; n_frozen := 0; n_black := 0; n_error := 0 |})
    as (H1 & H2 & H3 & H4 & H5).
  change (fold_left count_health values _) with (healthCounts values) in *.
  cbn [n_buffering n_frozen n_black n_error] in *.
  rewrite Z.add_0_l in H1, H2, H3, H4.
  rewrite H1, H2, H3, H4.
  split; [reflexivity|]. split; [reflexivity|]. split; [reflexivity|].
  split; [reflexivity|]. split; [lia|].
  assert (Ok : feeds_in VideoProbe.ok values = Z.of_nat (length values)
               <-> Forall (fun h => VideoProbe.state h = VideoProbe.ok) values).
  { unfold feeds_in. clear. induction values as [|h values IH].
    - split; [constructor | reflexivity].
    - cbn [List.filter length].
      pose proof (List.filter_length_le
                    (fun h => bool_decide (VideoProbe.state h = VideoProbe.ok)) values).
      destruct (bool_decide (VideoProbe.state h = VideoProbe.ok)) eqn:B.
      + apply bool_decide_eq_true in B. cbn [length]. split.
        * intros E. constructor; [exact B|]. apply IH. lia.
        * intros F. apply Forall_cons in F as [_ F]. apply IH in F. lia.
      + apply bool_decide_eq_false in B. split; [lia|].
        intros F. apply Forall_cons in F as [F _]. contradiction. }
  assert (N : forall s, 0 <= feeds_in s values) by (intros s; unfold feeds_in; lia).
  pose proof (N VideoProbe.buffering). pose proof (N VideoProbe.frozen).
  pose proof (N VideoProbe.black). pose proof (N VideoProbe.error).
  split.
  - intros (E1 & E2 & E3 & E4). apply Ok. lia.
  - intros F. apply Ok in F. lia.
Qed.

End HealthCounters.

(* ===================================================================== *)
(** * Further worked instances                                             *)
(* ===================================================================== *)

Section MoreInstances.

Definition buffering_reading : VideoProbe.StreamHealth :=
  {| VideoProbe.state := VideoProbe.buffering; VideoProbe.sinceMs := 1200;
     VideoProbe.reason := "waiting"; VideoProbe.details := None |}.

Definition ok_reading : VideoProbe.StreamHealth :=
  {| VideoProbe.state := VideoProbe.ok; VideoProbe.sinceMs := 0;
     VideoProbe.reason := "attached"; VideoProbe.details := None |}.

Definition few_people : SceneProbe.SceneProbeResult :=
  {| SceneProbe.peopleBand := SceneProbe.few; SceneProbe.motion := 0.1;
     SceneProbe.pixelsOk := true |}.

(** Camera 1 reports ok and then buffering; camera 2 reports after it. *)
Lemma page_holds_buffering_for_camera_one :
  VideoProbe.state
    <$> (health_reports [("cam-01", ok_reading); ("cam-01", buffering_reading);
                         ("cam-02", ok_reading)] ∅ !! "cam-01")
  = Some VideoProbe.buffering.
Proof.
  refine (proj1 (page_holds_latest_state "cam-01"
                   [("cam-01", ok_reading)] [("cam-02", ok_reading)] buffering_reading
                   [] [] few_people ∅ ∅ _ _)).
  - repeat constructor. cbn. discriminate.
  - constructor.
Defined.

(** The first report for the bed camera, on an empty page. *)
Lemma first_report_opens_incident :
  exists c,
    App.onAutoIncident plain_frame [] critical_report first_draws 5000 [] = [c]
    /\ App.id c = "inc-9f3a-1000"
    /\ App.acked c = false
    /\ App.createdAt c = 1000.
Proof.
  destruct (report_for_new_key_opens_incident plain_frame [] [] critical_report
              first_draws 5000)
    as (c & E & Hid & _ & _ & _ & _ & _ & Ht & Ha & _).
  - constructor.
  - constructor.
  - exists c. repeat split; assumption.
Defined.

(** The handler still holds the watch incident that the page has
    resolved. *)
Lemma resolved_incident_comes_back :
  exists c,
    App.onAutoIncident plain_frame [watch_fall] critical_report first_draws 5000 [] = [c]
    /\ App.id c = App.id watch_fall
    /\ App.createdAt c = 1000.
Proof.
  destruct (report_on_stale_list_restores_incident plain_frame [watch_fall] []
              critical_report first_draws 5000 watch_fall)
    as (c & E & Hid & Ht & _).
  - reflexivity.
  - constructor.
  - exists c. repeat split; assumption.
Defined.

Definition second_draws : App.Draws :=
  {| App.random_hex := "77b0"; App.created_ms := 5000;
     App.vitals := {| App.hr_start := 75; App.hr_peak := 88; App.hr_end := 80;
                      App.series := [75; 88; 80] |} |}.

(** The page holds the watch incident; the handler's list is the same,
    or is still empty. *)
Lemma merged_incident_keeps_or_changes_id :
  (exists m,
      App.onAutoIncident plain_frame [watch_fall] critical_report second_draws 5000
        [watch_fall] !! 0%nat = Some m
      /\ App.id m = "inc-9f3a-1000")
  /\ (exists m,
        App.onAutoIncident plain_frame [] critical_report second_draws 5000
          [watch_fall] !! 0%nat = Some m
        /\ App.id m = "inc-77b0-5000").
Proof.
  destruct (merged_identity_follows_handler_list plain_frame [watch_fall] critical_report
              second_draws 5000 0 watch_fall) as [(m & E & Hid & _) H2].
  - apply NoDup_singleton.
  - reflexivity.
  - reflexivity.
  - split.
    + exists m. split; [exact E | exact Hid].
    + destruct (H2 [] (List.Forall_nil _)) as (m' & E' & Hid' & _).
      exists m'. split; [exact E' | exact Hid'].
Defined.

Definition watchdog_at (t : Z) (v : VideoProbe.Video) : VideoProbe.Occurrence :=
  {| VideoProbe.signal := VideoProbe.FrozenTimer; VideoProbe.at_ms := t;
     VideoProbe.video := v |}.

Definition moved_video : VideoProbe.Video :=
  {| VideoProbe.src := "/streams/patient_fall.mp4";
     VideoProbe.currentSrc := "/streams/patient_fall.mp4";
     VideoProbe.networkState := 1; VideoProbe.readyState := 4;
     VideoProbe.paused := false; VideoProbe.ended := false;
     VideoProbe.currentTime := Some 1%Q; VideoProbe.duration := Some 60%Q |}.

Definition paused_video : VideoProbe.Video :=
  {| VideoProbe.src := "/streams/patient_fall.mp4";
     VideoProbe.currentSrc := "/streams/patient_fall.mp4";
     VideoProbe.networkState := 1; VideoProbe.readyState := 4;
     VideoProbe.paused := true; VideoProbe.ended := false;
     VideoProbe.currentTime := Some 0%Q; VideoProbe.duration := Some 60%Q |}.

Definition attached_probe : VideoProbe.Probe :=
  fst (VideoProbe.attachVideoProbe idle_video 0 true pixel_options).

(** The video stays at position 0 for 8.4 s and then moves. *)
Lemma freeze_then_progress :
  map VideoProbe.reason
      (snd (VideoProbe.run
              [watchdog_at 400 idle_video; watchdog_at 8000 idle_video;
               watchdog_at 8400 idle_video; watchdog_at 8800 moved_video]
              attached_probe))
  = ["no_time_progress_8s"; "time_progress"].
Proof.
  destruct (stalled_video_is_reported_frozen_once attached_probe
              [watchdog_at 400 idle_video; watchdog_at 8000 idle_video;
               watchdog_at 8400 idle_video]
              (watchdog_at 8800 moved_video)) as (_ & H & _).
  - reflexivity.
  - reflexivity.
  - vm_compute. discriminate.
  - repeat constructor.
  - reflexivity.
  - change ([watchdog_at 400 idle_video; watchdog_at 8000 idle_video;
             watchdog_at 8400 idle_video; watchdog_at 8800 moved_video])
      with ([watchdog_at 400 idle_video; watchdog_at 8000 idle_video;
             watchdog_at 8400 idle_video] ++ [watchdog_at 8800 moved_video]).
    rewrite H. vm_compute. reflexivity.
Defined.

(** The video is paused for 9 s; the first tick after it plays again
    finds it at the position it had. *)
Lemma frozen_right_after_a_pause :
  map VideoProbe.state
      (snd (VideoProbe.run
              [watchdog_at 400 paused_video; watchdog_at 9000 paused_video;
               watchdog_at 9400 idle_video]
              attached_probe))
  = [VideoProbe.frozen].
Proof.
  destruct (paused_time_counts_towards_freeze attached_probe
              [watchdog_at 400 paused_video; watchdog_at 9000 paused_video]
              (watchdog_at 9400 idle_video)) as (_ & H & _).
  - reflexivity.
  - reflexivity.
  - vm_compute. discriminate.
  - repeat constructor.
  - reflexivity.
  - reflexivity.
  - change ([watchdog_at 400 paused_video; watchdog_at 9000 paused_video;
             watchdog_at 9400 idle_video])
      with ([watchdog_at 400 paused_video; watchdog_at 9000 paused_video]
              ++ [watchdog_at 9400 idle_video]).
    rewrite H. reflexivity.
Defined.

Definition detach_at (t : Z) : VideoProbe.Occurrence :=
  {| VideoProbe.signal := VideoProbe.Detach; VideoProbe.at_ms := t;
     VideoProbe.video := idle_video |}.

Definition waiting_at (t : Z) : VideoProbe.Occurrence :=
  {| VideoProbe.signal := VideoProbe.Waiting; VideoProbe.at_ms := t;
     VideoProbe.video := idle_video |}.

(** A waiting event after detach. *)
Lemma nothing_after_detach :
  snd (VideoProbe.run [detach_at 500; waiting_at 900] attached_probe) = []
  /\ snd (SceneProbe.run [SceneProbe.Detach; SceneProbe.Interval readable_sample]
            (SceneProbe.attachSceneProbe true SceneProbe.no_options)) = [].
Proof.
  destruct (detach_ends_the_readings attached_probe [] [waiting_at 900] (detach_at 500)
              (SceneProbe.attachSceneProbe true SceneProbe.no_options)
              [] [SceneProbe.Interval readable_sample]) as (H1 & _ & _ & H2 & _).
  - reflexivity.
  - split; [exact H1 | exact H2].
Defined.


(** The same dark picture sampled twice by the scene probe. *)
Lemma same_picture_twice_reads_none :
  exists r,
    snd (SceneProbe.run two_samples
           (SceneProbe.attachSceneProbe true SceneProbe.no_options))
    = snd (SceneProbe.dispatch (SceneProbe.Interval readable_sample)
             (SceneProbe.attachSceneProbe true SceneProbe.no_options)) ++ [r]
    /\ SceneProbe.peopleBand r = SceneProbe.none.
Proof.
  destruct (still_picture_reads_as_empty
              (SceneProbe.attachSceneProbe true SceneProbe.no_options)
              readable_sample readable_sample dark_frame)
    as (r & E & _ & B & _).
  - reflexivity.
  - reflexivity.
  - reflexivity.
  - reflexivity.
  - reflexivity.
  - apply Qle_bool_iff. reflexivity.
  - apply Qlt_bool_iff. reflexivity.
  - exists r. split; [exact E | exact B].
Defined.

(** The patient feed inside its first inference call. *)
Definition first_inference : VideoTile.Wall :=
  fst (VideoTile.run
         [VideoTile.Mount 0 patient_config (frame_at 0); VideoTile.ModelLoaded 0]
         VideoTile.empty_wall).

Lemma failed_inference_sets_no_timer :
  snd (VideoTile.step (VideoTile.DetectSettles 0 VideoTile.Threw 100) first_inference)
  = []
  /\ VideoTile.aiBusy
       (fst (VideoTile.step (VideoTile.DetectSettles 0 VideoTile.Threw 100)
               first_inference)) = false
  /\ peek VideoTile.pending
          (fst (VideoTile.run
                  [VideoTile.TimerFires 0 (frame_at 650)]
                  (fst (VideoTile.step (VideoTile.DetectSettles 0 VideoTile.Threw 100)
                          first_inference)))) 0
     = Some false.
Proof.
  edestruct inference_failure_stops_the_detector
    with (wl := first_inference) (id := 0%nat) (outH := 203) (now := 100)
         (acts := [VideoTile.TimerFires 0 (frame_at 650)])
    as (H1 & H2 & _ & (t' & L & _ & P)).
  - vm_compute. reflexivity.
  - vm_compute. reflexivity.
  - split; [exact H1|]. split; [exact H2|]. unfold peek. rewrite L. cbn. rewrite P.
    reflexivity.
Defined.

Definition tracking_tile : VideoTile.Tile :=
  {| VideoTile.everyMs := 550; VideoTile.minScore := 0.38;
     VideoTile.health_ok := true; VideoTile.ctx := true; VideoTile.stopped := false;
     VideoTile.track :=
       {| VideoTile.lastCenterY := Some 100%Q; VideoTile.lastAspect := Some 2%Q;
          VideoTile.lastTs := Some 700; VideoTile.postDropStillStart := Some 700;
          VideoTile.cooldownUntil := 0; VideoTile.emaMotion := 0.02 |};
     VideoTile.phase := VideoTile.InFlight 203; VideoTile.pending := false |}.

(** A sample without a person while a stillness window runs. *)
Lemma empty_sample_drops_the_window :
  VideoTile.postDropStillStart
    (VideoTile.track (fst (VideoTile.tick_finish [] 1300 203 tracking_tile))) = None
  /\ VideoTile.lastCenterY
       (VideoTile.track (fst (VideoTile.tick_finish [] 1300 203 tracking_tile))) = None.
Proof.
  destruct (empty_frame_resets_tile_tracking tracking_tile [] [dropped] 1300 203 1850 203
              (fst detached_in_flight) [] 360 40)
    as (_ & H1 & _ & _ & H2 & _).
  - reflexivity.
  - reflexivity.
  - reflexivity.
  - split; [exact H2 | exact H1].
Defined.

Definition stalled_feed_config : VideoTile.Config :=
  {| VideoTile.canReadPixels := true; VideoTile.looksLikePatient := true;
     VideoTile.isWebcam := false; VideoTile.cfg_health_ok := false;
     VideoTile.cfg_ctx := true |}.

(** An effect started on a feed that is buffering. *)
Lemma buffering_feed_is_not_inferred :
  exists t,
    VideoTile.tiles
      (fst (VideoTile.run
              [VideoTile.Mount 0 stalled_feed_config (frame_at 0);
               VideoTile.TimerFires 0 (frame_at 550); VideoTile.ModelLoaded 0]
              VideoTile.empty_wall)) !! 0%nat = Some t
    /\ VideoTile.phase t = VideoTile.Idle.
Proof.
  destruct (stream_not_ok_is_never_inferred VideoTile.empty_wall 0 stalled_feed_config
              (frame_at 0)
              [VideoTile.TimerFires 0 (frame_at 550); VideoTile.ModelLoaded 0])
    as [(t & L & P & _) _].
  - reflexivity.
  - reflexivity.
  - reflexivity.
  - exists t. split; [exact L | exact P].
Defined.

(** Every draw of [Math.random()] is one half. *)
Lemma vitals_of_even_draws :
  length (App.series (Vitals.makeHrSeries (fun _ => 1 # 2)%Q 80)) = 18%nat
  /\ Forall (fun x => 45 <= x <= 160)
            (App.series (Vitals.makeHrSeries (fun _ => 1 # 2)%Q 80)).
Proof.
  destruct (vitals_series_stays_in_range (fun _ => 1 # 2)%Q 80) as (H1 & H2 & _).
  - intros k. split; [discriminate | reflexivity].
  - lia.
  - split; [exact H1 | exact H2].
Defined.

End MoreInstances.
